(** * The C emulator driver (emulator/cbinding/emulator.c)

    A shallow embedding of the command-line driver of the Caliptra MCU
    emulator: the numeric parsers used on the command line, the raw-mode
    terminal controller, the signal handler, the free-run loop and [main].

    The engine ([emulator_*] functions of the Rust static library), the C
    library and the terminal device are the environment.  Every call into
    them is recorded as an [Event]; their answers are taken from an
    explicit oracle, so that each function of the driver is a total,
    executable function of the environment's answers.

    Of each [#ifdef _WIN32] the POSIX branch is the one embedded, with
    the integer widths of LP64 and the constants of <termios.h> on Linux.
    [strtoul], [atoi] and [sscanf] follow ISO C in the "C" locale.  The
    option parser that the driver defines for Windows is embedded as
    well. *)

From Stdlib Require Import ZArith List String Ascii Bool Lia DecimalString.
Import ListNotations.

Local Open Scope string_scope.
Local Open Scope Z_scope.

(** ** Characters and C strings *)

(** The code of a character, as an [unsigned char]. *)
Definition code (c : ascii) : Z := Z.of_N (N_of_ascii c).

(** The line feed written by ["\n"] in a C string literal. *)
Definition nl : string := String (ascii_of_nat 10) EmptyString.

(** [isspace] in the "C" locale: space, and the controls from \t to \r. *)
Definition isspace (c : ascii) : bool :=
  (code c =? 32) || ((9 <=? code c) && (code c <=? 13)).

(** The value of a character as a digit, for bases up to 36. *)
Definition digit_of (c : ascii) : option Z :=
  let n := code c in
  if (48 <=? n) && (n <=? 57) then Some (n - 48)
  else if (97 <=? n) && (n <=? 122) then Some (n - 97 + 10)
  else if (65 <=? n) && (n <=? 90) then Some (n - 65 + 10)
  else None.

(** A character is a digit of [base] when its value is below [base]. *)
Definition digit_in (base : Z) (c : ascii) : option Z :=
  match digit_of c with
  | Some d => if d <? base then Some d else None
  | None => None
  end.

Definition is_digit_in (base : Z) (c : ascii) : bool :=
  match digit_in base c with Some _ => true | None => false end.

Fixpoint skip_space (s : string) : string :=
  match s with
  | String c s' => if isspace c then skip_space s' else s
  | EmptyString => s
  end.

(** The optional sign of a numeric subject sequence: [true] for ['-']. *)
Definition take_sign (s : string) : bool * string :=
  match s with
  | String "-" s' => (true, s')
  | String "+" s' => (false, s')
  | _ => (false, s)
  end.

(** The digits of [base] at the head of [s], accumulated from [acc], with
    how many there were and what follows them. *)
Fixpoint take_digits (base : Z) (s : string) (acc : Z) (n : nat)
  : Z * nat * string :=
  match s with
  | String c s' =>
      match digit_in base c with
      | Some d => take_digits base s' (acc * base + d) (S n)
      | None => (acc, n, s)
      end
  | EmptyString => (acc, n, s)
  end.

(** [strncmp(str, p, 2) == 0] for a two-character literal [p]. *)
Definition strncmp2_eq (str : string) (p1 p2 : ascii) : bool :=
  match str with
  | String a (String b _) => Ascii.eqb a p1 && Ascii.eqb b p2
  | _ => false
  end.

(** What [%s] and [%.*s] print of a buffer that holds [s]: the bytes up
    to the first NUL. *)
Fixpoint printed (s : string) : string :=
  match s with
  | EmptyString => EmptyString
  | String c s' =>
      if Ascii.eqb c Ascii.zero then EmptyString else String c (printed s')
  end.

(** ** Integer types of the LP64 data model (Linux, macOS) *)

Definition UINT_MAX : Z := 2 ^ 32 - 1.
Definition INT_MAX : Z := 2 ^ 31 - 1.
Definition ULONG_MAX : Z := 2 ^ 64 - 1.
Definition LONG_MAX : Z := 2 ^ 63 - 1.
Definition LONG_MIN : Z := - 2 ^ 63.

(** Conversion to [unsigned int] and to [unsigned long]: reduction modulo
    the width. *)
Definition to_uint (v : Z) : Z := v mod 2 ^ 32.
Definition to_ulong (v : Z) : Z := v mod 2 ^ 64.

(** Conversion to [int] (two's complement). *)
Definition to_int (v : Z) : Z :=
  let m := v mod 2 ^ 32 in if m <? 2 ^ 31 then m else m - 2 ^ 32.

(** ** [strtoul] and [strtol] (ISO C 7.22.1.4, "C" locale)

    White space is skipped, a sign is optional, with base 16 the
    characters 0x or 0X may precede the digits, and the conversion stops
    at the first character that is not a digit of the base.  With no
    digit the value is 0.  A value that does not fit is replaced by
    [ULONG_MAX]; otherwise a minus sign negates in the return type.  The
    driver passes a null [endptr] and never reads [errno]. *)
Definition skip_0x (base : Z) (s : string) : string :=
  match s with
  | String "0" (String x (String h s')) =>
      if (base =? 16) && (Ascii.eqb x "x" || Ascii.eqb x "X")
         && is_digit_in 16 h
      then String h s' else s
  | _ => s
  end.

Definition ulong_of (neg : bool) (v : Z) : Z :=
  if ULONG_MAX <? v then ULONG_MAX
  else if neg then to_ulong (- v) else v.

Definition strtoul (str : string) (base : Z) : Z :=
  let '(neg, s) := take_sign (skip_space str) in
  let '(v, _, _) := take_digits base (skip_0x base s) 0 0 in
  ulong_of neg v.

Definition strtol (str : string) (base : Z) : Z :=
  let '(neg, s) := take_sign (skip_space str) in
  let '(v, _, _) := take_digits base (skip_0x base s) 0 0 in
  if neg then (if LONG_MIN <=? - v then - v else LONG_MIN)
  else (if v <=? LONG_MAX then v else LONG_MAX).

(** [atoi(s)] is [(int)strtol(s, NULL, 10)]. *)
Definition atoi (s : string) : Z := to_int (strtol s 10).

(** ** parse_hex_or_decimal *)

Definition parse_hex_or_decimal (str : string) : Z :=
  if strncmp2_eq str "0" "x" || strncmp2_eq str "0" "X"
  then to_uint (strtoul str 16)
  else to_uint (strtoul str 10).

(** ** sscanf(optarg, "%u.%u.%u", ...) (ISO C 7.21.6.2)

    A [%u] directive skips white space, then takes the longest prefix of
    the input that is, or starts, an optionally signed decimal integer.
    The directive fails with an input failure when the string ends before
    any character of the item, and with a matching failure when the item
    has no digit.  The converted value is stored as an [unsigned int]. *)
Inductive ScanResult :=
| Converted (v : Z) (rest : string)
| MatchingFailure
| InputFailure.

Definition scan_u (s : string) : ScanResult :=
  match skip_space s with
  | EmptyString => InputFailure
  | s1 =>
      let '(neg, s2) := take_sign s1 in
      let '(v, n, rest) := take_digits 10 s2 0 0 in
      match n with
      | O => MatchingFailure
      | S _ => Converted (to_uint (ulong_of neg v)) rest
      end
  end.

Definition EOF : Z := -1.

(** The ordinary character ['.'] of the format matches exactly itself. *)
Definition scan_dot (s : string) : option string :=
  match s with
  | String "." s' => Some s'
  | _ => None
  end.

(** The value returned by [sscanf] with the format ["%u.%u.%u"], and the
    values assigned, in order, to its three pointer arguments: [EOF] on an
    input failure before the first conversion, else the number of
    assignments. *)
Definition sscanf_u_u_u (s : string) : Z * list Z :=
  match scan_u s with
  | InputFailure => (EOF, [])
  | MatchingFailure => (0, [])
  | Converted a r1 =>
      match scan_dot r1 with
      | None => (1, [a])
      | Some r1' =>
          match scan_u r1' with
          | Converted b r2 =>
              match scan_dot r2 with
              | None => (2, [a; b])
              | Some r2' =>
                  match scan_u r2' with
                  | Converted c _ => (3, [a; b; c])
                  | _ => (2, [a; b])
                  end
              end
          | _ => (1, [a])
          end
      end
  end.

(** ** The terminal: struct termios and the device behind stdin *)

Record termios := mk_termios {
  c_iflag : Z;
  c_oflag : Z;
  c_cflag : Z;
  c_lflag : Z;
  c_cc : list Z
}.

(** Flag bits and control-character indices of <termios.h> on Linux. *)
Definition ISIG : Z := 1.
Definition ICANON : Z := 2.
Definition ECHO : Z := 8.
Definition ECHOE : Z := 16.
Definition ECHOK : Z := 32.
Definition ECHONL : Z := 64.
Definition IEXTEN : Z := 32768.
Definition INLCR : Z := 64.
Definition ICRNL : Z := 256.
Definition IXON : Z := 1024.
Definition VTIME : nat := 5.
Definition VMIN : nat := 6.

(** [cc[i] = v]; [c_cc] has NCCS entries and both indices are below it. *)
Fixpoint set_cc (cc : list Z) (i : nat) (v : Z) : list Z :=
  match cc, i with
  | [], _ => []
  | _ :: cc', O => v :: cc'
  | x :: cc', S i' => x :: set_cc cc' i' v
  end.

(** A static [struct termios] starts out zeroed. *)
Definition zero_termios : termios := mk_termios 0 0 0 0 (repeat 0 32%nat).

(** The local [raw] of [enable_raw_mode], computed from the saved mode. *)
Definition make_raw (t : termios) : termios :=
  {| c_iflag := Z.land (c_iflag t) (Z.lnot (Z.lor (Z.lor IXON ICRNL) INLCR));
     c_oflag := c_oflag t;
     c_cflag := c_cflag t;
     c_lflag :=
       Z.land (c_lflag t)
         (Z.lnot (Z.lor (Z.lor (Z.lor (Z.lor (Z.lor (Z.lor
            ECHO ECHOE) ECHOK) ECHONL) ICANON) ISIG) IEXTEN));
     c_cc := set_cc (set_cc (c_cc t) VMIN 0) VTIME 0 |}.

(** The device behind STDIN_FILENO.  [tcgetattr] fails when it is not a
    terminal; [tcsetattr] fails when it is not a terminal or when the
    device refuses the change.  Whether it refuses is a property of the
    device that no call of the driver alters: a device answers every
    [tcsetattr] of a run alike.  A terminal that accepts one mode and
    later refuses another is described one call at a time, by a world
    for each call. *)
Record Tty := mk_tty {
  tty_isatty : bool;
  tty_attrs : termios;
  tty_settable : bool
}.

(** ** The configuration handed to the engine

    [struct CEmulatorConfig] is declared in emulator_cbinding.h.  Its
    fields are grouped by type: pointers to strings (null when unset),
    integers, and the memory layout overrides, where -1 means that the
    engine's default is used. *)
Inductive StrField :=
| rom_path | firmware_path | caliptra_rom_path | caliptra_firmware_path
| soc_manifest_path | otp_path | log_dir_path | vendor_pk_hash
| owner_pk_hash | streaming_boot_path | primary_flash_image_path
| secondary_flash_image_path.

Inductive IntField :=
| gdb_port | i3c_port | trace_instr | stdin_uart | manufacturing_mode
| capture_uart_output | hw_revision_major | hw_revision_minor
| hw_revision_patch.

Inductive MemField :=
| rom_offset | rom_size | uart_offset | uart_size | ctrl_offset | ctrl_size
| sram_offset | sram_size | pic_offset | external_test_sram_offset
| external_test_sram_size | dccm_offset | dccm_size | i3c_offset | i3c_size
| primary_flash_offset | primary_flash_size | secondary_flash_offset
| secondary_flash_size | mci_offset | mci_size | dma_offset | dma_size
| mbox_offset | mbox_size | soc_offset | soc_size | otp_offset | otp_size
| lc_offset | lc_size.

Scheme Equality for StrField.
Scheme Equality for IntField.
Scheme Equality for MemField.

Record CEmulatorConfig := mk_config {
  cfg_str : StrField -> option string;
  cfg_int : IntField -> Z;
  cfg_mem : MemField -> Z
}.

Definition set_str (f : StrField) (v : option string) (c : CEmulatorConfig)
  : CEmulatorConfig :=
  mk_config (fun g => if StrField_beq g f then v else cfg_str c g)
            (cfg_int c) (cfg_mem c).

Definition set_int (f : IntField) (v : Z) (c : CEmulatorConfig)
  : CEmulatorConfig :=
  mk_config (cfg_str c)
            (fun g => if IntField_beq g f then v else cfg_int c g)
            (cfg_mem c).

Definition set_mem (f : MemField) (v : Z) (c : CEmulatorConfig)
  : CEmulatorConfig :=
  mk_config (cfg_str c) (cfg_int c)
            (fun g => if MemField_beq g f then v else cfg_mem c g).

(** The initializer of [config] in [main]. *)
Definition default_config : CEmulatorConfig :=
  mk_config (fun _ => None)
            (fun f => match f with
                      | stdin_uart => 1
                      | capture_uart_output => 1
                      | hw_revision_major => 2
                      | _ => 0
                      end)
            (fun _ => -1).

(** ** The engine and the events of a run *)

Inductive CStepAction := Continue | Break | ExitSuccess | ExitFailure.

(** [enum EmulatorError] is declared in emulator_cbinding.h; the driver
    tells [Success] from the rest and prints the rest with [%d]. *)
Inductive EmulatorError := Success | Failed (errcode : Z).

Definition is_success (r : EmulatorError) : bool :=
  match r with Success => true | Failed _ => false end.

(** A call into the engine, with the value it returned. *)
Inductive EngineCall :=
| emulator_get_size (size : Z)
| emulator_get_alignment (alignment : Z)
| emulator_init (config : CEmulatorConfig) (result : EmulatorError)
| emulator_start_i3c_controller (result : EmulatorError)
| emulator_is_gdb_mode (gdb : bool)
| emulator_get_gdb_port (port : Z)
| emulator_run_gdb_server (result : EmulatorError)
| emulator_uart_rx_ready (ready : bool)
| emulator_send_uart_char (ch : ascii)
| emulator_step (action : CStepAction)
| emulator_get_uart_output_streaming (capacity : Z) (output : string)
| emulator_destroy
| emulator_trigger_exit.

Inductive Stream := Stdout | Stderr.

(** The blocks the driver allocates and frees, by the variables that hold
    them: [memory] in [main], from [aligned_alloc], and [uart_buffer] in
    [free_run], from [malloc]. *)
Inductive Pointer := memory | uart_buffer.

Inductive Event :=
| Output (f : Stream) (text : string)
| Fflush (f : Stream)
| Tcgetattr (ok : bool)
| Tcsetattr (t : termios) (ok : bool)
| Read (r : option ascii)
| Malloc (size : Z) (ok : bool)
| AlignedAlloc (alignment size : Z) (ok : bool)
| Free (p : Pointer)
| Signal (sig : Z)
| Atexit
| Usleep (usec : Z)
| ProcessExit (status : Z)
| Engine (call : EngineCall).

(** ** Process state and the monad of the driver

    The globals of emulator.c, whether [cleanup_on_exit] has been
    registered with [atexit], and the terminal device.  (The global
    [global_emulator] only names the one engine allocation; the engine is
    identified by its calls.) *)
Record World := mk_world {
  original_termios : termios;
  terminal_raw_mode : bool;
  atexit_registered : bool;
  tty : Tty
}.

Definition initial_world (t : Tty) : World :=
  mk_world zero_termios false false t.

(** A computation reads and updates the process state and appends to the
    sequence of events. *)
Definition M (A : Type) : Type := World -> list Event * World * A.

Definition ret {A : Type} (a : A) : M A := fun w => ([], w, a).

Definition bind {A B : Type} (m : M A) (k : A -> M B) : M B :=
  fun w =>
    let '(e1, w1, a) := m w in
    let '(e2, w2, b) := k a w1 in
    ((e1 ++ e2)%list, w2, b).

Declare Scope driver_scope.
Delimit Scope driver_scope with driver.
Notation "x <- m ;; k" := (bind m (fun x => k))
  (at level 61, m at next level, right associativity) : driver_scope.
Notation "m ;; k" := (bind m (fun _ => k))
  (at level 61, right associativity) : driver_scope.
Local Open Scope driver_scope.

Definition emit (e : Event) : M unit := fun w => ([e], w, tt).
Definition emit_all (es : list Event) : M unit := fun w => (es, w, tt).
Definition get {A : Type} (f : World -> A) : M A := fun w => ([], w, f w).
Definition put (f : World -> World) : M unit := fun w => ([], f w, tt).

Definition events_of {A : Type} (r : list Event * World * A) : list Event :=
  fst (fst r).
Definition world_of {A : Type} (r : list Event * World * A) : World :=
  snd (fst r).
Definition value_of {A : Type} (r : list Event * World * A) : A := snd r.

Definition printf (text : string) : M unit := emit (Output Stdout text).
Definition fprintf (f : Stream) (text : string) : M unit :=
  emit (Output f text).

(** The conversion done by [%d], [%u] and [%zu]. *)
Definition dec (z : Z) : string := DecimalString.NilZero.string_of_int (Z.to_int z).

Definition set_original_termios (t : termios) (w : World) : World :=
  mk_world t (terminal_raw_mode w) (atexit_registered w) (tty w).
Definition set_terminal_raw_mode (b : bool) (w : World) : World :=
  mk_world (original_termios w) b (atexit_registered w) (tty w).
Definition set_atexit_registered (b : bool) (w : World) : World :=
  mk_world (original_termios w) (terminal_raw_mode w) b (tty w).
Definition set_tty_attrs (t : termios) (w : World) : World :=
  mk_world (original_termios w) (terminal_raw_mode w) (atexit_registered w)
           (mk_tty (tty_isatty (tty w)) t (tty_settable (tty w))).

(** [tcgetattr(STDIN_FILENO, &t)]: the current mode, or nothing for -1. *)
Definition tcgetattr : M (option termios) :=
  fun w =>
    if tty_isatty (tty w)
    then ([Tcgetattr true], w, Some (tty_attrs (tty w)))
    else ([Tcgetattr false], w, None).

(** [tcsetattr(STDIN_FILENO, TCSAFLUSH, &t) == 0]. *)
Definition tcsetattr (t : termios) : M bool :=
  fun w =>
    if tty_isatty (tty w) && tty_settable (tty w)
    then ([Tcsetattr t true], set_tty_attrs t w, true)
    else ([Tcsetattr t false], w, false).

(** ** TerminalController *)

Definition enable_raw_mode : M unit :=
  raw_now <- get terminal_raw_mode ;;
  if raw_now then ret tt
  else
    got <- tcgetattr ;;
    match got with
    | None => ret tt
    | Some t =>
        put (set_original_termios t) ;;
        saved <- get original_termios ;;
        ok <- tcsetattr (make_raw saved) ;;
        if ok then put (set_terminal_raw_mode true) else ret tt
    end.

Definition disable_raw_mode : M unit :=
  raw_now <- get terminal_raw_mode ;;
  if raw_now then
    saved <- get original_termios ;;
    ok <- tcsetattr saved ;;
    (if ok then put (set_terminal_raw_mode false) else ret tt) ;;
    put (set_terminal_raw_mode false)
  else ret tt.

(** The handler registered with [atexit]. *)
Definition cleanup_on_exit : M unit := disable_raw_mode.

(** How a call that may end the process comes back. *)
Inductive Status :=
| Exited (status : Z)
| Aborted
| Undefined
| Running.

(** [exit(status)]: the registered handler runs, then the process ends. *)
Definition c_exit (status : Z) : M Status :=
  registered <- get atexit_registered ;;
  (if registered then cleanup_on_exit else ret tt) ;;
  emit (ProcessExit status) ;;
  ret (Exited status).

(** ** SignalCoordinator *)

Definition SIGHUP : Z := 1.
Definition SIGINT : Z := 2.
Definition SIGQUIT : Z := 3.
Definition SIGTERM : Z := 15.

Definition sig_name (sig : Z) : string :=
  if sig =? SIGINT then "SIGINT"
  else if sig =? SIGTERM then "SIGTERM"
  else if sig =? SIGHUP then "SIGHUP"
  else if sig =? SIGQUIT then "SIGQUIT"
  else "UNKNOWN".

(** [None] when the handler returns to the interrupted code, the status
    of the process when it does not. *)
Definition signal_handler (sig : Z) : M (option Status) :=
  printf (nl ++ "Received " ++ sig_name sig ++ ", requesting exit..." ++ nl) ;;
  disable_raw_mode ;;
  if sig =? SIGINT then
    emit (Engine emulator_trigger_exit) ;;
    ret None
  else
    st <- c_exit 1 ;;
    ret (Some st).

(** ** print_usage *)

Definition usage_text (program_name : string) : list string :=
  [
    "Usage: " ++ program_name ++ " [OPTIONS]" ++ nl;
    nl ++ "Caliptra MCU Emulator" ++ nl ++ nl;
    "Required arguments:" ++ nl;
    "  -r, --rom <ROM>                      ROM binary path" ++ nl;
    "  -f, --firmware <FIRMWARE>           Firmware binary path" ++ nl;
    "      --caliptra-rom <CALIPTRA_ROM>   The ROM path for the Caliptra CPU" ++ nl;
    "      --caliptra-firmware <CALIPTRA_FIRMWARE>" ++ nl;
    "                                       The Firmware path for the Caliptra CPU" ++ nl;
    "      --soc-manifest <SOC_MANIFEST>   SoC manifest path" ++ nl;
    nl ++ "Optional arguments:" ++ nl;
    "  -o, --otp <OTP>                      Optional file to store OTP / fuses between runs" ++ nl;
    "  -g, --gdb-port <GDB_PORT>            GDB Debugger Port" ++ nl;
    "  -l, --log-dir <LOG_DIR>              Directory in which to log execution artifacts" ++ nl;
    "  -t, --trace-instr                    Trace instructions" ++ nl;
    "      --no-stdin-uart                  Don't pass stdin to the MCU UART Rx" ++ nl;
    "      --i3c-port <I3C_PORT>            I3C socket port" ++ nl;
    "      --manufacturing-mode             Enable manufacturing mode" ++ nl;
    "      --vendor-pk-hash <VENDOR_PK_HASH>" ++ nl;
    "                                       Vendor public key hash" ++ nl;
    "      --owner-pk-hash <OWNER_PK_HASH> Owner public key hash" ++ nl;
    "      --streaming-boot <STREAMING_BOOT>" ++ nl;
    "                                       Path to the streaming boot PLDM firmware package" ++ nl;
    "      --primary-flash-image <PRIMARY_FLASH_IMAGE>" ++ nl;
    "                                       Primary flash image path" ++ nl;
    "      --secondary-flash-image <SECONDARY_FLASH_IMAGE>" ++ nl;
    "                                       Secondary flash image path" ++ nl;
    "      --hw-revision <HW_REVISION>      HW revision in semver format (default: 2.0.0)" ++ nl;
    "  -h, --help                           Print help" ++ nl;
    "  -V, --version                        Print version" ++ nl;
    nl ++ "Memory layout overrides (use hex values like 0x40000000):" ++ nl;
    "      --rom-offset <ROM_OFFSET>        Override ROM offset" ++ nl;
    "      --rom-size <ROM_SIZE>            Override ROM size" ++ nl;
    "      --uart-offset <UART_OFFSET>      Override UART offset" ++ nl;
    "      --uart-size <UART_SIZE>          Override UART size" ++ nl;
    "      --sram-offset <SRAM_OFFSET>      Override SRAM offset" ++ nl;
    "      --sram-size <SRAM_SIZE>          Override SRAM size" ++ nl;
    "      --pic-offset <PIC_OFFSET>        Override PIC offset" ++ nl;
    "      --dccm-offset <DCCM_OFFSET>      Override DCCM offset" ++ nl;
    "      --dccm-size <DCCM_SIZE>          Override DCCM size" ++ nl;
    "      --i3c-offset <I3C_OFFSET>        Override I3C offset" ++ nl;
    "      --i3c-size <I3C_SIZE>            Override I3C size" ++ nl;
    "      --mci-offset <MCI_OFFSET>        Override MCI offset" ++ nl;
    "      --mci-size <MCI_SIZE>            Override MCI size" ++ nl;
    "      --primary-flash-offset <PRIMARY_FLASH_OFFSET>" ++ nl;
    "                                       Override primary flash offset" ++ nl;
    "      --primary-flash-size <PRIMARY_FLASH_SIZE>" ++ nl;
    "                                       Override primary flash size" ++ nl;
    "      --secondary-flash-offset <SECONDARY_FLASH_OFFSET>" ++ nl;
    "                                       Override secondary flash offset" ++ nl;
    "      --secondary-flash-size <SECONDARY_FLASH_SIZE>" ++ nl;
    "                                       Override secondary flash size" ++ nl;
    "      --soc-offset <SOC_OFFSET>        Override Caliptra SoC interface offset" ++ nl;
    "      --soc-size <SOC_SIZE>            Override Caliptra SoC interface size" ++ nl;
    "      --otp-offset <OTP_OFFSET>        Override OTP offset" ++ nl;
    "      --otp-size <OTP_SIZE>            Override OTP size" ++ nl;
    "      --lc-offset <LC_OFFSET>          Override LC offset" ++ nl;
    "      --lc-size <LC_SIZE>              Override LC size" ++ nl;
    "      --mbox-offset <MBOX_OFFSET>      Override Caliptra mailbox offset" ++ nl;
    "      --mbox-size <MBOX_SIZE>          Override Caliptra mailbox size" ++ nl
  ].

Definition print_usage (program_name : string) : M unit :=
  emit_all (map (Output Stdout) (usage_text program_name)).

(** ** RunLoopDriver *)

(** What the environment answers during one iteration of the loop of
    [free_run]: the byte delivered by [read] on stdin if any, whether the
    engine accepts a UART byte, the action of the step and the UART output
    drained after it (empty when [uart_len <= 0]). *)
Record IterInput := mk_iter {
  in_read : option ascii;
  in_rx_ready : bool;
  in_action : CStepAction;
  in_uart : string
}.

(** The console poll at the head of an iteration; [true] for [break]. *)
Definition poll_console (it : IterInput) (step_count : Z) : M bool :=
  if step_count mod 100 =? 0 then
    emit (Read (in_read it)) ;;
    match in_read it with
    | Some input_char =>
        if code input_char =? 3 then ret true
        else
          let input_char :=
            if code input_char =? 127 then ascii_of_nat 8 else input_char in
          emit (Engine (emulator_uart_rx_ready (in_rx_ready it))) ;;
          (if in_rx_ready it
           then emit (Engine (emulator_send_uart_char input_char))
           else ret tt) ;;
          ret false
    | None => ret false
    end
  else ret false.

(** How [free_run] ends: it returns, or the supplied iterations are used
    up with the loop still running, or [step_count++] overflows [int]. *)
Inductive RunExit := Finished | Unfinished | Overflowed.

Definition uart_buffer_size : Z := 1024.

(** One pass through the body of [while (1)]: the way the loop is left,
    or the value of [step_count] for the next pass. *)
Definition loop_body (it : IterInput) (step_count : Z) : M (RunExit + Z) :=
  stop <- poll_console it step_count ;;
  if stop then
    disable_raw_mode ;;
    emit (Free uart_buffer) ;;
    ret (inl Finished)
  else
    emit (Engine (emulator_step (in_action it))) ;;
    emit (Engine (emulator_get_uart_output_streaming
                    uart_buffer_size (in_uart it))) ;;
    (if (0 <? Z.of_nat (String.length (in_uart it)))
     then fprintf Stderr (printed (in_uart it)) ;; emit (Fflush Stderr)
     else ret tt) ;;
    match in_action it with
    | Continue =>
        if step_count =? INT_MAX then ret (inl Overflowed)
        else
          let step_count := step_count + 1 in
          (if step_count mod 1000 =? 0 then emit (Usleep 100)
           else ret tt) ;;
          ret (inr step_count)
    | Break =>
        printf (nl ++ "Emulator hit breakpoint after " ++ dec step_count
                   ++ " steps" ++ nl) ;;
        disable_raw_mode ;;
        emit (Free uart_buffer) ;;
        ret (inl Finished)
    | ExitSuccess =>
        printf (nl ++ "Emulator finished successfully after "
                   ++ dec step_count ++ " steps" ++ nl) ;;
        disable_raw_mode ;;
        emit (Free uart_buffer) ;;
        ret (inl Finished)
    | ExitFailure =>
        printf (nl ++ "Emulator exited with failure after "
                   ++ dec step_count ++ " steps" ++ nl) ;;
        disable_raw_mode ;;
        emit (Free uart_buffer) ;;
        ret (inl Finished)
    end.

Fixpoint free_run_loop (its : list IterInput) (step_count : Z) : M RunExit :=
  match its with
  | [] => ret Unfinished
  | it :: its' =>
      r <- loop_body it step_count ;;
      match r with
      | inl how => ret how
      | inr step_count' => free_run_loop its' step_count'
      end
  end.

(** What the environment answers to [main]: the engine's size and
    alignment, whether [aligned_alloc] succeeds and the text of
    [strerror(errno)] when it does not, the results of the engine's
    operations, whether the [malloc] of the UART buffer succeeds, the
    iterations of the run loop, and the UART output left at the end. *)
Record Env := mk_env {
  env_size : Z;
  env_alignment : Z;
  env_alloc_ok : bool;
  env_strerror : string;
  env_init : EmulatorError;
  env_i3c : EmulatorError;
  env_gdb_mode : bool;
  env_gdb_port : Z;
  env_gdb_result : EmulatorError;
  env_uart_malloc_ok : bool;
  env_iters : list IterInput;
  env_final_uart : string
}.

Definition free_run (env : Env) : M RunExit :=
  printf ("Running emulator in normal mode..." ++ nl) ;;
  printf ("Console input enabled - type characters to send to UART RX" ++ nl) ;;
  enable_raw_mode ;;
  emit (Malloc uart_buffer_size (env_uart_malloc_ok env)) ;;
  if negb (env_uart_malloc_ok env) then
    fprintf Stderr ("Failed to allocate UART buffer" ++ nl) ;;
    disable_raw_mode ;;
    ret Finished
  else
    printf ("Allocated UART buffer: " ++ dec uart_buffer_size ++ " bytes" ++ nl) ;;
    free_run_loop (env_iters env) 0.

(** ** ConfigBuilder: the option loop of main

    [getopt_long] belongs to the C library.  One element stands for one
    call that did not return -1: the value returned and [optarg] as the
    call left it.  The messages [getopt_long] prints itself are not
    events of the driver. *)
Record GetoptResult := mk_opt {
  opt_c : Z;
  opt_arg : option string
}.

(** The body of the [switch] either falls out to the next call of
    [getopt_long] or leaves [main]. *)
Inductive OptionStep :=
| Next (config : CEmulatorConfig)
| Stop (events : list Event) (st : Status).

(** Uses of [optarg] that read the string; a null pointer there has no
    defined behaviour. *)
Definition with_optarg (o : GetoptResult) (k : string -> OptionStep)
  : OptionStep :=
  match opt_arg o with
  | Some a => k a
  | None => Stop [] Undefined
  end.

(** The three arguments of [sscanf] point into [config]: as many fields
    as were converted are overwritten, in order. *)
Definition assign_revision (vals : list Z) (config : CEmulatorConfig)
  : CEmulatorConfig :=
  match vals with
  | [] => config
  | [a] => set_int hw_revision_major a config
  | [a; b] => set_int hw_revision_minor b (set_int hw_revision_major a config)
  | a :: b :: c :: _ =>
      set_int hw_revision_patch c
        (set_int hw_revision_minor b (set_int hw_revision_major a config))
  end.

Definition hw_revision_error : string :=
  "Invalid hw-revision format. Expected format: major.minor.patch" ++ nl.

Definition version_text : string :=
  "Caliptra MCU Emulator (C binding) 1.0.0" ++ nl.

Definition handle_option (program_name : string) (o : GetoptResult)
  (config : CEmulatorConfig) : OptionStep :=
  let override f :=
    with_optarg o (fun a => Next (set_mem f (parse_hex_or_decimal a) config)) in
  match opt_c o with
  | 114 (* 'r' *) => Next (set_str rom_path (opt_arg o) config)
  | 102 (* 'f' *) => Next (set_str firmware_path (opt_arg o) config)
  | 111 (* 'o' *) => Next (set_str otp_path (opt_arg o) config)
  | 103 (* 'g' *) =>
      with_optarg o (fun a => Next (set_int gdb_port (atoi a) config))
  | 108 (* 'l' *) => Next (set_str log_dir_path (opt_arg o) config)
  | 116 (* 't' *) => Next (set_int trace_instr 1 config)
  | 128 => Next (set_int stdin_uart 0 config)
  | 129 => Next (set_str caliptra_rom_path (opt_arg o) config)
  | 130 => Next (set_str caliptra_firmware_path (opt_arg o) config)
  | 131 => Next (set_str soc_manifest_path (opt_arg o) config)
  | 132 => with_optarg o (fun a => Next (set_int i3c_port (atoi a) config))
  | 133 => Next (set_int manufacturing_mode 1 config)
  | 134 => Next (set_str vendor_pk_hash (opt_arg o) config)
  | 135 => Next (set_str owner_pk_hash (opt_arg o) config)
  | 136 => Next (set_str streaming_boot_path (opt_arg o) config)
  | 137 => Next (set_str primary_flash_image_path (opt_arg o) config)
  | 138 => Next (set_str secondary_flash_image_path (opt_arg o) config)
  | 139 =>
      with_optarg o (fun a =>
        let '(n, vals) := sscanf_u_u_u a in
        if n =? 3 then Next (assign_revision vals config)
        else Stop [Output Stderr hw_revision_error] (Exited 1))
  | 140 => override rom_offset
  | 141 => override rom_size
  | 142 => override uart_offset
  | 143 => override uart_size
  | 144 => override sram_offset
  | 145 => override sram_size
  | 146 => override pic_offset
  | 147 => override dccm_offset
  | 148 => override dccm_size
  | 149 => override i3c_offset
  | 150 => override i3c_size
  | 151 => override mci_offset
  | 152 => override mci_size
  | 153 => override primary_flash_offset
  | 154 => override primary_flash_size
  | 155 => override secondary_flash_offset
  | 156 => override secondary_flash_size
  | 157 => override soc_offset
  | 158 => override soc_size
  | 159 => override otp_offset
  | 160 => override otp_size
  | 161 => override lc_offset
  | 162 => override lc_size
  | 163 => override mbox_offset
  | 164 => override mbox_size
  | 104 (* 'h' *) =>
      Stop (map (Output Stdout) (usage_text program_name)) (Exited 0)
  | 86 (* 'V' *) => Stop [Output Stdout version_text] (Exited 0)
  | 63 (* '?' *) => Stop [] (Exited 1)
  | _ => Stop [] Aborted
  end.

(** The [while] loop around [getopt_long]. *)
Fixpoint parse_options (program_name : string) (opts : list GetoptResult)
  (config : CEmulatorConfig) : OptionStep :=
  match opts with
  | [] => Next config
  | o :: opts' =>
      match handle_option program_name o config with
      | Next config' => parse_options program_name opts' config'
      | Stop evs st => Stop evs st
      end
  end.

(** ** main: validation, lifecycle and mode dispatch *)

Definition is_null (p : option string) : bool :=
  match p with None => true | Some _ => false end.

(** The message of the validation pass for a required path. *)
Definition required_error (f : StrField) : string :=
  match f with
  | rom_path => "Error: ROM path is required (--rom)" ++ nl
  | firmware_path => "Error: Firmware path is required (--firmware)" ++ nl
  | caliptra_rom_path =>
      "Error: Caliptra ROM path is required (--caliptra-rom)" ++ nl
  | caliptra_firmware_path =>
      "Error: Caliptra firmware path is required (--caliptra-firmware)" ++ nl
  | soc_manifest_path =>
      "Error: SoC manifest path is required (--soc-manifest)" ++ nl
  | _ => ""
  end.

Definition missing (program_name : string) (f : StrField) : M Status :=
  fprintf Stderr (required_error f) ;;
  print_usage program_name ;;
  ret (Exited 1).

Definition final_output_size : Z := 4096.

(** [main] from the allocation of the engine on. *)
Definition run_engine (config : CEmulatorConfig) (env : Env) : M Status :=
  emit (Engine (emulator_get_size (env_size env))) ;;
  emit (Engine (emulator_get_alignment (env_alignment env))) ;;
  emit (AlignedAlloc (env_alignment env) (env_size env) (env_alloc_ok env)) ;;
  if negb (env_alloc_ok env) then
    fprintf Stderr ("Failed to allocate memory: " ++ env_strerror env ++ nl) ;;
    ret (Exited 1)
  else
    printf ("Allocated " ++ dec (env_size env)
              ++ " bytes for emulator (alignment: "
              ++ dec (env_alignment env) ++ ")" ++ nl) ;;
    emit (Engine (emulator_init config (env_init env))) ;;
    match env_init env with
    | Failed e =>
        fprintf Stderr ("Failed to initialize emulator: " ++ dec e ++ nl) ;;
        emit (Free memory) ;;
        ret (Exited 1)
    | Success =>
        i3c <-
          (if negb (cfg_int config i3c_port =? 0) then
             printf ("Starting I3C controller..." ++ nl) ;;
             emit (Engine (emulator_start_i3c_controller (env_i3c env))) ;;
             ret (env_i3c env)
           else ret Success) ;;
        match i3c with
        | Failed e =>
            fprintf Stderr
              ("Failed to start I3C controller: " ++ dec e ++ nl) ;;
            emit (Engine emulator_destroy) ;;
            emit (Free memory) ;;
            ret (Exited 1)
        | Success =>
            printf ("Emulator initialized successfully" ++ nl) ;;
            emit (Engine (emulator_is_gdb_mode (env_gdb_mode env))) ;;
            ran <-
              (if env_gdb_mode env then
                 let port := env_gdb_port env in
                 emit (Engine (emulator_get_gdb_port port)) ;;
                 printf ("GDB server available on port " ++ dec port ++ nl) ;;
                 printf ("Connect with: gdb -ex 'target remote :"
                           ++ dec port ++ "'" ++ nl) ;;
                 printf ("Starting GDB server (this will block until GDB disconnects)" ++ nl) ;;
                 emit (Engine (emulator_run_gdb_server (env_gdb_result env))) ;;
                 match env_gdb_result env with
                 | Success =>
                     printf ("GDB session completed successfully" ++ nl)
                 | Failed e =>
                     printf ("GDB session failed with error " ++ dec e ++ nl)
                 end ;;
                 ret Finished
               else free_run env) ;;
            match ran with
            | Unfinished => ret Running
            | Overflowed => ret Undefined
            | Finished =>
                emit (Engine (emulator_get_uart_output_streaming
                                (final_output_size - 1)
                                (env_final_uart env))) ;;
                (if 0 <? Z.of_nat (String.length (env_final_uart env))
                 then fprintf Stderr ("Final UART output:" ++ nl
                                        ++ printed (env_final_uart env))
                 else ret tt) ;;
                disable_raw_mode ;;
                emit (Engine emulator_destroy) ;;
                emit (Free memory) ;;
                printf ("Emulator cleaned up" ++ nl) ;;
                ret (Exited 0)
            end
        end
    end.

Definition main (program_name : string) (opts : list GetoptResult)
  (env : Env) : M Status :=
  match parse_options program_name opts default_config with
  | Stop evs st => emit_all evs ;; ret st
  | Next config =>
      if is_null (cfg_str config rom_path) then
        missing program_name rom_path
      else if is_null (cfg_str config firmware_path) then
        missing program_name firmware_path
      else if is_null (cfg_str config caliptra_rom_path) then
        missing program_name caliptra_rom_path
      else if is_null (cfg_str config caliptra_firmware_path) then
        missing program_name caliptra_firmware_path
      else if is_null (cfg_str config soc_manifest_path) then
        missing program_name soc_manifest_path
      else
        emit (Signal SIGINT) ;;
        emit (Signal SIGTERM) ;;
        emit (Signal SIGHUP) ;;
        emit (Signal SIGQUIT) ;;
        emit Atexit ;;
        put (set_atexit_registered true) ;;
        run_engine config env
  end.

(** The process: [main], and what returning from [main] does. *)
Definition process (program_name : string) (opts : list GetoptResult)
  (env : Env) : M Status :=
  st <- main program_name opts env ;;
  match st with
  | Exited status => c_exit status
  | _ => ret st
  end.

(** ** Vocabulary of the statements *)

(** The world a computation leaves. *)
Definition exec {A : Type} (m : M A) (w : World) : World := world_of (m w).

(** [m] called [n] times in succession. *)
Fixpoint repeat_m (n : nat) (m : M unit) : M unit :=
  match n with
  | O => ret tt
  | S n' => m ;; repeat_m n' m
  end.

(** Whether the device accepts [tcsetattr] in this world. *)
Definition restorable (w : World) : bool :=
  tty_isatty (tty w) && tty_settable (tty w).

(** The world left by [disable_raw_mode] when raw mode is active. *)
Definition restored (w : World) : World :=
  set_terminal_raw_mode false
    (if restorable w then set_tty_attrs (original_termios w) w else w).

(** A terminal in the usual cooked mode of a Linux console, and the world
    of a process that has switched it to raw mode. *)
Definition sample_termios : termios :=
  mk_termios 1280 5 191 35387
    [3; 28; 127; 21; 4; 0; 1; 0; 17; 19; 26; 0; 18; 15; 23; 22;
     0; 0; 0; 0; 0; 0; 0; 0; 0; 0; 0; 0; 0; 0; 0; 0].
Definition sample_tty : Tty := mk_tty true sample_termios true.
Definition sample_raw_world : World :=
  exec enable_raw_mode (initial_world sample_tty).

(** The message of [signal_handler]. *)
Definition received (sig : Z) : string :=
  nl ++ "Received " ++ sig_name sig ++ ", requesting exit..." ++ nl.

(** The queries the run loop makes about console input: the [read] on
    stdin and the engine's receive-ready query. *)
Definition is_console_query (e : Event) : bool :=
  match e with
  | Read _ => true
  | Engine (emulator_uart_rx_ready _) => true
  | _ => false
  end.

(** A run without its console queries. *)
Definition beyond_console (evs : list Event) : list Event :=
  filter (fun e => negb (is_console_query e)) evs.

(** The bytes handed to the engine's UART receiver, in order. *)
Definition forwarded (evs : list Event) : list ascii :=
  flat_map (fun e => match e with
                     | Engine (emulator_send_uart_char ch) => [ch]
                     | _ => []
                     end) evs.

(** The same answers of the environment, but with nothing to read. *)
Definition without_read (it : IterInput) : IterInput :=
  mk_iter None (in_rx_ready it) (in_action it) (in_uart it).

(** *** Numerals and what they denote *)

(** Every character of [s] is a digit of [base]. *)
Fixpoint all_digits (base : Z) (s : string) : bool :=
  match s with
  | EmptyString => true
  | String c s' => is_digit_in base c && all_digits base s'
  end.

(** A numeral of [base]: one digit or more and nothing else. *)
Definition numeral (base : Z) (s : string) : bool :=
  match s with
  | EmptyString => false
  | String _ _ => all_digits base s
  end.

Definition digit_value (c : ascii) : Z :=
  match digit_of c with
  | Some d => d
  | None => 0
  end.

(** The number a numeral denotes in [base]: every digit counts for its
    value times the power of the base given by its position. *)
Fixpoint positional (base : Z) (s : string) : Z :=
  match s with
  | EmptyString => 0
  | String c s' =>
      digit_value c * base ^ Z.of_nat (String.length s') + positional base s'
  end.

(** Whether a string goes on with a digit of [base]. *)
Definition next_is_digit (base : Z) (s : string) : bool :=
  match s with
  | EmptyString => false
  | String c _ => is_digit_in base c
  end.

(** Whether a string starts with 0x or 0X. *)
Definition prefixed (s : string) : bool :=
  strncmp2_eq s "0" "x" || strncmp2_eq s "0" "X".

(** A number as [strtoul] returns it through [unsigned int]: capped at
    [ULONG_MAX], then reduced modulo 2^32. *)
Definition as_uint (v : Z) : Z := to_uint (Z.min v ULONG_MAX).

(** C2 read literally at a string [s]: after 0x or 0X the value is what
    the hexadecimal numeral that follows denotes, and an unprefixed
    decimal numeral yields what it denotes. *)
Definition parses_as_written (s : string) : Prop :=
  (forall x r, x = "x"%char \/ x = "X"%char ->
     s = String "0" (String x r) -> numeral 16 r = true ->
     parse_hex_or_decimal s = positional 16 r)
  /\ (prefixed s = false -> numeral 10 s = true ->
      parse_hex_or_decimal s = positional 10 s).

(** The value [getopt_long] returns for each memory layout override. *)
Definition override_option (k : Z) : option MemField :=
  match k with
  | 140 => Some rom_offset
  | 141 => Some rom_size
  | 142 => Some uart_offset
  | 143 => Some uart_size
  | 144 => Some sram_offset
  | 145 => Some sram_size
  | 146 => Some pic_offset
  | 147 => Some dccm_offset
  | 148 => Some dccm_size
  | 149 => Some i3c_offset
  | 150 => Some i3c_size
  | 151 => Some mci_offset
  | 152 => Some mci_size
  | 153 => Some primary_flash_offset
  | 154 => Some primary_flash_size
  | 155 => Some secondary_flash_offset
  | 156 => Some secondary_flash_size
  | 157 => Some soc_offset
  | 158 => Some soc_size
  | 159 => Some otp_offset
  | 160 => Some otp_size
  | 161 => Some lc_offset
  | 162 => Some lc_size
  | 163 => Some mbox_offset
  | 164 => Some mbox_size
  | _ => None
  end.

(** A character of the number that is not a digit of the chosen base:
    base 16 after 0x or 0X, base 10 otherwise. *)
Definition has_invalid_digit (s : string) : bool :=
  match s with
  | String a (String b r) =>
      if prefixed s then negb (all_digits 16 r) else negb (all_digits 10 s)
  | _ => negb (all_digits 10 s)
  end.

(** An option is answered with an error: [main] is left with a message
    on stderr. *)
Definition reports_error (step : OptionStep) : Prop :=
  exists evs st text, step = Stop evs st /\ In (Output Stderr text) evs.

(** C4 read literally at an option: a number with an invalid digit is
    answered with an error. *)
Definition invalid_digit_is_reported (program_name : string) (k : Z)
  (s : string) (config : CEmulatorConfig) : Prop :=
  has_invalid_digit s = true ->
  reports_error (handle_option program_name (mk_opt k (Some s)) config).

(** The fields of a string between its dots. *)
Fixpoint split_dots (s : string) : list string :=
  match s with
  | EmptyString => [EmptyString]
  | String c s' =>
      match split_dots s' with
      | [] => []
      | f :: fs =>
          if Ascii.eqb c "." then EmptyString :: f :: fs
          else String c f :: fs
      end
  end.

(** Exactly three decimal numerals separated by two dots. *)
Definition three_integers (s : string) : bool :=
  match split_dots s with
  | [a; b; c] => numeral 10 a && numeral 10 b && numeral 10 c
  | _ => false
  end.

(** The fields joined again. *)
Fixpoint join_dots (fields : list string) : string :=
  match fields with
  | [] => EmptyString
  | [a] => a
  | a :: rest => a ++ "." ++ join_dots rest
  end.

(** C3 read literally at a string: the hardware revision is accepted,
    [sscanf] returning 3, exactly when it is three integers. *)
Definition accepts_exactly_three_integers (s : string) : Prop :=
  fst (sscanf_u_u_u s) = 3 <-> three_integers s = true.

(** White space only. *)
Fixpoint all_space (s : string) : bool :=
  match s with
  | EmptyString => true
  | String c s' => isspace c && all_space s'
  end.

(** Nothing, or one sign. *)
Definition optional_sign (s : string) : bool :=
  String.eqb s "" || String.eqb s "+" || String.eqb s "-".

(** An integer as a [%u] directive takes it: white space, an optional
    sign, a decimal numeral. *)
Definition scanned_integer (s : string) : Prop :=
  exists blank sign digits,
    s = blank ++ sign ++ digits
    /\ all_space blank = true /\ optional_sign sign = true
    /\ numeral 10 digits = true.

(** The strings the format ["%u.%u.%u"] converts in full: three such
    integers, the first and the second each followed at once by a dot,
    and anything after the third. *)
Definition revision_shape (s : string) : Prop :=
  exists a b c rest,
    s = a ++ "." ++ b ++ "." ++ c ++ rest
    /\ scanned_integer a /\ scanned_integer b /\ scanned_integer c.

(** The five paths [main] requires, in the order it checks them, and the
    value [getopt_long] returns for the option that supplies each. *)
Definition required : list StrField :=
  [rom_path; firmware_path; caliptra_rom_path; caliptra_firmware_path;
   soc_manifest_path].

Definition option_of (f : StrField) : Z :=
  match f with
  | rom_path => 114
  | firmware_path => 102
  | caliptra_rom_path => 129
  | caliptra_firmware_path => 130
  | soc_manifest_path => 131
  | otp_path => 111
  | log_dir_path => 108
  | vendor_pk_hash => 134
  | owner_pk_hash => 135
  | streaming_boot_path => 136
  | primary_flash_image_path => 137
  | secondary_flash_image_path => 138
  end.

(** A path was supplied when its option occurs with an argument. *)
Definition supplied (f : StrField) (opts : list GetoptResult) : bool :=
  existsb (fun o => (opt_c o =? option_of f) && negb (is_null (opt_arg o)))
          opts.

(** The first required path, in the order of the checks of [main], that
    is null in a configuration. *)
Definition first_missing (config : CEmulatorConfig) : option StrField :=
  find (fun g => is_null (cfg_str config g)) required.

(** The calls of [main] up to the allocation of the engine's memory. *)
Definition startup_events (env : Env) : list Event :=
  [Signal SIGINT; Signal SIGTERM; Signal SIGHUP; Signal SIGQUIT; Atexit;
   Engine (emulator_get_size (env_size env));
   Engine (emulator_get_alignment (env_alignment env));
   AlignedAlloc (env_alignment env) (env_size env) (env_alloc_ok env)].

(** What [disable_raw_mode] does to the terminal in a world. *)
Definition restore_events (w : World) : list Event :=
  if terminal_raw_mode w
  then [Tcsetattr (original_termios w) (restorable w)] else [].

(** The final drain of UART output in [main]. *)
Definition final_drain (env : Env) : list Event :=
  Engine (emulator_get_uart_output_streaming (final_output_size - 1)
            (env_final_uart env))
  :: (if 0 <? Z.of_nat (String.length (env_final_uart env))
      then [Output Stderr ("Final UART output:" ++ nl
                             ++ printed (env_final_uart env))]
      else []).

(** The calls of a successful initialization, from the allocation to the
    mode query. *)
Definition init_events (config : CEmulatorConfig) (env : Env) : list Event :=
  [Output Stdout ("Allocated " ++ dec (env_size env)
                   ++ " bytes for emulator (alignment: "
                   ++ dec (env_alignment env) ++ ")" ++ nl);
   Engine (emulator_init config Success)]
  ++ (if negb (cfg_int config i3c_port =? 0)
      then [Output Stdout ("Starting I3C controller..." ++ nl);
            Engine (emulator_start_i3c_controller Success)]
      else [])
  ++ [Output Stdout ("Emulator initialized successfully" ++ nl);
      Engine (emulator_is_gdb_mode (env_gdb_mode env))].

(** The steps of the engine in a run. *)
Definition is_step (e : Event) : bool :=
  match e with
  | Engine (emulator_step _) => true
  | _ => false
  end.

(** The world after a [disable_raw_mode]. *)
Definition after_disable (w : World) : World :=
  if terminal_raw_mode w then restored w else w.

(** The terminal calls of a run that switches to raw mode and sets the
    terminal back, on a device. *)
Definition raw_session (t : Tty) : list Event :=
  if tty_isatty t then
    if tty_settable t then
      [Tcgetattr true; Tcsetattr (make_raw (tty_attrs t)) true;
       Tcsetattr (tty_attrs t) true]
    else [Tcgetattr true; Tcsetattr (make_raw (tty_attrs t)) false]
  else [Tcgetattr false].

(** Output of the process. *)
Definition is_output (e : Event) : bool :=
  match e with
  | Output _ _ => true
  | _ => false
  end.

(** The terminal is set before anything is printed: no output precedes
    a [tcsetattr]. *)
Definition restores_before_output (evs : list Event) : Prop :=
  forall pre t ok post,
    evs = (pre ++ Tcsetattr t ok :: post)%list ->
    forall e, In e pre -> is_output e = false.

(** A command line that supplies the five required paths, the
    configuration it yields, and an environment in which everything
    succeeds and the first step ends the run. *)
Definition sample_options : list GetoptResult :=
  [mk_opt 114 (Some "rom.bin"); mk_opt 102 (Some "runtime.bin");
   mk_opt 129 (Some "caliptra_rom.bin"); mk_opt 130 (Some "caliptra_fw.bin");
   mk_opt 131 (Some "soc_manifest.bin")].

Definition sample_config : CEmulatorConfig :=
  match parse_options "emulator" sample_options default_config with
  | Next config => config
  | Stop _ _ => default_config
  end.

Definition sample_env : Env :=
  mk_env 4096 16 true "Cannot allocate memory" Success Success
         false 0 Success true [mk_iter None false ExitSuccess ""] "".

(** The same, with no memory for the engine. *)
Definition env_no_memory : Env :=
  mk_env 4096 16 false "Cannot allocate memory" Success Success
         false 0 Success true [mk_iter None false ExitSuccess ""] "".

(** The same, with no memory for the UART buffer. *)
Definition env_no_uart_buffer : Env :=
  mk_env 4096 16 true "Cannot allocate memory" Success Success
         false 0 Success false [mk_iter None false ExitSuccess ""] "".

(** The same, in debug mode with a session that fails. *)
Definition env_gdb_failure : Env :=
  mk_env 4096 16 true "Cannot allocate memory" Success Success
         true 3333 (Failed 5) true [] "".

(** C1 read literally at a run: with a required path not supplied,
    [main] returns 1, having printed the message of a required path, and
    calls nothing of the engine. *)
Definition missing_path_is_fatal (program_name : string)
  (opts : list GetoptResult) (env : Env) (w : World) : Prop :=
  (exists f, In f required /\ supplied f opts = false) ->
  let r := main program_name opts env w in
  value_of r = Exited 1
  /\ (exists f, In f required
                /\ In (Output Stderr (required_error f)) (events_of r))
  /\ (forall call, ~ In (Engine call) (events_of r)).

(** C5 read literally at a run: when an allocation fails, the process
    exits with status 1. *)
Definition allocation_failure_is_fatal (program_name : string)
  (opts : list GetoptResult) (env : Env) (w : World) : Prop :=
  let r := process program_name opts env w in
  (exists size, In (Malloc size false) (events_of r))
  \/ (exists alignment size,
        In (AlignedAlloc alignment size false) (events_of r)) ->
  value_of r = Exited 1.

(** *** Bits of the terminal modes *)

(** The bits [enable_raw_mode] clears in [c_lflag] and in [c_iflag]. *)
Definition raw_lflag_mask : Z :=
  Z.lor (Z.lor (Z.lor (Z.lor (Z.lor (Z.lor ECHO ECHOE) ECHOK) ECHONL) ICANON)
           ISIG) IEXTEN.
Definition raw_iflag_mask : Z := Z.lor (Z.lor IXON ICRNL) INLCR.

(** The positions of those bits. *)
Definition raw_lflag_bits : list Z :=
  map Z.log2 [ISIG; ICANON; ECHO; ECHOE; ECHOK; ECHONL; IEXTEN].
Definition raw_iflag_bits : list Z := map Z.log2 [INLCR; ICRNL; IXON].

Definition bit_in (i : Z) (bits : list Z) : bool :=
  existsb (Z.eqb i) bits.

(** *** One pass of the run loop, event by event *)

(** Ctrl-C, and the two codes of a backspace. *)
Definition ETX : Z := 3.
Definition DEL : Z := 127.
Definition BS : Z := 8.

(** Whether a pass polls the console, and whether the poll ends the loop. *)
Definition polls (step_count : Z) : bool := step_count mod 100 =? 0.

Definition breaks (it : IterInput) (step_count : Z) : bool :=
  polls step_count
  && match in_read it with
     | Some ch => code ch =? ETX
     | None => false
     end.

(** The byte handed to the engine for a byte read. *)
Definition normalized (ch : ascii) : ascii :=
  if code ch =? DEL then ascii_of_nat 8 else ch.

(** The events of the poll of a pass. *)
Definition poll_events (it : IterInput) (step_count : Z) : list Event :=
  if polls step_count then
    Read (in_read it)
      :: match in_read it with
         | Some ch =>
             if code ch =? ETX then []
             else Engine (emulator_uart_rx_ready (in_rx_ready it))
                    :: (if in_rx_ready it
                        then [Engine (emulator_send_uart_char (normalized ch))]
                        else [])
         | None => []
         end
  else [].

(** The step of a pass with the drain that follows it. *)
Definition step_block (it : IterInput) : list Event :=
  [Engine (emulator_step (in_action it));
   Engine (emulator_get_uart_output_streaming uart_buffer_size (in_uart it))]
  ++ (if 0 <? Z.of_nat (String.length (in_uart it))
      then [Output Stderr (printed (in_uart it)); Fflush Stderr] else []).

(** The message printed when a step ends the run. *)
Definition stop_message (a : CStepAction) (step_count : Z) : string :=
  match a with
  | Continue => ""
  | Break =>
      nl ++ "Emulator hit breakpoint after " ++ dec step_count ++ " steps" ++ nl
  | ExitSuccess =>
      nl ++ "Emulator finished successfully after " ++ dec step_count
         ++ " steps" ++ nl
  | ExitFailure =>
      nl ++ "Emulator exited with failure after " ++ dec step_count
         ++ " steps" ++ nl
  end.

(** A pass after which the loop goes on: no Ctrl-C at the poll, and the
    step answers [Continue]. *)
Definition goes_on (it : IterInput) (step_count : Z) : bool :=
  negb (breaks it step_count)
  && match in_action it with Continue => true | _ => false end.

(** Kinds of events, for counting. *)
Definition is_read (e : Event) : bool :=
  match e with Read _ => true | _ => false end.
Definition is_usleep (e : Event) : bool :=
  match e with Usleep _ => true | _ => false end.
Definition is_free (e : Event) : bool :=
  match e with Free _ => true | _ => false end.
Definition is_step_or_drain (e : Event) : bool :=
  match e with
  | Engine (emulator_step _) => true
  | Engine (emulator_get_uart_output_streaming _ _) => true
  | Output Stderr _ => true
  | Fflush _ => true
  | _ => false
  end.

Definition count (p : Event -> bool) (evs : list Event) : Z :=
  Z.of_nat (List.length (filter p evs)).

(** Passes after each of which the loop goes on, counted from
    [step_count], with [step_count] staying below [INT_MAX]. *)
Fixpoint all_go_on (its : list IterInput) (step_count : Z) : bool :=
  match its with
  | [] => true
  | it :: its' =>
      goes_on it step_count && negb (step_count =? INT_MAX)
      && all_go_on its' (step_count + 1)
  end.

(** The yield after the step that makes [step_count] a multiple of 1000. *)
Definition yield_events (step_count : Z) : list Event :=
  if step_count mod 1000 =? 0 then [Usleep 100] else [].

(** The passes in which the engine is stepped: every pass up to the
    first whose poll reads Ctrl-C, which is not stepped, or whose step
    ends the loop, which is. *)
Fixpoint stepped (its : list IterInput) (step_count : Z) : nat :=
  match its with
  | [] => O
  | it :: its' =>
      if breaks it step_count then O
      else
        match in_action it with
        | Continue =>
            if step_count =? INT_MAX then 1%nat
            else S (stepped its' (step_count + 1))
        | _ => 1%nat
        end
  end.

(** In a sequence of events every step of the engine is followed at
    once by a drain into the UART buffer. *)
Fixpoint each_step_drained (evs : list Event) : bool :=
  match evs with
  | [] => true
  | Engine (emulator_step _) :: rest =>
      match rest with
      | Engine (emulator_get_uart_output_streaming capacity _) :: _ =>
          (capacity =? uart_buffer_size) && each_step_drained rest
      | _ => false
      end
  | _ :: rest => each_step_drained rest
  end.

(** *** The configuration an option list yields *)

(** The [optarg] of the last option with the value [k], if there is
    one. *)
Fixpoint last_given (k : Z) (opts : list GetoptResult)
  : option (option string) :=
  match opts with
  | [] => None
  | o :: opts' =>
      match last_given k opts' with
      | Some arg => Some arg
      | None => if opt_c o =? k then Some (opt_arg o) else None
      end
  end.

(** Whether an option overrides a memory field. *)
Definition overrides (f : MemField) (o : GetoptResult) : bool :=
  match override_option (opt_c o) with
  | Some g => MemField_beq g f
  | None => false
  end.

(** The [optarg] of the last option that overrides a memory field. *)
Fixpoint last_override (f : MemField) (opts : list GetoptResult)
  : option (option string) :=
  match opts with
  | [] => None
  | o :: opts' =>
      match last_override f opts' with
      | Some arg => Some arg
      | None => if overrides f o then Some (opt_arg o) else None
      end
  end.

(** The memory fields for which [main] has no option. *)
Definition fields_without_option : list MemField :=
  [ctrl_offset; ctrl_size; external_test_sram_offset;
   external_test_sram_size; dma_offset; dma_size].

(** The values of [getopt_long] for which the [switch] of [main] has a
    case. *)
Definition known_options : list Z :=
  [114; 102; 111; 103; 108; 116; 104; 86; 63]
  ++ map Z.of_nat (seq 128 37).

Definition known_option (k : Z) : bool := existsb (Z.eqb k) known_options.

(** The options that set an integer field other than the revision. *)
Definition flag_option (f : IntField) : option Z :=
  match f with
  | gdb_port => Some 103
  | i3c_port => Some 132
  | trace_instr => Some 116
  | stdin_uart => Some 128
  | manufacturing_mode => Some 133
  | _ => None
  end.

Definition occurs (k : Z) (opts : list GetoptResult) : bool :=
  existsb (fun o => opt_c o =? k) opts.

(** *** The life of the engine and of the memory in a run *)

Inductive Life := Unborn | Alive | Gone.

(** What a call into the engine does to its life, when the call is
    allowed: size and alignment are asked before there is an engine,
    [emulator_init] makes one or fails, everything else needs a live
    engine, and [emulator_destroy] ends it. *)
Definition life_after (l : Life) (c : EngineCall) : option Life :=
  match c, l with
  | emulator_get_size _, Unborn => Some Unborn
  | emulator_get_alignment _, Unborn => Some Unborn
  | emulator_init _ Success, Unborn => Some Alive
  | emulator_init _ (Failed _), Unborn => Some Gone
  | emulator_destroy, Alive => Some Gone
  | emulator_start_i3c_controller Success, Alive => Some Alive
  | emulator_start_i3c_controller (Failed _), Alive => Some Alive
  | emulator_is_gdb_mode _, Alive => Some Alive
  | emulator_get_gdb_port _, Alive => Some Alive
  | emulator_run_gdb_server _, Alive => Some Alive
  | emulator_uart_rx_ready _, Alive => Some Alive
  | emulator_send_uart_char _, Alive => Some Alive
  | emulator_step _, Alive => Some Alive
  | emulator_get_uart_output_streaming _ _, Alive => Some Alive
  | _, _ => None
  end.

(** The life of the engine after a sequence of events, with whether its
    memory has been allocated, or nothing when one of the calls was not
    allowed.  [emulator_init] needs the memory of a successful
    [aligned_alloc]. *)
Fixpoint lifecycle (st : Life * bool) (evs : list Event)
  : option (Life * bool) :=
  match evs with
  | [] => Some st
  | AlignedAlloc _ _ ok :: evs' => lifecycle (fst st, snd st || ok) evs'
  | Engine c :: evs' =>
      match c, snd st with
      | emulator_init _ _, false => None
      | _, _ =>
          match life_after (fst st) c with
          | Some l' => lifecycle (l', snd st) evs'
          | None => None
          end
      end
  | _ :: evs' => lifecycle st evs'
  end.

(** Allocations that succeeded. *)
Definition is_allocation (e : Event) : bool :=
  match e with
  | Malloc _ true => true
  | AlignedAlloc _ _ true => true
  | _ => false
  end.

(** The blocks of a run, by the pointer that holds them. *)
Inductive BlockState := Unallocated | Live | Freed.

(** The blocks behind [memory] and behind [uart_buffer]. *)
Definition Heap : Type := (BlockState * BlockState)%type.

Definition block (h : Heap) (p : Pointer) : BlockState :=
  match p with
  | memory => fst h
  | uart_buffer => snd h
  end.

Definition set_block (p : Pointer) (s : BlockState) (h : Heap) : Heap :=
  match p with
  | memory => (s, snd h)
  | uart_buffer => (fst h, s)
  end.

(** The pointer that receives the block of an allocation that succeeds:
    [main] assigns [aligned_alloc] to [memory], [free_run] assigns
    [malloc] to [uart_buffer]. *)
Definition allocates (e : Event) : option Pointer :=
  match e with
  | AlignedAlloc _ _ true => Some memory
  | Malloc _ true => Some uart_buffer
  | _ => None
  end.

(** What an event does to the blocks, when it is allowed: a pointer
    receives a block only when it has held none, and is freed only while
    its block is live. *)
Definition heap_after (h : Heap) (e : Event) : option Heap :=
  match e with
  | Free p =>
      match block h p with
      | Live => Some (set_block p Freed h)
      | _ => None
      end
  | _ =>
      match allocates e with
      | Some p =>
          match block h p with
          | Unallocated => Some (set_block p Live h)
          | _ => None
          end
      | None => Some h
      end
  end.

(** The blocks after a sequence of events, or nothing when one of the
    events was not allowed. *)
Fixpoint heap_run (h : Heap) (evs : list Event) : option Heap :=
  match evs with
  | [] => Some h
  | e :: evs' =>
      match heap_after h e with
      | Some h' => heap_run h' evs'
      | None => None
      end
  end.

(** Events that neither allocate nor free. *)
Definition heap_neutral (e : Event) : bool :=
  match e with
  | Free _ => false
  | _ => match allocates e with Some _ => false | None => true end
  end.

Definition is_terminal_call (e : Event) : bool :=
  match e with
  | Tcgetattr _ => true
  | Tcsetattr _ _ => true
  | _ => false
  end.

Definition is_gdb_call (e : Event) : bool :=
  match e with
  | Engine (emulator_get_gdb_port _) => true
  | Engine (emulator_run_gdb_server _) => true
  | _ => false
  end.

Definition is_i3c_start (e : Event) : bool :=
  match e with
  | Engine (emulator_start_i3c_controller _) => true
  | _ => false
  end.

Definition is_destroy (e : Event) : bool :=
  match e with
  | Engine emulator_destroy => true
  | _ => false
  end.

(** *** The parts of a run of main *)

(** The calls from the engine's size to the allocation of its memory. *)
Definition allocation_events (env : Env) : list Event :=
  [Engine (emulator_get_size (env_size env));
   Engine (emulator_get_alignment (env_alignment env));
   AlignedAlloc (env_alignment env) (env_size env) (env_alloc_ok env)].

Definition allocated_message (env : Env) : string :=
  "Allocated " ++ dec (env_size env) ++ " bytes for emulator (alignment: "
    ++ dec (env_alignment env) ++ ")" ++ nl.

(** The debug session. *)
Definition gdb_events (env : Env) : list Event :=
  [Engine (emulator_get_gdb_port (env_gdb_port env));
   Output Stdout ("GDB server available on port "
                    ++ dec (env_gdb_port env) ++ nl);
   Output Stdout ("Connect with: gdb -ex 'target remote :"
                    ++ dec (env_gdb_port env) ++ "'" ++ nl);
   Output Stdout ("Starting GDB server (this will block until GDB disconnects)" ++ nl);
   Engine (emulator_run_gdb_server (env_gdb_result env));
   Output Stdout
     (match env_gdb_result env with
      | Success => "GDB session completed successfully" ++ nl
      | Failed e => "GDB session failed with error " ++ dec e ++ nl
      end)].

(** The mode [main] runs in: the debug session or the run loop. *)
Definition mode_run (env : Env) (w : World) : list Event * World * RunExit :=
  if env_gdb_mode env then (gdb_events env, w, Finished) else free_run env w.

(** The teardown at the end of [main]. *)
Definition teardown_events : list Event :=
  [Engine emulator_destroy; Free memory; Output Stdout ("Emulator cleaned up" ++ nl)].

(** Whether the I3C controller is started, and what the start returns. *)
Definition i3c_requested (config : CEmulatorConfig) : bool :=
  negb (cfg_int config i3c_port =? 0).

Definition i3c_outcome (config : CEmulatorConfig) (env : Env) : EmulatorError :=
  if i3c_requested config then env_i3c env else Success.

(** The handlers [main] installs before it turns to the engine. *)
Definition handler_events : list Event :=
  [Signal SIGINT; Signal SIGTERM; Signal SIGHUP; Signal SIGQUIT; Atexit].

(** The events of the run loop: the terminal, the console, the UART
    buffer, output, and of the engine only the UART and the step. *)
Definition is_run_event (e : Event) : bool :=
  match e with
  | Output _ _ | Fflush _ | Tcgetattr _ | Tcsetattr _ _ | Read _
  | Malloc _ _ | Free _ | Usleep _ => true
  | Engine (emulator_uart_rx_ready _) | Engine (emulator_send_uart_char _)
  | Engine (emulator_step _)
  | Engine (emulator_get_uart_output_streaming _ _) => true
  | _ => false
  end.

Definition is_init_success (e : Event) : bool :=
  match e with
  | Engine (emulator_init _ Success) => true
  | _ => false
  end.

(** ** The option parser of the Windows build

    Windows has no [getopt]: under [_WIN32] the driver defines [getopt]
    and [getopt_long] itself, with the globals [optarg], [optind],
    [opterr] and [optopt].  [opterr] is 1 and is never assigned, so every
    message is printed.  An argument is a C string: its characters, then
    the terminator. *)

Definition NUL : ascii := Ascii.zero.

(** [s[k]]: a character of the string or its terminator; nothing may be
    read behind the terminator. *)
Definition char_at (s : string) (k : nat) : option ascii :=
  match String.get k s with
  | Some c => Some c
  | None => if Nat.eqb k (String.length s) then Some NUL else None
  end.

(** [s + k], for [k] up to the length of [s]. *)
Fixpoint string_from (k : nat) (s : string) : string :=
  match k, s with
  | O, _ => s
  | S k', String _ s' => string_from k' s'
  | S _, EmptyString => EmptyString
  end.

(** The first [k] characters of [s], as [%.*s] prints them. *)
Fixpoint string_take (k : nat) (s : string) : string :=
  match k, s with
  | O, _ => EmptyString
  | S k', String c s' => String c (string_take k' s')
  | S _, EmptyString => EmptyString
  end.

(** [strchr(s, c)] as an index into [s], or nothing for a null pointer.
    The terminator counts as a character of the string. *)
Fixpoint strchr (s : string) (c : ascii) : option nat :=
  match s with
  | EmptyString => if Ascii.eqb c NUL then Some O else None
  | String a s' =>
      if Ascii.eqb a c then Some O else option_map S (strchr s' c)
  end.

(** [strncmp(a, b, n) == 0]. *)
Fixpoint strncmp_eq (a b : string) (n : nat) : bool :=
  match n with
  | O => true
  | S n' =>
      match a, b with
      | EmptyString, EmptyString => true
      | String x a', String y b' => Ascii.eqb x y && strncmp_eq a' b' n'
      | _, _ => false
      end
  end.

Definition no_argument : Z := 0.
Definition required_argument : Z := 1.
Definition optional_argument : Z := 2.

(** [struct option]; [flag] is 0 in every entry of [main] and is never
    read. *)
Record long_option := mk_long {
  name : string;
  has_arg : Z;
  val : Z
}.

(** The globals of the parser, the static [sp] of [getopt_long], and the
    variable of the caller that [longindex] points to.  [optind] and [sp]
    count arguments and characters. *)
Record Getopt := mk_getopt {
  optarg : option string;
  optind : nat;
  optopt : ascii;
  sp : nat;
  option_index : Z
}.

Definition initial_getopt : Getopt := mk_getopt None 1 NUL 1 0.

Definition set_optarg (a : option string) (g : Getopt) : Getopt :=
  mk_getopt a (optind g) (optopt g) (sp g) (option_index g).
Definition set_optind (i : nat) (g : Getopt) : Getopt :=
  mk_getopt (optarg g) i (optopt g) (sp g) (option_index g).
Definition set_optopt (c : ascii) (g : Getopt) : Getopt :=
  mk_getopt (optarg g) (optind g) c (sp g) (option_index g).
Definition set_sp (k : nat) (g : Getopt) : Getopt :=
  mk_getopt (optarg g) (optind g) (optopt g) k (option_index g).
Definition set_option_index (i : Z) (g : Getopt) : Getopt :=
  mk_getopt (optarg g) (optind g) (optopt g) (sp g) i.

(** What a call returns: the messages on stderr, the globals, and the
    value; nothing when the call reads through a null pointer or behind
    the terminator of a string. *)
Definition GetoptCall : Type := option (list Event * Getopt * Z).

Definition QUESTION : Z := 63.

(** The part of [getopt] and of [getopt_long] for a short option, from
    [optopt = c = argv[optind][sp]] on, which is the same text in both.
    Every path reads [argv[optind][sp + 1]] next.  [argv[argc]] is a
    null pointer.  The value returned for an option is its character; an
    option string holds ASCII characters, whose value as an [int] is
    their code. *)
Definition short_option (argv : list string) (optstring : string)
  (g : Getopt) : GetoptCall :=
  match nth_error argv (optind g) with
  | None => None
  | Some arg =>
      match char_at arg (sp g), char_at arg (S (sp g)) with
      | Some c, Some next =>
          let g := set_optopt c g in
          match (if Ascii.eqb c ":" then None else strchr optstring c) with
          | None =>
              Some ([Output Stderr ("illegal option -- " ++ String c nl)],
                    (if Ascii.eqb next NUL
                     then set_sp 1 (set_optind (S (optind g)) g)
                     else set_sp (S (sp g)) g),
                    QUESTION)
          | Some cp =>
              match char_at optstring (S cp) with
              | None => None
              | Some colon =>
                  if Ascii.eqb colon ":" then
                    if negb (Ascii.eqb next NUL) then
                      Some ([],
                            set_sp 1
                              (set_optarg (Some (string_from (S (sp g)) arg))
                                 (set_optind (S (optind g)) g)),
                            code c)
                    else if (List.length argv <=? S (optind g))%nat then
                      Some ([Output Stderr
                               ("option requires an argument -- "
                                  ++ String c nl)],
                            set_sp 1 (set_optind (S (optind g)) g),
                            QUESTION)
                    else
                      match nth_error argv (S (optind g)) with
                      | None => None
                      | Some a =>
                          Some ([],
                                set_sp 1
                                  (set_optarg (Some a)
                                     (set_optind (S (S (optind g))) g)),
                                code c)
                      end
                  else
                    Some ([],
                          set_optarg None
                            (if Ascii.eqb next NUL
                             then set_optind (S (optind g)) (set_sp 1 g)
                             else set_sp (S (sp g)) g),
                          code c)
              end
          end
      | _, _ => None
      end
  end.

(** The test both parsers make first, at the start of an argument:
    [optind >= argc || argv[optind][0] != '-' || argv[optind][1] == '\0']. *)
Definition no_option (argv : list string) (g : Getopt) : bool :=
  match nth_error argv (optind g) with
  | None => true
  | Some arg =>
      match arg with
      | String "-" (String c _) => Ascii.eqb c NUL
      | _ => true
      end
  end.

(** [getopt], with its own static [sp]. *)
Definition getopt (argv : list string) (optstring : string) (g : Getopt)
  : GetoptCall :=
  if (sp g =? 1)%nat then
    if no_option argv g then Some ([], g, -1)
    else
      match nth_error argv (optind g) with
      | None => None
      | Some arg =>
          if String.eqb arg "--"
          then Some ([], set_optind (S (optind g)) g, -1)
          else short_option argv optstring g
      end
  else short_option argv optstring g.

(** The loop over [longopts]: the first entry whose name is the
    [name_len] characters of [long_name], with its index. *)
Fixpoint find_long (longopts : list long_option) (long_name : string)
  (name_len : nat) (i : Z) : option (Z * long_option) :=
  match longopts with
  | [] => None
  | o :: rest =>
      if strncmp_eq (name o) long_name name_len
         && (String.length (name o) =? name_len)%nat
      then Some (i, o)
      else find_long rest long_name name_len (i + 1)
  end.

(** The part of [getopt_long] for an argument that starts with two
    dashes. *)
Definition long_option_call (argv : list string)
  (longopts : list long_option) (arg : string) (g : Getopt) : GetoptCall :=
  let long_name := string_from 2 arg in
  let equals_pos := strchr long_name "=" in
  let name_len :=
    match equals_pos with
    | Some k => k
    | None => String.length long_name
    end in
  match find_long longopts long_name name_len 0 with
  | Some (i, o) =>
      let g := set_option_index i g in
      if has_arg o =? required_argument then
        match equals_pos with
        | Some k =>
            Some ([],
                  set_optind (S (optind g))
                    (set_optarg (Some (string_from (S k) long_name)) g),
                  val o)
        | None =>
            if (List.length argv <=? S (optind g))%nat then
              Some ([Output Stderr
                       ("option '--" ++ name o ++ "' requires an argument"
                          ++ nl)],
                    set_optind (S (optind g)) g, QUESTION)
            else
              match nth_error argv (S (optind g)) with
              | None => None
              | Some a =>
                  Some ([],
                        set_optind (S (S (optind g)))
                          (set_optarg (Some a) g),
                        val o)
              end
        end
      else
        match equals_pos with
        | Some _ =>
            Some ([Output Stderr
                     ("option '--" ++ name o ++ "' doesn't allow an argument"
                        ++ nl)],
                  g, QUESTION)
        | None =>
            Some ([], set_optind (S (optind g)) (set_optarg None g), val o)
        end
  | None =>
      Some ([Output Stderr
               ("unrecognized option '--" ++ string_take name_len long_name
                  ++ "'" ++ nl)],
            set_optind (S (optind g)) g, QUESTION)
  end.

(** [getopt_long], called with a [longindex] that is not null. *)
Definition getopt_long (argv : list string) (optstring : string)
  (longopts : list long_option) (g : Getopt) : GetoptCall :=
  let g := set_option_index (-1) g in
  if (sp g =? 1)%nat then
    if no_option argv g then Some ([], g, -1)
    else
      match nth_error argv (optind g) with
      | None => None
      | Some arg =>
          if String.eqb arg "--"
          then Some ([], set_optind (S (optind g)) g, -1)
          else
            match arg with
            | String "-" (String "-" _) =>
                long_option_call argv longopts arg g
            | _ => short_option argv optstring g
            end
      end
  else short_option argv optstring g.

(** The option string and the table of [main]. *)
Definition main_optstring : string := "r:f:o:g:l:thV".

Definition long_options : list long_option :=
  [mk_long "rom" required_argument 114;
   mk_long "firmware" required_argument 102;
   mk_long "otp" required_argument 111;
   mk_long "gdb-port" required_argument 103;
   mk_long "log-dir" required_argument 108;
   mk_long "trace-instr" no_argument 116;
   mk_long "no-stdin-uart" no_argument 128;
   mk_long "caliptra-rom" required_argument 129;
   mk_long "caliptra-firmware" required_argument 130;
   mk_long "soc-manifest" required_argument 131;
   mk_long "i3c-port" required_argument 132;
   mk_long "manufacturing-mode" no_argument 133;
   mk_long "vendor-pk-hash" required_argument 134;
   mk_long "owner-pk-hash" required_argument 135;
   mk_long "streaming-boot" required_argument 136;
   mk_long "primary-flash-image" required_argument 137;
   mk_long "secondary-flash-image" required_argument 138;
   mk_long "hw-revision" required_argument 139;
   mk_long "rom-offset" required_argument 140;
   mk_long "rom-size" required_argument 141;
   mk_long "uart-offset" required_argument 142;
   mk_long "uart-size" required_argument 143;
   mk_long "sram-offset" required_argument 144;
   mk_long "sram-size" required_argument 145;
   mk_long "pic-offset" required_argument 146;
   mk_long "dccm-offset" required_argument 147;
   mk_long "dccm-size" required_argument 148;
   mk_long "i3c-offset" required_argument 149;
   mk_long "i3c-size" required_argument 150;
   mk_long "mci-offset" required_argument 151;
   mk_long "mci-size" required_argument 152;
   mk_long "primary-flash-offset" required_argument 153;
   mk_long "primary-flash-size" required_argument 154;
   mk_long "secondary-flash-offset" required_argument 155;
   mk_long "secondary-flash-size" required_argument 156;
   mk_long "soc-offset" required_argument 157;
   mk_long "soc-size" required_argument 158;
   mk_long "otp-offset" required_argument 159;
   mk_long "otp-size" required_argument 160;
   mk_long "lc-offset" required_argument 161;
   mk_long "lc-size" required_argument 162;
   mk_long "mbox-offset" required_argument 163;
   mk_long "mbox-size" required_argument 164;
   mk_long "help" no_argument 104;
   mk_long "version" no_argument 86].

(** The calls of [getopt_long] that the [while] loop of [main] makes: one
    element for each call that did not return -1, up to the first for a
    rejected option, --help or --version, after which [main] returns.
    [calls] bounds the number of calls; the result is nothing when the
    bound is reached or a call has no defined behaviour. *)
Fixpoint option_loop (calls : nat) (argv : list string) (g : Getopt)
  : option (list GetoptResult) :=
  match calls with
  | O => None
  | S calls' =>
      match getopt_long argv main_optstring long_options g with
      | None => None
      | Some (_, g', c) =>
          if c =? -1 then Some []
          else if (c =? QUESTION) || (c =? 104) || (c =? 86)
          then Some [mk_opt c (optarg g')]
          else
            match option_loop calls' argv g' with
            | Some opts => Some (mk_opt c (optarg g') :: opts)
            | None => None
            end
      end
  end.

(** *** Vocabulary for the parser *)

(** The parser is at the start of an argument, or inside one at a
    character that is not the terminator. *)
Definition well_placed (argv : list string) (g : Getopt) : bool :=
  (sp g =? 1)%nat
  || match nth_error argv (optind g) with
     | Some arg =>
         match String.get (sp g) arg with
         | Some c => negb (Ascii.eqb c NUL)
         | None => false
         end
     | None => false
     end.

(** The characters that are still to read. *)
Fixpoint remaining (argv : list string) (i : nat) : nat :=
  match argv with
  | [] => O
  | a :: argv' =>
      match i with
      | O => (S (String.length a) + remaining argv' O)%nat
      | S i' => remaining argv' i'
      end
  end.

Definition to_read (argv : list string) (g : Getopt) : nat :=
  (remaining argv (optind g) - sp g)%nat.

(** The first entry of a table with a name. *)
Definition entry_named (n : string) (longopts : list long_option)
  : option long_option :=
  find (fun o => String.eqb (name o) n) longopts.

(** The parser is at the start of an argument and the arguments are used
    up or the next one is no option: the end of the options. *)
Definition at_end (argv : list string) (g : Getopt) : bool :=
  (sp g =? 1)%nat && no_option argv g.

(** The parser is at the start of an argument that gives, with an equals
    sign, an argument to a long option that has none. *)
Definition refused_flag_argument (argv : list string)
  (longopts : list long_option) (g : Getopt) : bool :=
  (sp g =? 1)%nat
  && match nth_error argv (optind g) with
     | Some (String "-" (String "-" long_name)) =>
         match strchr long_name "=" with
         | Some k =>
             match entry_named (string_take k long_name) longopts with
             | Some o => negb (has_arg o =? required_argument)
             | None => false
             end
         | None => false
         end
     | _ => false
     end.

(** How far a call has come: not at all at the end of the options and on
    a flag that is given an argument, and further in every other case. *)
Definition progress (argv : list string) (longopts : list long_option)
  (g g' : Getopt) (c : Z) : Prop :=
  if at_end argv g
  then c = -1 /\ optind g' = optind g /\ sp g' = sp g
  else if refused_flag_argument argv longopts g
  then c = QUESTION /\ optind g' = optind g /\ sp g' = sp g
  else (to_read argv g' < to_read argv g)%nat.

Fixpoint has_char (c : ascii) (s : string) : bool :=
  match s with
  | EmptyString => false
  | String a s' => Ascii.eqb a c || has_char c s'
  end.

(** The values of the options of [main] that have no argument. *)
Definition flag_values : list Z := [116; 128; 133; 104; 86].

(** What a caller sees of a call: the messages, the value, [optarg] and
    [optind]. *)
Definition outcome (r : GetoptCall)
  : option (list Event * Z * option string * nat) :=
  match r with
  | Some (evs, g, c) => Some (evs, c, optarg g, optind g)
  | None => None
  end.

(** What the [switch] of [main] can take: the value of a rejected option,
    or a value it has a case for, with an [optarg] that is null exactly
    for the options without an argument. *)
Definition handled (o : GetoptResult) : Prop :=
  opt_c o = QUESTION
  \/ (known_option (opt_c o) = true
      /\ if existsb (Z.eqb (opt_c o)) flag_values
         then opt_arg o = None
         else exists a, opt_arg o = Some a).

(** The option loop goes on or returns from [main]: it neither aborts nor
    reads a null [optarg]. *)
Definition defined_step (s : OptionStep) : bool :=
  match s with
  | Next _ => true
  | Stop _ (Exited _) => true
  | Stop _ _ => false
  end.

(** *** The option table, the option string, the switch and the usage *)

(** Whether [p] occurs in [s]. *)
Fixpoint mentions (p s : string) : bool :=
  String.prefix p s
  || match s with
     | String _ s' => mentions p s'
     | EmptyString => false
     end.

(** The short option of an entry of the table: its value, when that is a
    character. *)
Definition short_of (o : long_option) : option ascii :=
  if (0 <? val o) && (val o <? 128)
  then Some (ascii_of_N (Z.to_N (val o))) else None.

(** How the usage shows an entry: the short option if there is one, the
    long name, and the opening of the placeholder if there is an
    argument. *)
Definition usage_entry (o : long_option) : string :=
  match short_of o with
  | Some c => "  -" ++ String c ", "
  | None => "      "
  end
  ++ "--" ++ name o
  ++ (if has_arg o =? required_argument then " <" else "  ").

(** Whether the option string has the short option of an entry, followed
    by a colon exactly when the entry has an argument. *)
Definition in_optstring (o : long_option) : bool :=
  match short_of o with
  | Some c =>
      match strchr main_optstring c with
      | Some cp =>
          Bool.eqb
            (match char_at main_optstring (S cp) with
             | Some colon => Ascii.eqb colon ":"
             | None => false
             end)
            (has_arg o =? required_argument)
      | None => false
      end
  | None => true
  end.

(** The characters of a string. *)
Fixpoint chars (s : string) : list ascii :=
  match s with
  | EmptyString => []
  | String c s' => c :: chars s'
  end.

(** * Properties *)

(** ** TerminalController *)

Section TerminalController.

Ltac run_m :=
  unfold enable_raw_mode, disable_raw_mode, cleanup_on_exit, c_exit, printf,
    fprintf, tcsetattr, tcgetattr, bind, get, put, emit, emit_all, ret,
    exec, events_of, world_of, value_of, restorable in *.

Lemma disable_raw_mode_off (w : World) :
  terminal_raw_mode w = false -> disable_raw_mode w = ([], w, tt).
Proof.
  intros Hoff. run_m. now rewrite Hoff.
Qed.

Lemma disable_raw_mode_on (w : World) :
  terminal_raw_mode w = true ->
  disable_raw_mode w =
    ([Tcsetattr (original_termios w) (restorable w)], restored w, tt).
Proof.
  intros Hon. unfold restored. run_m. rewrite Hon.
  destruct (tty_isatty (tty w) && tty_settable (tty w)); reflexivity.
Qed.

Lemma repeat_disable_off (n : nat) (w : World) :
  terminal_raw_mode w = false ->
  repeat_m n disable_raw_mode w = ([], w, tt).
Proof.
  intros Hoff. induction n as [|n IH]; [reflexivity|].
  cbn [repeat_m]. unfold bind.
  now rewrite (disable_raw_mode_off w Hoff), IH.
Qed.

Lemma restored_off (w : World) : terminal_raw_mode (restored w) = false.
Proof. reflexivity. Qed.

Lemma repeat_disable_on (n : nat) (w : World) :
  terminal_raw_mode w = true ->
  repeat_m (S n) disable_raw_mode w =
    ([Tcsetattr (original_termios w) (restorable w)], restored w, tt).
Proof.
  intros Hon. cbn [repeat_m]. unfold bind.
  rewrite (disable_raw_mode_on w Hon).
  rewrite (repeat_disable_off n (restored w) (restored_off w)).
  reflexivity.
Qed.

Lemma enable_raw_mode_on (w : World) :
  terminal_raw_mode w = true -> enable_raw_mode w = ([], w, tt).
Proof.
  intros Hon. run_m. now rewrite Hon.
Qed.

(** C7.  Calling [enable_raw_mode] twice in succession, with nothing
    else touching the device in between, leaves the process state (the
    captured original mode and the raw-mode flag) and the device as one
    call does.  [disable_raw_mode] without raw mode active
    does nothing at all.  After an enable that switched the terminal to
    raw mode, any positive number of [disable_raw_mode] calls sets the
    captured mode back exactly once: one [tcsetattr], with the mode the
    device had before the enable, and the device is as it was. *)
Theorem raw_mode_idempotent (w : World) (n : nat) :
  exec enable_raw_mode (exec enable_raw_mode w) = exec enable_raw_mode w
  /\ (terminal_raw_mode w = false -> disable_raw_mode w = ([], w, tt))
  /\ (terminal_raw_mode w = false ->
      terminal_raw_mode (exec enable_raw_mode w) = true ->
      let w1 := exec enable_raw_mode w in
      let r := repeat_m (S n) disable_raw_mode w1 in
      original_termios w1 = tty_attrs (tty w)
      /\ events_of r = [Tcsetattr (tty_attrs (tty w)) true]
      /\ tty (world_of r) = tty w
      /\ original_termios (world_of r) = tty_attrs (tty w)
      /\ terminal_raw_mode (world_of r) = false).
Proof.
  split; [|split].
  - destruct (terminal_raw_mode w) eqn:Hraw.
    + unfold exec, world_of.
      rewrite (enable_raw_mode_on w Hraw). cbn [fst snd].
      now rewrite (enable_raw_mode_on w Hraw).
    + destruct w as [orig raw atx [tt_ attrs settable]].
      cbn in Hraw. subst raw. run_m. cbn.
      destruct tt_; cbn; [|reflexivity].
      destruct settable; cbn; reflexivity.
  - apply disable_raw_mode_off.
  - intros Hoff Hon w1 r. subst r.
    rewrite (repeat_disable_on n w1 Hon). subst w1.
    destruct w as [orig raw atx [tt_ attrs settable]].
    cbn in Hoff. subst raw. revert Hon. run_m. cbn.
    destruct tt_; cbn; [|discriminate].
    destruct settable; cbn; [|discriminate].
    intros _. repeat split; reflexivity.
Qed.

(** C10.  With raw mode active, [disable_raw_mode] clears the raw-mode
    flag whether or not [tcsetattr] succeeds.  It makes exactly one
    attempt, with the saved mode; a failed attempt leaves the device as
    it was, yet every later call does nothing. *)
Theorem disable_raw_mode_clears_flag (w : World) (n : nat)
  (Hon : terminal_raw_mode w = true) :
  let r := disable_raw_mode w in
  terminal_raw_mode (world_of r) = false
  /\ events_of r = [Tcsetattr (original_termios w) (restorable w)]
  /\ (restorable w = false -> tty (world_of r) = tty w)
  /\ (restorable w = true ->
      tty_attrs (tty (world_of r)) = original_termios w)
  /\ repeat_m n disable_raw_mode (world_of r) = ([], world_of r, tt).
Proof.
  intros r. subst r. rewrite (disable_raw_mode_on w Hon).
  unfold world_of, events_of. cbn [fst snd].
  repeat split.
  - unfold restored. intros ->. reflexivity.
  - unfold restored. intros ->. reflexivity.
  - apply repeat_disable_off, restored_off.
Qed.

(** C7 on a console in cooked mode, with three calls to restore it. *)
Lemma raw_mode_idempotent_witness :
  let w := initial_world sample_tty in
  terminal_raw_mode w = false
  /\ terminal_raw_mode (exec enable_raw_mode w) = true
  /\ events_of (repeat_m 3 disable_raw_mode (exec enable_raw_mode w)) =
       [Tcsetattr sample_termios true]
  /\ tty (world_of (repeat_m 3 disable_raw_mode (exec enable_raw_mode w))) =
       sample_tty.
Proof.
  intros w.
  destruct (raw_mode_idempotent w 2) as (_ & _ & H).
  specialize (H eq_refl eq_refl). cbv zeta in H.
  destruct H as (_ & Hev & Htty & _).
  split; [reflexivity|].
  split; [reflexivity|].
  split; [exact Hev | exact Htty].
Defined.

(** C10 on a terminal in raw mode that refuses to be set back. *)
Lemma disable_raw_mode_clears_flag_witness :
  let w := mk_world sample_termios true true
             (mk_tty true (make_raw sample_termios) false) in
  terminal_raw_mode w = true
  /\ restorable w = false
  /\ terminal_raw_mode (exec disable_raw_mode w) = false
  /\ tty_attrs (tty (exec disable_raw_mode w)) = make_raw sample_termios.
Proof.
  intros w.
  destruct (disable_raw_mode_clears_flag w 1 eq_refl)
    as (Hflag & _ & Hdev & _).
  split; [reflexivity|].
  split; [reflexivity|].
  split; [exact Hflag|].
  unfold exec. now rewrite (Hdev eq_refl).
Defined.

End TerminalController.

(** ** SignalCoordinator *)

Section SignalCoordinator.

(** C6, as the driver does it.  The handler first prints the message that
    names the signal, then calls [disable_raw_mode] (one [tcsetattr] with
    the saved mode when raw mode is active, leaving the raw-mode flag
    clear), and last, for SIGINT, calls [emulator_trigger_exit] and
    returns to the interrupted code, and for every other signal ends the
    process with status 1. *)
Theorem signal_handler_sequence (sig : Z) (w : World) :
  let r := signal_handler sig w in
  events_of r =
    (Output Stdout (received sig)
       :: (if terminal_raw_mode w
           then [Tcsetattr (original_termios w) (restorable w)] else [])
       ++ [if sig =? SIGINT then Engine emulator_trigger_exit
           else ProcessExit 1])%list
  /\ value_of r = (if sig =? SIGINT then None else Some (Exited 1))
  /\ world_of r = (if terminal_raw_mode w then restored w else w)
  /\ terminal_raw_mode (world_of r) = false.
Proof.
  cbv zeta. unfold signal_handler, received, printf, emit, bind.
  destruct (terminal_raw_mode w) eqn:Hraw.
  - rewrite (disable_raw_mode_on w Hraw).
    destruct (sig =? SIGINT).
    + repeat split.
    + unfold c_exit, cleanup_on_exit, bind, get, emit, ret.
      destruct (atexit_registered (restored w)) eqn:Hreg;
        [rewrite (disable_raw_mode_off (restored w) (restored_off w))|];
        repeat split.
  - rewrite (disable_raw_mode_off w Hraw).
    destruct (sig =? SIGINT).
    + repeat split; assumption.
    + unfold c_exit, cleanup_on_exit, bind, get, emit, ret.
      destruct (atexit_registered w) eqn:Hreg;
        [rewrite (disable_raw_mode_off w Hraw)|];
        repeat split; assumption.
Qed.

(** C6 as stated fails: on SIGINT in raw mode the message is printed
    before the terminal is restored. *)
Lemma signal_handler_prints_before_restoring :
  ~ restores_before_output (events_of (signal_handler SIGINT sample_raw_world)).
Proof.
  intros Hclaim.
  specialize (Hclaim [Output Stdout (received SIGINT)] sample_termios true
                [Engine emulator_trigger_exit] eq_refl
                (Output Stdout (received SIGINT)) (or_introl eq_refl)).
  discriminate Hclaim.
Qed.

End SignalCoordinator.

(** ** RunLoopDriver *)

Section RunLoopDriver.

Lemma poll_console_not_ready (it : IterInput) (c : ascii) (k : Z) (w : World) :
  in_read it = Some c -> code c <> 3 -> in_rx_ready it = false ->
  poll_console it k w =
    (if k mod 100 =? 0
     then [Read (Some c); Engine (emulator_uart_rx_ready false)] else [],
     w, false).
Proof.
  intros Hread Hc Hready. unfold poll_console.
  destruct (k mod 100 =? 0); [|reflexivity].
  rewrite Hread, Hready.
  destruct (code c =? 3) eqn:E; [apply Z.eqb_eq in E; contradiction|].
  reflexivity.
Qed.

Lemma poll_console_without_read (it : IterInput) (k : Z) (w : World) :
  poll_console (without_read it) k w =
    (if k mod 100 =? 0 then [Read None] else [], w, false).
Proof.
  unfold poll_console. destruct (k mod 100 =? 0); reflexivity.
Qed.

(** The body of the loop after a poll that did not break depends on the
    iteration only through the step and the drained output. *)
Lemma loop_body_not_ready (it : IterInput) (c : ascii) (k : Z) (w : World) :
  in_read it = Some c -> code c <> 3 -> in_rx_ready it = false ->
  exists rest w' v,
    loop_body it k w =
      ((if k mod 100 =? 0
        then [Read (Some c); Engine (emulator_uart_rx_ready false)]
        else []) ++ rest, w', v)%list
    /\ loop_body (without_read it) k w =
         ((if k mod 100 =? 0 then [Read None] else []) ++ rest, w', v)%list.
Proof.
  intros Hread Hc Hready. unfold loop_body.
  match goal with
  | |- context [bind (poll_console it k) ?K] => set (body := K)
  end.
  match goal with
  | |- context [bind (poll_console (without_read it) k) ?K] =>
      change K with body
  end.
  unfold bind.
  rewrite (poll_console_not_ready it c k w Hread Hc Hready).
  rewrite (poll_console_without_read it k w).
  destruct (body false w) as [[rest w'] v].
  exists rest, w', v. split; reflexivity.
Qed.

Lemma beyond_console_app (xs ys : list Event) :
  beyond_console (xs ++ ys) = (beyond_console xs ++ beyond_console ys)%list.
Proof. apply filter_app. Qed.

Lemma forwarded_app (xs ys : list Event) :
  forwarded (xs ++ ys) = (forwarded xs ++ forwarded ys)%list.
Proof. apply flat_map_app. Qed.

(** C8.  When an iteration of the run loop reads a console character
    other than Ctrl-C and the engine answers that it is not ready, the
    poll consists of the read and the query alone: nothing is forwarded
    and no state is changed, so the character is kept nowhere.  The whole
    run, whatever comes before and after that iteration, is then, apart
    from its console queries, the run in which that read delivered
    nothing: the same bytes are forwarded, in this and all later
    iterations, and it ends in the same way and in the same state. *)
Theorem unready_character_is_dropped
  (pre post : list IterInput) (it : IterInput) (c : ascii) (n : Z) (w : World)
  (Hread : in_read it = Some c) (Hc : code c <> 3)
  (Hready : in_rx_ready it = false) :
  (forall k w', k mod 100 = 0 ->
     poll_console it k w' =
       ([Read (Some c); Engine (emulator_uart_rx_ready false)], w', false))
  /\ let r := free_run_loop (pre ++ it :: post) n w in
     let r' := free_run_loop (pre ++ without_read it :: post) n w in
     beyond_console (events_of r) = beyond_console (events_of r')
     /\ forwarded (events_of r) = forwarded (events_of r')
     /\ world_of r = world_of r'
     /\ value_of r = value_of r'.
Proof.
  split.
  - intros k w' Hk.
    rewrite (poll_console_not_ready it c k w' Hread Hc Hready).
    now rewrite Hk.
  - cbv zeta. revert n w.
    induction pre as [|a pre IH]; intros n w; cbn [app free_run_loop].
    + unfold bind.
      destruct (loop_body_not_ready it c n w Hread Hc Hready)
        as (rest & w' & v & -> & ->).
      destruct v as [how|sc].
      * unfold ret, events_of, world_of, value_of. cbn [fst snd].
        rewrite !beyond_console_app, !forwarded_app.
        destruct (n mod 100 =? 0); repeat split.
      * destruct (free_run_loop post sc w') as [[e2 w2] v2].
        unfold events_of, world_of, value_of. cbn [fst snd].
        rewrite !beyond_console_app, !forwarded_app.
        destruct (n mod 100 =? 0); repeat split.
    + unfold bind.
      destruct (loop_body a n w) as [[ea wa] [how|sc]].
      * repeat split.
      * specialize (IH sc wa).
        destruct (free_run_loop (pre ++ it :: post) sc wa) as [[e2 w2] v2].
        destruct (free_run_loop (pre ++ without_read it :: post) sc wa)
          as [[e2' w2'] v2'].
        unfold events_of, world_of, value_of in *. cbn [fst snd] in *.
        destruct IH as (Hb & Hf & Hw & Hv).
        rewrite !beyond_console_app, !forwarded_app, Hb, Hf, Hw, Hv.
        repeat split.
Qed.

(** C8 on a run whose first iteration reads an [a] the engine is not
    ready for. *)
Lemma unready_character_is_dropped_witness :
  let it := mk_iter (Some "a"%char) false Continue "" in
  let post := [mk_iter None true ExitSuccess "ok"] in
  in_read it = Some "a"%char
  /\ code "a" <> 3
  /\ in_rx_ready it = false
  /\ forwarded (events_of (free_run_loop ([] ++ it :: post) 0
                             sample_raw_world)) =
     forwarded (events_of (free_run_loop ([] ++ without_read it :: post) 0
                             sample_raw_world)).
Proof.
  intros it post.
  assert (Hc : code "a" <> 3) by (vm_compute; discriminate).
  split; [reflexivity|]. split; [exact Hc|]. split; [reflexivity|].
  destruct (unready_character_is_dropped [] post it "a"%char 0
              sample_raw_world eq_refl Hc eq_refl) as (_ & _ & Hfw & _).
  exact Hfw.
Defined.

End RunLoopDriver.

(** ** Numeric parsers *)

Section Numerals.

Lemma digit_in_value (base : Z) (c : ascii) (d : Z) :
  digit_in base c = Some d -> d = digit_value c.
Proof.
  unfold digit_in, digit_value. destruct (digit_of c) as [d'|]; [|discriminate].
  destruct (d' <? base); [|discriminate]. now intros [= <-].
Qed.

(** The loop over the digits computes the positional value. *)
Lemma take_digits_numeral (base : Z) (s rest : string) (acc : Z) (n : nat) :
  all_digits base s = true ->
  next_is_digit base rest = false ->
  take_digits base (s ++ rest) acc n =
    (acc * base ^ Z.of_nat (String.length s) + positional base s,
     (n + String.length s)%nat, rest).
Proof.
  intros Hs Hrest. revert acc n.
  induction s as [|c s IH]; intros acc n.
  - cbn [append String.length positional Z.of_nat].
    rewrite Z.pow_0_r, Z.mul_1_r, Z.add_0_r, Nat.add_0_r.
    destruct rest as [|c rest]; [reflexivity|].
    cbn [take_digits]. cbn [next_is_digit] in Hrest.
    unfold is_digit_in in Hrest.
    now destruct (digit_in base c).
  - cbn [all_digits] in Hs. apply andb_true_iff in Hs.
    destruct Hs as [Hc Hs]. specialize (IH Hs).
    cbn [append take_digits]. unfold is_digit_in in Hc.
    destruct (digit_in base c) as [d|] eqn:Hd; [|discriminate].
    rewrite IH. apply digit_in_value in Hd. subst d.
    cbn [String.length positional].
    rewrite Nat2Z.inj_succ, Z.pow_succ_r by apply Nat2Z.is_nonneg.
    f_equal. f_equal; [ring | lia].
Qed.

Lemma digit_not_space (base : Z) (c : ascii) :
  is_digit_in base c = true -> isspace c = false.
Proof.
  unfold is_digit_in, digit_in, digit_of, isspace.
  destruct ((48 <=? code c) && (code c <=? 57)) eqn:E1;
    [|destruct ((97 <=? code c) && (code c <=? 122)) eqn:E2;
      [|destruct ((65 <=? code c) && (code c <=? 90)) eqn:E3;
        [|discriminate]]];
    intros _; lia.
Qed.

Lemma digit_not_sign (base : Z) (c : ascii) (s : string) :
  is_digit_in base c = true -> take_sign (String c s) = (false, String c s).
Proof.
  intros Hc. unfold take_sign.
  destruct (Ascii.eqb_spec c "-") as [->|Hm];
    [destruct base as [|[]|]; discriminate Hc|].
  destruct (Ascii.eqb_spec c "+") as [->|Hp];
    [destruct base as [|[]|]; discriminate Hc|].
  destruct c as [[] [] [] [] [] [] [] []]; try reflexivity;
    congruence.
Qed.

Lemma ulong_of_min (v : Z) : ulong_of false v = Z.min v ULONG_MAX.
Proof.
  unfold ulong_of. destruct (Z.ltb_spec ULONG_MAX v); lia.
Qed.

Lemma skip_0x_decimal (s : string) : skip_0x 10 s = s.
Proof.
  destruct s as [|c [|x [|h s]]]; try reflexivity;
    destruct c as [[] [] [] [] [] [] [] []]; reflexivity.
Qed.

Lemma append_nil_r (s : string) : s ++ "" = s.
Proof. induction s as [|c s IH]; [reflexivity|]. cbn. now rewrite IH. Qed.

(** [strtoul] in base 10 on a decimal numeral and what follows it. *)
Lemma strtoul_decimal (ds rest : string) :
  numeral 10 ds = true -> next_is_digit 10 rest = false ->
  strtoul (ds ++ rest) 10 = Z.min (positional 10 ds) ULONG_MAX.
Proof.
  intros Hds Hrest. destruct ds as [|c ds]; [discriminate|].
  cbn [numeral] in Hds. pose proof Hds as Hall.
  cbn [all_digits] in Hds. apply andb_true_iff in Hds. destruct Hds as [Hc _].
  unfold strtoul. cbn [append skip_space].
  rewrite (digit_not_space 10 c Hc), (digit_not_sign 10 c _ Hc).
  cbv beta iota zeta. rewrite skip_0x_decimal.
  change (String c (ds ++ rest)) with (String c ds ++ rest).
  rewrite (take_digits_numeral 10 _ rest 0 0 Hall Hrest).
  rewrite Z.mul_0_l, Z.add_0_l. apply ulong_of_min.
Qed.

(** [strtoul] in base 16 on 0x or 0X, hexadecimal digits if any, and
    what follows them. *)
Lemma strtoul_hexadecimal (x : ascii) (hs rest : string) :
  x = "x"%char \/ x = "X"%char ->
  all_digits 16 hs = true -> next_is_digit 16 rest = false ->
  strtoul (String "0" (String x (hs ++ rest))) 16 =
    Z.min (positional 16 hs) ULONG_MAX.
Proof.
  intros Hx Hhs Hrest. unfold strtoul.
  assert (Hskip :
    take_digits 16 (skip_0x 16 (String "0" (String x (hs ++ rest)))) 0 0 =
      (positional 16 hs,
       match hs with EmptyString => 1%nat | _ => String.length hs end,
       match hs with EmptyString => String x rest | _ => rest end)).
  { destruct hs as [|h hs].
    - cbn [append positional].
      destruct rest as [|h rest].
      + destruct Hx as [-> | ->]; reflexivity.
      + cbn [next_is_digit] in Hrest. unfold skip_0x.
        rewrite Hrest, andb_false_r.
        destruct Hx as [-> | ->]; reflexivity.
    - pose proof Hhs as Hall. cbn [all_digits] in Hhs.
      apply andb_true_iff in Hhs. destruct Hhs as [Hh _].
      cbn [append]. unfold skip_0x. rewrite Hh.
      replace ((16 =? 16) && (Ascii.eqb x "x" || Ascii.eqb x "X") && true)
        with true by (destruct Hx as [-> | ->]; reflexivity).
      change (String h (hs ++ rest)) with (String h hs ++ rest).
      rewrite (take_digits_numeral 16 _ rest 0 0 Hall Hrest).
      now rewrite Z.mul_0_l, Z.add_0_l. }
  cbn [skip_space isspace]. change (isspace "0") with false.
  cbv beta iota. change (take_sign (String "0" (String x (hs ++ rest))))
    with (false, String "0" (String x (hs ++ rest))).
  cbv beta iota zeta. rewrite Hskip. apply ulong_of_min.
Qed.

Lemma numeral_not_prefixed (ds : string) :
  numeral 10 ds = true -> prefixed ds = false.
Proof.
  intros Hds. destruct ds as [|a [|b ds]]; [discriminate|reflexivity|].
  cbn in Hds. apply andb_true_iff in Hds. destruct Hds as [_ Hds].
  apply andb_true_iff in Hds. destruct Hds as [Hb _].
  unfold prefixed, strncmp2_eq.
  destruct (Ascii.eqb_spec b "x") as [->|_]; [discriminate Hb|].
  destruct (Ascii.eqb_spec b "X") as [->|_]; [discriminate Hb|].
  now rewrite !andb_false_r.
Qed.

(** [parse_hex_or_decimal] on a prefix, hexadecimal digits if any, and
    anything that does not go on with one. *)
Lemma parse_hexadecimal (x : ascii) (hs rest : string) :
  x = "x"%char \/ x = "X"%char ->
  all_digits 16 hs = true -> next_is_digit 16 rest = false ->
  parse_hex_or_decimal (String "0" (String x (hs ++ rest))) =
    as_uint (positional 16 hs).
Proof.
  intros Hx Hhs Hrest. unfold parse_hex_or_decimal, as_uint.
  rewrite (strtoul_hexadecimal x hs rest Hx Hhs Hrest).
  now destruct Hx as [-> | ->].
Qed.

(** [parse_hex_or_decimal] on an unprefixed decimal numeral and anything
    that does not go on with a digit. *)
Lemma parse_decimal (ds rest : string) :
  numeral 10 ds = true -> next_is_digit 10 rest = false ->
  prefixed (ds ++ rest) = false ->
  parse_hex_or_decimal (ds ++ rest) = as_uint (positional 10 ds).
Proof.
  intros Hds Hrest Hpre. unfold parse_hex_or_decimal, as_uint.
  unfold prefixed in Hpre. rewrite Hpre.
  now rewrite (strtoul_decimal ds rest Hds Hrest).
Qed.

(** [parse_hex_or_decimal] on a string that starts with neither a
    decimal digit nor white space nor a sign. *)
Lemma parse_no_digit (c : ascii) (rest : string) :
  is_digit_in 10 c = false -> isspace c = false ->
  c <> "+"%char -> c <> "-"%char ->
  parse_hex_or_decimal (String c rest) = 0.
Proof.
  intros Hc Hspace Hplus Hminus.
  assert (Hpre : prefixed (String c rest) = false).
  { unfold prefixed, strncmp2_eq. destruct rest as [|b rest]; [reflexivity|].
    destruct (Ascii.eqb_spec c "0") as [->|_]; [discriminate Hc|reflexivity]. }
  unfold parse_hex_or_decimal. unfold prefixed in Hpre. rewrite Hpre.
  unfold strtoul. cbn [skip_space]. rewrite Hspace.
  assert (Hsign : take_sign (String c rest) = (false, String c rest)).
  { unfold take_sign.
    destruct c as [[] [] [] [] [] [] [] []]; try reflexivity; congruence. }
  rewrite Hsign. cbv beta iota zeta. rewrite skip_0x_decimal.
  cbn [take_digits]. unfold is_digit_in in Hc.
  destruct (digit_in 10 c); [discriminate Hc | reflexivity].
Qed.

Lemma as_uint_small (v : Z) : 0 <= v <= UINT_MAX -> as_uint v = v.
Proof.
  unfold as_uint, to_uint, UINT_MAX, ULONG_MAX. intros Hv.
  rewrite Z.min_l by lia. apply Z.mod_small. lia.
Qed.

Lemma positional_nonneg (base : Z) (s : string) :
  0 <= base -> all_digits base s = true -> 0 <= positional base s.
Proof.
  intros Hbase. induction s as [|c s IH]; intros Hs; [cbn; lia|].
  cbn [all_digits] in Hs. apply andb_true_iff in Hs. destruct Hs as [Hc Hs].
  cbn [positional]. specialize (IH Hs).
  assert (0 <= digit_value c).
  { unfold is_digit_in, digit_in, digit_value, digit_of in *.
    destruct ((48 <=? code c) && (code c <=? 57)) eqn:E1;
      [|destruct ((97 <=? code c) && (code c <=? 122)) eqn:E2;
        [|destruct ((65 <=? code c) && (code c <=? 90)) eqn:E3]]; lia. }
  assert (0 <= base ^ Z.of_nat (String.length s)) by (apply Z.pow_nonneg; lia).
  nia.
Qed.

(** C2, as the driver does it.  After 0x or 0X, a hexadecimal numeral is
    parsed to the number it denotes in base 16, and an unprefixed decimal
    numeral to the number it denotes in base 10, as far as an
    [unsigned int] holds it: the number itself up to 2^32 - 1, and beyond
    that the number, capped at [ULONG_MAX], modulo 2^32. *)
Theorem parse_hex_or_decimal_numerals (x : ascii) (r : string)
  (Hx : x = "x"%char \/ x = "X"%char) :
  (numeral 16 r = true ->
     parse_hex_or_decimal (String "0" (String x r)) = as_uint (positional 16 r)
     /\ (positional 16 r <= UINT_MAX ->
         parse_hex_or_decimal (String "0" (String x r)) = positional 16 r))
  /\ (numeral 10 r = true ->
      prefixed r = false
      /\ parse_hex_or_decimal r = as_uint (positional 10 r)
      /\ (positional 10 r <= UINT_MAX ->
          parse_hex_or_decimal r = positional 10 r)).
Proof.
  split; intros Hr.
  - assert (Hall : all_digits 16 r = true) by (now destruct r).
    pose proof (parse_hexadecimal x r "" Hx Hall eq_refl) as Hp.
    rewrite append_nil_r in Hp. split; [exact Hp|].
    intros Hsmall. rewrite Hp. apply as_uint_small.
    split; [apply positional_nonneg; [lia | exact Hall] | exact Hsmall].
  - assert (Hall : all_digits 10 r = true) by (now destruct r).
    pose proof (numeral_not_prefixed r Hr) as Hnp.
    pose proof (parse_decimal r "" Hr eq_refl) as Hp.
    rewrite append_nil_r in Hp. specialize (Hp Hnp).
    split; [exact Hnp|]. split; [exact Hp|].
    intros Hsmall. rewrite Hp. apply as_uint_small.
    split; [apply positional_nonneg; [lia | exact Hall] | exact Hsmall].
Qed.

(** C2 on the digits 40000000, with and without the prefix. *)
Lemma parse_hex_or_decimal_numerals_witness :
  numeral 16 "40000000" = true
  /\ numeral 10 "40000000" = true
  /\ parse_hex_or_decimal "0x40000000" = 1073741824
  /\ parse_hex_or_decimal "40000000" = 40000000.
Proof.
  destruct (parse_hex_or_decimal_numerals "x" "40000000" (or_introl eq_refl))
    as [Hhex Hdec].
  destruct (Hhex eq_refl) as [_ Hh]. destruct (Hdec eq_refl) as (_ & _ & Hd).
  split; [reflexivity|]. split; [reflexivity|].
  split; [apply Hh | apply Hd]; vm_compute; discriminate.
Defined.

(** C2 as stated fails where the numeral denotes more than an
    [unsigned int] holds. *)
Lemma parse_hex_or_decimal_wraps : ~ parses_as_written "0x100000000".
Proof.
  intros [Hhex _].
  specialize (Hhex "x"%char "100000000" (or_introl eq_refl) eq_refl eq_refl).
  vm_compute in Hhex. discriminate Hhex.
Qed.

End Numerals.

(** ** ConfigBuilder *)

Section ConfigBuilder.

Variable program_name : string.

Lemma assign_revision_str (vals : list Z) (config : CEmulatorConfig) :
  cfg_str (assign_revision vals config) = cfg_str config.
Proof. destruct vals as [|a [|b [|c vals]]]; reflexivity. Qed.

(** Case analysis on the value returned by [getopt_long], following the
    [switch] of [handle_option]. *)
Ltac switch_cases leaf :=
  repeat match goal with
         | |- context [match ?p with xH => _ | _ => _ end] =>
             is_var p; destruct p; try (progress cbn beta iota); try leaf
         end.

Ltac option_cases o leaf :=
  destruct o as [c arg]; unfold handle_option, with_optarg;
  cbn [opt_c opt_arg];
  destruct c as [|p|p]; try leaf; switch_cases leaf.

(** An option that leaves [main] only prints. *)
Lemma handle_option_stop (o : GetoptResult) (config : CEmulatorConfig)
  (evs : list Event) (st : Status) :
  handle_option program_name o config = Stop evs st ->
  Forall (fun e => is_output e = true) evs.
Proof.
  option_cases o
    ltac:(solve [ intros H; try destruct arg;
                  try destruct (sscanf_u_u_u _) as [n vals];
                  try destruct (n =? 3);
                  first [ discriminate H
                        | injection H as <- <-;
                          first [ apply Forall_nil
                                | apply Forall_forall; intros e He;
                                  apply in_map_iff in He;
                                  destruct He as (x & <- & _); reflexivity
                                | repeat constructor ] ] ]).
Qed.

(** An option that falls out of the [switch] sets a string field exactly
    when it is the option of that field, to [optarg]. *)
Lemma handle_option_next_str (o : GetoptResult) (config config' : CEmulatorConfig)
  (f : StrField) :
  handle_option program_name o config = Next config' ->
  cfg_str config' f =
    if opt_c o =? option_of f then opt_arg o else cfg_str config f.
Proof.
  option_cases o
    ltac:(solve [ intros H; try destruct arg;
                  try destruct (sscanf_u_u_u _) as [n vals];
                  try destruct (n =? 3);
                  first [ discriminate H
                        | injection H as <-;
                          rewrite ?assign_revision_str;
                          destruct f; reflexivity ] ]).
Qed.

(** A path that is null before the option loop and that no option
    supplies is null after it. *)
Lemma parse_options_not_supplied (opts : list GetoptResult)
  (config config' : CEmulatorConfig) (f : StrField) :
  parse_options program_name opts config = Next config' ->
  supplied f opts = false ->
  cfg_str config f = None ->
  cfg_str config' f = None.
Proof.
  revert config. induction opts as [|o opts IH]; intros config Hparse Hsup Hnull.
  - now injection Hparse as <-.
  - cbn [parse_options] in Hparse.
    destruct (handle_option program_name o config) as [c1|evs st] eqn:Ho;
      [|discriminate Hparse].
    unfold supplied in Hsup. cbn [existsb] in Hsup.
    apply orb_false_elim in Hsup. destruct Hsup as [Ho_f Hrest].
    apply (IH c1 Hparse Hrest).
    rewrite (handle_option_next_str o config c1 f Ho).
    destruct (opt_c o =? option_of f); [|exact Hnull].
    now destruct (opt_arg o).
Qed.

(** The option loop leaves [main] only by printing. *)
Lemma parse_options_stop (opts : list GetoptResult) (config : CEmulatorConfig)
  (evs : list Event) (st : Status) :
  parse_options program_name opts config = Stop evs st ->
  Forall (fun e => is_output e = true) evs.
Proof.
  revert config. induction opts as [|o opts IH]; intros config Hparse.
  - discriminate Hparse.
  - cbn [parse_options] in Hparse.
    destruct (handle_option program_name o config) as [c1|evs1 st1] eqn:Ho.
    + exact (IH c1 Hparse).
    + injection Hparse as <- <-.
      exact (handle_option_stop o config evs1 st1 Ho).
Qed.

(** C4, as the driver does it.  A memory layout override is never
    answered with an error: whatever its string, [main] stores the
    number [parse_hex_or_decimal] returns and goes on to the next
    option.  At the first character that is not a digit of the chosen
    base the conversion stops, and the number is the one denoted by the
    digits before it: after 0x or 0X the hexadecimal digits, 0 when
    there are none, and for an unprefixed string that starts with a
    decimal digit the decimal digits.  An unprefixed string that starts
    with anything but a decimal digit, white space or a sign yields 0. *)
Theorem invalid_digit_is_not_reported
  (k : Z) (f : MemField) (s : string) (config : CEmulatorConfig)
  (opts : list GetoptResult)
  (Hk : override_option k = Some f) :
  handle_option program_name (mk_opt k (Some s)) config =
    Next (set_mem f (parse_hex_or_decimal s) config)
  /\ parse_options program_name (mk_opt k (Some s) :: opts) config =
       parse_options program_name opts
         (set_mem f (parse_hex_or_decimal s) config)
  /\ (forall x hs c rest,
        x = "x"%char \/ x = "X"%char ->
        s = String "0" (String x (hs ++ String c rest)) ->
        all_digits 16 hs = true -> is_digit_in 16 c = false ->
        parse_hex_or_decimal s = as_uint (positional 16 hs))
  /\ (forall ds c rest,
        s = ds ++ String c rest -> prefixed s = false ->
        numeral 10 ds = true -> is_digit_in 10 c = false ->
        parse_hex_or_decimal s = as_uint (positional 10 ds))
  /\ (forall c rest,
        s = String c rest -> is_digit_in 10 c = false ->
        isspace c = false -> c <> "+"%char -> c <> "-"%char ->
        parse_hex_or_decimal s = 0).
Proof.
  assert (Hstep :
    handle_option program_name (mk_opt k (Some s)) config =
      Next (set_mem f (parse_hex_or_decimal s) config)).
  { revert Hk. unfold handle_option, with_optarg, override_option.
    cbn [opt_c opt_arg].
    destruct k as [|p|p]; try discriminate.
    switch_cases
      ltac:(solve [ intros H;
                    first [discriminate H | injection H as <-; reflexivity] ]). }
  split; [exact Hstep|]. split; [cbn [parse_options]; now rewrite Hstep|].
  split; [|split].
  - intros x hs c rest Hx -> Hhs Hc.
    now apply parse_hexadecimal.
  - intros ds c rest -> Hpre Hds Hc.
    now apply parse_decimal.
  - intros c rest -> Hc Hspace Hplus Hminus.
    now apply parse_no_digit.
Qed.

Lemma split_dots_nonempty (s : string) : split_dots s <> [].
Proof.
  induction s as [|c s IH]; [discriminate|]. cbn [split_dots].
  destruct (split_dots s) as [|f fs]; [contradiction|].
  destruct (Ascii.eqb c "."); discriminate.
Qed.

Lemma join_split_dots (s : string) : join_dots (split_dots s) = s.
Proof.
  induction s as [|c s IH]; [reflexivity|]. cbn [split_dots].
  pose proof (split_dots_nonempty s) as Hne.
  destruct (split_dots s) as [|f fs]; [contradiction|].
  destruct (Ascii.eqb_spec c ".") as [->|_].
  - change (join_dots ("" :: f :: fs)) with ("" ++ "." ++ join_dots (f :: fs)).
    now rewrite IH.
  - destruct fs as [|g fs].
    + cbn [join_dots] in *. now rewrite IH.
    + change (join_dots (String c f :: g :: fs))
        with (String c (f ++ "." ++ join_dots (g :: fs))).
      change (join_dots (f :: g :: fs))
        with (f ++ "." ++ join_dots (g :: fs)) in IH.
      now rewrite IH.
Qed.

(** A [%u] directive on a decimal numeral and what follows it. *)
Lemma scan_u_numeral (a rest : string) :
  numeral 10 a = true -> next_is_digit 10 rest = false ->
  scan_u (a ++ rest) = Converted (as_uint (positional 10 a)) rest.
Proof.
  intros Ha Hrest. destruct a as [|c a]; [discriminate|].
  cbn [numeral] in Ha. pose proof Ha as Hall.
  cbn [all_digits] in Ha. apply andb_true_iff in Ha. destruct Ha as [Hc _].
  unfold scan_u. cbn [append skip_space].
  rewrite (digit_not_space 10 c Hc), (digit_not_sign 10 c _ Hc).
  cbv beta iota zeta.
  change (String c (a ++ rest)) with (String c a ++ rest).
  rewrite (take_digits_numeral 10 _ rest 0 0 Hall Hrest).
  cbn [String.length Nat.add]. rewrite Z.mul_0_l, Z.add_0_l.
  unfold as_uint. now rewrite ulong_of_min.
Qed.

(** [sscanf] converts all three fields of three dotted numerals. *)
Lemma sscanf_three_numerals (a b c : string) :
  numeral 10 a = true -> numeral 10 b = true -> numeral 10 c = true ->
  sscanf_u_u_u (a ++ "." ++ b ++ "." ++ c) =
    (3, [as_uint (positional 10 a); as_uint (positional 10 b);
         as_uint (positional 10 c)]).
Proof.
  intros Ha Hb Hc. unfold sscanf_u_u_u.
  rewrite (scan_u_numeral a ("." ++ b ++ "." ++ c) Ha eq_refl).
  cbn [append scan_dot].
  rewrite (scan_u_numeral b (String "." c) Hb eq_refl).
  cbn [append scan_dot].
  rewrite <- (append_nil_r c) at 1.
  now rewrite (scan_u_numeral c "" Hc eq_refl).
Qed.

Lemma parse_options_app (pre post : list GetoptResult)
  (config : CEmulatorConfig) :
  parse_options program_name (pre ++ post) config =
    match parse_options program_name pre config with
    | Next config' => parse_options program_name post config'
    | Stop evs st => Stop evs st
    end.
Proof.
  revert config. induction pre as [|o pre IH]; intros config; [reflexivity|].
  cbn [app parse_options].
  destruct (handle_option program_name o config); [apply IH | reflexivity].
Qed.

Lemma append_assoc (a b c : string) : (a ++ b) ++ c = a ++ b ++ c.
Proof. induction a as [|x a IH]; [reflexivity|]. cbn. now rewrite IH. Qed.

Lemma skip_space_split (s : string) :
  exists blank, s = blank ++ skip_space s /\ all_space blank = true.
Proof.
  induction s as [|c s (blank & Hs & Hblank)]; [now exists ""|].
  cbn [skip_space]. destruct (isspace c) eqn:Hc.
  - exists (String c blank). cbn [append all_space].
    rewrite Hc, Hblank, <- Hs. now split.
  - now exists "".
Qed.

Lemma take_sign_split (s : string) :
  exists sign, s = sign ++ snd (take_sign s) /\ optional_sign sign = true.
Proof.
  destruct s as [|c s]; [now exists ""|]. unfold take_sign.
  destruct (Ascii.eqb_spec c "-") as [->|Hm]; [now exists "-"|].
  destruct (Ascii.eqb_spec c "+") as [->|Hp]; [now exists "+"|].
  exists "".
  destruct c as [[] [] [] [] [] [] [] []]; try (now split); congruence.
Qed.

Lemma take_digits_split (s : string) (acc : Z) (n : nat) :
  exists digits,
    s = digits ++ snd (take_digits 10 s acc n)
    /\ all_digits 10 digits = true
    /\ snd (fst (take_digits 10 s acc n)) = (n + String.length digits)%nat
    /\ next_is_digit 10 (snd (take_digits 10 s acc n)) = false.
Proof.
  revert acc n. induction s as [|c s IH]; intros acc n.
  - exists "". cbn. now rewrite Nat.add_0_r.
  - cbn [take_digits]. destruct (digit_in 10 c) as [d|] eqn:Hd.
    + destruct (IH (acc * 10 + d) (S n)) as (digits & Hs & Hall & Hn & Hnext).
      exists (String c digits). cbn [append all_digits String.length].
      unfold is_digit_in. rewrite Hd, Hall, <- Hs, Hn, Hnext.
      repeat split. lia.
    + exists "". cbn [append all_digits String.length snd fst next_is_digit].
      unfold is_digit_in. rewrite Hd, Nat.add_0_r. now repeat split.
Qed.

(** What a [%u] directive has taken when it converts. *)
Lemma scan_u_converted (s rest : string) (v : Z) :
  scan_u s = Converted v rest ->
  exists x, s = x ++ rest /\ scanned_integer x.
Proof.
  unfold scan_u.
  destruct (skip_space_split s) as (blank & Hs & Hblank).
  destruct (skip_space s) as [|c s1] eqn:Hskip; [discriminate|].
  destruct (take_sign_split (String c s1)) as (sign & Hsign & Hopt).
  destruct (take_sign (String c s1)) as [neg s2]. cbn [snd] in Hsign.
  destruct (take_digits_split s2 0 0) as (digits & Hd & Hall & Hn & _).
  destruct (take_digits 10 s2 0 0) as [[v' n] r]. cbn [fst snd] in *.
  destruct n as [|n]; [discriminate|]. intros [= _ <-].
  exists (blank ++ sign ++ digits). split.
  - now rewrite Hs, Hsign, Hd, !append_assoc.
  - exists blank, sign, digits. repeat split; try assumption.
    destruct digits; [discriminate Hn | exact Hall].
Qed.

Lemma skip_space_blank (blank s : string) :
  all_space blank = true -> skip_space (blank ++ s) = skip_space s.
Proof.
  induction blank as [|c blank IH]; intros Hb; [reflexivity|].
  cbn [all_space] in Hb. apply andb_true_iff in Hb. destruct Hb as [Hc Hb].
  cbn [append skip_space]. rewrite Hc. now apply IH.
Qed.

Lemma skip_space_stop (c : ascii) (s : string) :
  isspace c = false -> skip_space (String c s) = String c s.
Proof. intros Hc. cbn [skip_space]. now rewrite Hc. Qed.

(** A [%u] directive converts an integer it is given, whatever follows
    that is not a digit. *)
Lemma scan_u_integer (x rest : string) :
  scanned_integer x -> next_is_digit 10 rest = false ->
  exists v, scan_u (x ++ rest) = Converted v rest.
Proof.
  intros (blank & sign & digits & -> & Hblank & Hsign & Hdigits) Hrest.
  destruct digits as [|d digits]; [discriminate|].
  cbn [numeral] in Hdigits. pose proof Hdigits as Hall.
  cbn [all_digits] in Hdigits. apply andb_true_iff in Hdigits.
  destruct Hdigits as [Hd _].
  unfold scan_u. rewrite !append_assoc, (skip_space_blank _ _ Hblank).
  assert (Htake : take_digits 10 (String d digits ++ rest) 0 0 =
            (0 * 10 ^ Z.of_nat (String.length (String d digits))
               + positional 10 (String d digits),
             (0 + String.length (String d digits))%nat, rest))
    by (apply take_digits_numeral; assumption).
  unfold optional_sign in Hsign.
  destruct (String.eqb_spec sign "") as [->|_].
  - cbn [append skip_space]. rewrite (digit_not_space 10 d Hd).
    rewrite (digit_not_sign 10 d _ Hd). cbv beta iota zeta.
    change (String d (digits ++ rest)) with (String d digits ++ rest).
    eexists. rewrite Htake. cbn [String.length Nat.add]. reflexivity.
  - destruct (String.eqb_spec sign "+") as [->|_].
    + cbn [append]. rewrite (skip_space_stop "+" _ eq_refl).
      cbn [take_sign]. cbv beta iota zeta.
      change (String d (digits ++ rest)) with (String d digits ++ rest).
      eexists. rewrite Htake. cbn [String.length Nat.add]. reflexivity.
    + destruct (String.eqb_spec sign "-") as [->|_]; [|discriminate].
      cbn [append]. rewrite (skip_space_stop "-" _ eq_refl).
      cbn [take_sign]. cbv beta iota zeta.
      change (String d (digits ++ rest)) with (String d digits ++ rest).
      eexists. rewrite Htake. cbn [String.length Nat.add]. reflexivity.
Qed.

Lemma digits_split (s : string) :
  exists digits rest,
    s = digits ++ rest /\ all_digits 10 digits = true
    /\ next_is_digit 10 rest = false.
Proof.
  destruct (take_digits_split s 0 0) as (digits & Hs & Hall & _ & Hnext).
  now exists digits, (snd (take_digits 10 s 0 0)).
Qed.

Lemma all_digits_app (a b : string) :
  all_digits 10 a = true -> all_digits 10 b = true ->
  all_digits 10 (a ++ b) = true.
Proof.
  induction a as [|c a IH]; intros Ha Hb; [exact Hb|].
  cbn [all_digits] in Ha. apply andb_true_iff in Ha. destruct Ha as [Hc Ha].
  cbn [append all_digits]. now rewrite Hc, IH.
Qed.

(** The same, whatever follows. *)
Lemma scan_u_integer_any (x rest : string) :
  scanned_integer x -> exists v rest', scan_u (x ++ rest) = Converted v rest'.
Proof.
  intros (blank & sign & digits & -> & Hblank & Hsign & Hdigits).
  destruct (digits_split rest) as (more & rest' & -> & Hmore & Hnext).
  assert (Hx : scanned_integer (blank ++ sign ++ digits ++ more)).
  { exists blank, sign, (digits ++ more). repeat split; try assumption.
    destruct digits as [|d digits]; [discriminate|].
    cbn [numeral] in *. cbn [append]. cbn [numeral].
    change (String d (digits ++ more)) with (String d digits ++ more).
    now apply all_digits_app. }
  destruct (scan_u_integer _ rest' Hx Hnext) as (v & Hscan).
  exists v, rest'. rewrite <- Hscan. f_equal.
  now rewrite !append_assoc.
Qed.

(** The strings [sscanf] converts in full. *)
Lemma sscanf_three_shape (s : string) :
  fst (sscanf_u_u_u s) = 3 <-> revision_shape s.
Proof.
  split.
  - unfold sscanf_u_u_u.
    destruct (scan_u s) as [va r1| |] eqn:Ha; try discriminate.
    destruct r1 as [|dot1 r1]; [discriminate|].
    unfold scan_dot at 1.
    destruct (Ascii.eqb_spec dot1 ".") as [->|Hne].
    2:{ destruct dot1 as [[] [] [] [] [] [] [] []]; try discriminate.
        now contradiction Hne. }
    destruct (scan_u r1) as [vb r2| |] eqn:Hb; try discriminate.
    destruct r2 as [|dot2 r2]; [discriminate|].
    unfold scan_dot.
    destruct (Ascii.eqb_spec dot2 ".") as [->|Hne].
    2:{ destruct dot2 as [[] [] [] [] [] [] [] []]; try discriminate.
        now contradiction Hne. }
    destruct (scan_u r2) as [vc r3| |] eqn:Hc; try discriminate.
    intros _.
    destruct (scan_u_converted _ _ _ Ha) as (a & Hsa & Hia).
    destruct (scan_u_converted _ _ _ Hb) as (b & Hsb & Hib).
    destruct (scan_u_converted _ _ _ Hc) as (c & Hsc & Hic).
    exists a, b, c, r3. repeat split; try assumption.
    rewrite Hsa. f_equal. cbn [append]. f_equal.
    rewrite Hsb. f_equal. cbn [append]. f_equal. exact Hsc.
  - intros (a & b & c & rest & -> & Ha & Hb & Hc).
    unfold sscanf_u_u_u.
    destruct (scan_u_integer a ("." ++ b ++ "." ++ c ++ rest) Ha eq_refl)
      as (va & ->).
    cbn [append scan_dot].
    destruct (scan_u_integer b (String "." (c ++ rest)) Hb eq_refl)
      as (vb & ->).
    cbn [scan_dot].
    destruct (scan_u_integer_any c rest Hc) as (vc & r3 & ->).
    reflexivity.
Qed.

Lemma split_dots_length (x y : string) :
  List.length (split_dots (x ++ "." ++ y)) =
  (List.length (split_dots x) + List.length (split_dots y))%nat.
Proof.
  induction x as [|c x IH].
  - cbn [append split_dots]. pose proof (split_dots_nonempty y).
    destruct (split_dots y); [contradiction|reflexivity].
  - cbn [append split_dots]. cbn [append] in IH.
    pose proof (split_dots_nonempty x) as Hx.
    pose proof (split_dots_nonempty (x ++ String "." y)) as Hxy.
    destruct (split_dots (x ++ String "." y)) as [|f fs]; [contradiction|].
    destruct (split_dots x) as [|g gs]; [contradiction|].
    destruct (Ascii.eqb c "."); cbn [List.length] in *; lia.
Qed.

(** A string with fewer than two dots is not converted in full. *)
Lemma revision_shape_dots (s : string) :
  revision_shape s -> (3 <= List.length (split_dots s))%nat.
Proof.
  intros (a & b & c & rest & -> & _).
  rewrite split_dots_length, split_dots_length.
  pose proof (split_dots_nonempty a). pose proof (split_dots_nonempty b).
  pose proof (split_dots_nonempty (c ++ rest)).
  destruct (split_dots a), (split_dots b), (split_dots (c ++ rest));
    try contradiction; cbn [List.length]; lia.
Qed.

End ConfigBuilder.

(** C4 on the ROM offset given as 12abc. *)
Lemma invalid_digit_is_not_reported_witness :
  override_option 140 = Some rom_offset
  /\ has_invalid_digit "12abc" = true
  /\ handle_option "emulator" (mk_opt 140 (Some "12abc")) default_config =
       Next (set_mem rom_offset 12 default_config).
Proof.
  split; [reflexivity|]. split; [reflexivity|].
  exact (proj1 (invalid_digit_is_not_reported "emulator" 140 rom_offset
                  "12abc" default_config [] eq_refl)).
Defined.


(** C4 as stated fails: the digits before the invalid one are stored as
    the number, and nothing is reported. *)
Lemma override_with_invalid_digit_is_stored :
  ~ invalid_digit_is_reported "emulator" 140 "12abc" default_config.
Proof.
  intros Hclaim. destruct (Hclaim eq_refl) as (evs & st & text & Hstop & _).
  discriminate Hstop.
Qed.

(** ** main *)

Section Main.

Variable program_name : string.

Lemma disable_raw_mode_run (w : World) :
  disable_raw_mode w = (restore_events w, after_disable w, tt).
Proof.
  unfold restore_events, after_disable. destruct (terminal_raw_mode w) eqn:Hraw.
  - now apply disable_raw_mode_on.
  - now apply disable_raw_mode_off.
Qed.

Lemma disable_raw_mode_flag (w : World) :
  terminal_raw_mode (after_disable w) = false.
Proof.
  unfold after_disable.
  destruct (terminal_raw_mode w) eqn:Hraw; [reflexivity | exact Hraw].
Qed.

Lemma disable_raw_mode_twice (w : World) :
  disable_raw_mode (after_disable w) = ([], after_disable w, tt).
Proof. apply disable_raw_mode_off, disable_raw_mode_flag. Qed.

Lemma enable_raw_mode_no_step (w : World) :
  filter is_step (events_of (enable_raw_mode w)) = [].
Proof.
  destruct w as [orig raw atx [isatty attrs settable]].
  unfold enable_raw_mode, tcgetattr, tcsetattr, bind, get, put, ret, events_of.
  now destruct raw, isatty, settable.
Qed.

Lemma restore_events_no_step (w : World) :
  filter is_step (restore_events w) = [].
Proof. unfold restore_events. now destruct (terminal_raw_mode w). Qed.

Lemma init_events_no_step (config : CEmulatorConfig) (env : Env) :
  filter is_step (init_events config env) = [].
Proof.
  unfold init_events. now destruct (negb (cfg_int config i3c_port =? 0)).
Qed.

Lemma final_drain_no_step (env : Env) :
  filter is_step (final_drain env) = [].
Proof.
  unfold final_drain.
  now destruct (0 <? Z.of_nat (String.length (env_final_uart env))).
Qed.

(** With the options parsed and the five paths present, [main] installs
    the handlers and goes on to the engine. *)
Lemma main_valid (opts : list GetoptResult) (env : Env) (w : World)
  (config : CEmulatorConfig) :
  parse_options program_name opts default_config = Next config ->
  (forall f, In f required -> cfg_str config f <> None) ->
  main program_name opts env w =
    let '(e, w', st) := run_engine config env (set_atexit_registered true w) in
    ([Signal SIGINT; Signal SIGTERM; Signal SIGHUP; Signal SIGQUIT; Atexit]
       ++ e, w', st)%list.
Proof.
  intros Hparse Hreq. unfold main. rewrite Hparse.
  assert (Hnn : forall f, In f required -> is_null (cfg_str config f) = false).
  { intros f Hf. specialize (Hreq f Hf).
    destruct (cfg_str config f); [reflexivity | contradiction]. }
  rewrite !Hnn by (cbn; tauto).
  unfold bind, emit, put.
  destruct (run_engine config env (set_atexit_registered true w))
    as [[e w'] st].
  reflexivity.
Qed.

(** Leaving [main] with a status ends the process with that status. *)
Lemma c_exit_status (status : Z) (w : World) :
  value_of (c_exit status w) = Exited status.
Proof.
  unfold c_exit, bind, get, emit, ret, value_of.
  destruct (atexit_registered w); [|reflexivity].
  now destruct (cleanup_on_exit w) as [[e1 w1] []].
Qed.

Lemma process_status (opts : list GetoptResult) (env : Env) (w : World) :
  value_of (process program_name opts env w) =
  value_of (main program_name opts env w).
Proof.
  unfold process, bind.
  destruct (main program_name opts env w) as [[e1 w1] st].
  destruct st as [status| | |]; try reflexivity.
  pose proof (c_exit_status status w1) as Hst.
  destruct (c_exit status w1) as [[e2 w2] st2]. exact Hst.
Qed.

(** C9.  When the engine reports debug mode and [emulator_run_gdb_server]
    returns a failure, [main] prints the failure on stdout and carries
    on: it drains the UART a last time, restores the terminal, destroys
    the engine, frees its memory, and returns 0, which is the status the
    process exits with. *)
Theorem gdb_failure_is_only_reported
  (opts : list GetoptResult) (env : Env) (w : World)
  (config : CEmulatorConfig) (e : Z)
  (Hparse : parse_options program_name opts default_config = Next config)
  (Hreq : forall f, In f required -> cfg_str config f <> None)
  (Halloc : env_alloc_ok env = true)
  (Hinit : env_init env = Success)
  (Hi3c : cfg_int config i3c_port <> 0 -> env_i3c env = Success)
  (Hgdb : env_gdb_mode env = true)
  (Hres : env_gdb_result env = Failed e) :
  let r := main program_name opts env w in
  events_of r =
    (startup_events env ++ init_events config env
     ++ [Engine (emulator_get_gdb_port (env_gdb_port env));
         Output Stdout ("GDB server available on port "
                         ++ dec (env_gdb_port env) ++ nl);
         Output Stdout ("Connect with: gdb -ex 'target remote :"
                         ++ dec (env_gdb_port env) ++ "'" ++ nl);
         Output Stdout ("Starting GDB server (this will block until GDB disconnects)" ++ nl);
         Engine (emulator_run_gdb_server (Failed e));
         Output Stdout ("GDB session failed with error " ++ dec e ++ nl)]
     ++ final_drain env
     ++ restore_events w
     ++ [Engine emulator_destroy; Free memory;
         Output Stdout ("Emulator cleaned up" ++ nl)])%list
  /\ value_of r = Exited 0
  /\ terminal_raw_mode (world_of r) = false
  /\ value_of (process program_name opts env w) = Exited 0.
Proof.
  cbv zeta. rewrite process_status.
  rewrite (main_valid opts env w config Hparse Hreq).
  unfold run_engine, startup_events, init_events, final_drain.
  unfold printf, fprintf. unfold bind, emit, ret.
  rewrite Halloc, Hinit, Hgdb, Hres. cbn [negb].
  assert (Hi : (if negb (cfg_int config i3c_port =? 0)
                then env_i3c env else Success) = Success).
  { destruct (cfg_int config i3c_port =? 0) eqn:E; [reflexivity|].
    apply Hi3c. now apply Z.eqb_neq. }
  destruct (negb (cfg_int config i3c_port =? 0)) eqn:Eport;
    [rewrite Hi|];
    destruct (0 <? Z.of_nat (String.length (env_final_uart env)));
    cbv beta iota zeta;
    rewrite disable_raw_mode_run;
    (split; [reflexivity|]); (split; [reflexivity|]);
    (split; [apply (disable_raw_mode_flag (set_atexit_registered true w))
            |reflexivity]).
Qed.

Lemma missing_run (f : StrField) (w : World) :
  missing program_name f w =
    (Output Stderr (required_error f)
       :: map (Output Stdout) (usage_text program_name), w, Exited 1).
Proof. reflexivity. Qed.

Lemma only_output_no_engine (evs : list Event) :
  Forall (fun e => is_output e = true) evs ->
  forall call, ~ In (Engine call) evs.
Proof.
  intros Hall call Hin. rewrite Forall_forall in Hall.
  specialize (Hall _ Hin). discriminate Hall.
Qed.

Lemma missing_only_output (f : StrField) :
  Forall (fun e => is_output e = true)
    (Output Stderr (required_error f)
       :: map (Output Stdout) (usage_text program_name)).
Proof.
  constructor; [reflexivity|].
  apply Forall_forall. intros e He. apply in_map_iff in He.
  now destruct He as (x & <- & _).
Qed.

(** C1, as the driver does it.  When one of the five required paths is
    not supplied, [main] only prints: it makes no call into the engine
    (so none of [emulator_get_size], [emulator_get_alignment],
    [emulator_init]) and leaves the process state alone.  Whenever the
    option loop runs to its end (no help or version option, no option
    rejected by [getopt_long], no malformed hardware revision), the path
    is null in the configuration, and [main] prints on stderr the message
    of the first required path that is null, then the usage text, and
    returns 1, the status the process exits with.  The five messages are
    pairwise distinct. *)
Theorem missing_required_path
  (opts : list GetoptResult) (env : Env) (w : World) (f : StrField)
  (Hf : In f required) (Hmiss : supplied f opts = false) :
  let r := main program_name opts env w in
  Forall (fun e => is_output e = true) (events_of r)
  /\ (forall call, ~ In (Engine call) (events_of r))
  /\ world_of r = w
  /\ (forall config,
        parse_options program_name opts default_config = Next config ->
        cfg_str config f = None
        /\ exists g,
            first_missing config = Some g
            /\ events_of r =
                 Output Stderr (required_error g)
                   :: map (Output Stdout) (usage_text program_name)
            /\ value_of r = Exited 1
            /\ value_of (process program_name opts env w) = Exited 1)
  /\ NoDup (map required_error required).
Proof.
  cbv zeta. rewrite process_status.
  assert (Hmain :
    Forall (fun e => is_output e = true)
      (events_of (main program_name opts env w))
    /\ world_of (main program_name opts env w) = w
    /\ (forall config,
          parse_options program_name opts default_config = Next config ->
          cfg_str config f = None
          /\ exists g,
              first_missing config = Some g
              /\ events_of (main program_name opts env w) =
                   Output Stderr (required_error g)
                     :: map (Output Stdout) (usage_text program_name)
              /\ value_of (main program_name opts env w) = Exited 1
              /\ value_of (main program_name opts env w) = Exited 1)).
  { unfold main.
    destruct (parse_options program_name opts default_config)
      as [config|evs st] eqn:Hparse.
    - assert (Hnull : cfg_str config f = None).
      { apply (parse_options_not_supplied program_name opts default_config
                 config f Hparse Hmiss). reflexivity. }
      unfold first_missing, required. cbn [find].
      destruct (is_null (cfg_str config rom_path)) eqn:E1;
        [|destruct (is_null (cfg_str config firmware_path)) eqn:E2;
          [|destruct (is_null (cfg_str config caliptra_rom_path)) eqn:E3;
            [|destruct (is_null (cfg_str config caliptra_firmware_path)) eqn:E4;
              [|destruct (is_null (cfg_str config soc_manifest_path)) eqn:E5]]]].
      1-5: rewrite missing_run; unfold events_of, world_of, value_of;
        cbn [fst snd];
        (split; [apply missing_only_output|]); (split; [reflexivity|]);
        intros c Hc; injection Hc as <-; (split; [exact Hnull|]);
        eexists;
        (split; [rewrite ?E1, ?E2, ?E3, ?E4, ?E5; reflexivity|]);
        repeat split.
      exfalso. cbn in Hf.
      destruct Hf as [<-|[<-|[<-|[<-|[<-|[]]]]]];
        [rewrite Hnull in E1|rewrite Hnull in E2|rewrite Hnull in E3
        |rewrite Hnull in E4|rewrite Hnull in E5]; discriminate.
    - unfold emit_all, bind, ret, events_of, world_of. cbn [fst snd].
      rewrite app_nil_r.
      split; [exact (parse_options_stop program_name opts _ evs st Hparse)|].
      split; [reflexivity|]. intros c Hc. discriminate Hc. }
  destruct Hmain as (Hout & Hw & Hreport).
  split; [exact Hout|]. split; [exact (only_output_no_engine _ Hout)|].
  split; [exact Hw|]. split; [exact Hreport|].
  repeat constructor; cbn; intuition discriminate.
Qed.

Lemma handle_hw_revision (s : string) (config : CEmulatorConfig) :
  handle_option program_name (mk_opt 139 (Some s)) config =
    if fst (sscanf_u_u_u s) =? 3
    then Next (assign_revision (snd (sscanf_u_u_u s)) config)
    else Stop [Output Stderr hw_revision_error] (Exited 1).
Proof.
  unfold handle_option, with_optarg. cbn [opt_c opt_arg].
  now destruct (sscanf_u_u_u s) as [n vals].
Qed.

(** C3, as the driver does it.  A hardware revision made of exactly
    three decimal numerals separated by two dots is accepted: [sscanf]
    converts three fields, and the numbers the numerals denote become
    major, minor and patch, as they are when they are at most 2^32 - 1
    and reduced to [unsigned int] otherwise.  The strings [sscanf]
    converts in full are those that begin with three integers, each a
    decimal numeral that white space and a sign may precede, the first
    and the second followed at once by a dot; what follows the third is
    not looked at.  For every other string, among them every string with
    fewer than two dots, [main] prints the format error on stderr and
    returns 1, the status the process exits with, having done nothing
    else: no allocation and no call into the engine. *)
Theorem hw_revision_parsing
  (s : string) (pre post : list GetoptResult) (env : Env) (w : World)
  (config : CEmulatorConfig)
  (Hpre : parse_options program_name pre default_config = Next config) :
  (three_integers s = true ->
     exists a b c,
       s = a ++ "." ++ b ++ "." ++ c
       /\ numeral 10 a = true /\ numeral 10 b = true /\ numeral 10 c = true
       /\ sscanf_u_u_u s =
            (3, [as_uint (positional 10 a); as_uint (positional 10 b);
                 as_uint (positional 10 c)])
       /\ handle_option program_name (mk_opt 139 (Some s)) config =
            Next (set_int hw_revision_patch (as_uint (positional 10 c))
                    (set_int hw_revision_minor (as_uint (positional 10 b))
                       (set_int hw_revision_major (as_uint (positional 10 a))
                          config)))
       /\ (positional 10 a <= UINT_MAX ->
           as_uint (positional 10 a) = positional 10 a)
       /\ (positional 10 b <= UINT_MAX ->
           as_uint (positional 10 b) = positional 10 b)
       /\ (positional 10 c <= UINT_MAX ->
           as_uint (positional 10 c) = positional 10 c))
  /\ (fst (sscanf_u_u_u s) = 3 <-> revision_shape s)
  /\ (revision_shape s ->
      exists config',
        handle_option program_name (mk_opt 139 (Some s)) config = Next config')
  /\ (~ revision_shape s ->
      main program_name (pre ++ mk_opt 139 (Some s) :: post) env w =
        ([Output Stderr hw_revision_error], w, Exited 1)
      /\ value_of (process program_name
                     (pre ++ mk_opt 139 (Some s) :: post) env w) = Exited 1)
  /\ ((List.length (split_dots s) < 3)%nat -> ~ revision_shape s).
Proof.
  split; [|split; [|split; [|split]]].
  - unfold three_integers. intros Hshape.
    destruct (split_dots s) as [|a [|b [|c [|d fields]]]] eqn:Hsplit;
      try discriminate Hshape.
    apply andb_true_iff in Hshape. destruct Hshape as [Hab Hc].
    apply andb_true_iff in Hab. destruct Hab as [Ha Hb].
    assert (Hs : s = a ++ "." ++ b ++ "." ++ c).
    { rewrite <- (join_split_dots s), Hsplit. reflexivity. }
    exists a, b, c.
    pose proof (sscanf_three_numerals a b c Ha Hb Hc) as Hscan.
    rewrite <- Hs in Hscan.
    assert (Hexact : forall x, numeral 10 x = true ->
              positional 10 x <= UINT_MAX ->
              as_uint (positional 10 x) = positional 10 x).
    { intros x Hx Hmax. apply as_uint_small. split; [|exact Hmax].
      apply positional_nonneg; [lia|]. now destruct x. }
    repeat (split; [assumption|]).
    split; [rewrite handle_hw_revision, Hscan; reflexivity|].
    split; [exact (Hexact a Ha)|]. split; [exact (Hexact b Hb)|].
    exact (Hexact c Hc).
  - apply sscanf_three_shape.
  - intros Hshape. apply sscanf_three_shape in Hshape.
    rewrite handle_hw_revision, Hshape. now eexists.
  - intros Hreject. rewrite process_status.
    assert (Hmain :
      main program_name (pre ++ mk_opt 139 (Some s) :: post) env w =
        ([Output Stderr hw_revision_error], w, Exited 1)).
    { unfold main. rewrite parse_options_app, Hpre. cbn [parse_options].
      rewrite handle_hw_revision.
      destruct (Z.eqb_spec (fst (sscanf_u_u_u s)) 3) as [E|_];
        [|reflexivity].
      now apply sscanf_three_shape in E. }
    now rewrite Hmain.
  - intros Hlen Hshape. apply revision_shape_dots in Hshape. lia.
Qed.

(** C5, as the driver does it.  When [aligned_alloc] fails, [main]
    reports it with the system's error text and returns 1 without
    initializing the engine or touching the terminal.  When the [malloc]
    of the UART buffer fails, [free_run] reports it, restores the
    terminal and returns without a single step of the engine; [main]
    then finishes as after any run, with the final drain, the destroy and
    the free, and returns 0. *)
Theorem allocation_failures
  (opts : list GetoptResult) (env : Env) (w : World)
  (config : CEmulatorConfig)
  (Hparse : parse_options program_name opts default_config = Next config)
  (Hreq : forall f, In f required -> cfg_str config f <> None) :
  let r := main program_name opts env w in
  let w0 := set_atexit_registered true w in
  (env_alloc_ok env = false ->
     events_of r =
       (startup_events env
        ++ [Output Stderr ("Failed to allocate memory: "
                            ++ env_strerror env ++ nl)])%list
     /\ world_of r = w0
     /\ value_of r = Exited 1
     /\ value_of (process program_name opts env w) = Exited 1)
  /\ (env_uart_malloc_ok env = false ->
      free_run env w0 =
        ([Output Stdout ("Running emulator in normal mode..." ++ nl);
          Output Stdout ("Console input enabled - type characters to send to UART RX" ++ nl)]
         ++ events_of (enable_raw_mode w0)
         ++ [Malloc uart_buffer_size false;
             Output Stderr ("Failed to allocate UART buffer" ++ nl)]
         ++ restore_events (exec enable_raw_mode w0),
         after_disable (exec enable_raw_mode w0), Finished)%list)
  /\ (env_uart_malloc_ok env = false ->
      env_alloc_ok env = true -> env_init env = Success ->
      (cfg_int config i3c_port <> 0 -> env_i3c env = Success) ->
      env_gdb_mode env = false ->
      events_of r =
        (startup_events env ++ init_events config env
         ++ events_of (free_run env w0)
         ++ final_drain env
         ++ [Engine emulator_destroy; Free memory;
             Output Stdout ("Emulator cleaned up" ++ nl)])%list
      /\ filter is_step (events_of r) = []
      /\ terminal_raw_mode (world_of r) = false
      /\ value_of r = Exited 0
      /\ value_of (process program_name opts env w) = Exited 0).
Proof.
  cbv zeta. rewrite process_status.
  rewrite (main_valid opts env w config Hparse Hreq).
  set (w0 := set_atexit_registered true w).
  assert (Hrun : env_uart_malloc_ok env = false ->
    free_run env w0 =
      ([Output Stdout ("Running emulator in normal mode..." ++ nl);
        Output Stdout ("Console input enabled - type characters to send to UART RX" ++ nl)]
       ++ events_of (enable_raw_mode w0)
       ++ [Malloc uart_buffer_size false;
           Output Stderr ("Failed to allocate UART buffer" ++ nl)]
       ++ restore_events (exec enable_raw_mode w0),
       after_disable (exec enable_raw_mode w0), Finished)%list).
  { intros Hmalloc. unfold free_run, printf, fprintf.
    unfold bind, emit, ret, exec, events_of, world_of.
    rewrite Hmalloc. cbn [negb].
    destruct (enable_raw_mode w0) as [[ee we] []].
    cbv beta iota zeta. rewrite disable_raw_mode_run.
    cbn [fst snd app]. now rewrite !app_nil_r. }
  split; [|split].
  - intros Halloc.
    unfold run_engine, startup_events, printf, fprintf.
    unfold bind, emit, ret. rewrite Halloc.
    repeat split.
  - exact Hrun.
  - intros Hmalloc Halloc Hinit Hi3c Hgdb. specialize (Hrun Hmalloc).
    unfold run_engine, startup_events, init_events, final_drain.
    unfold printf, fprintf. unfold bind, emit, ret.
    rewrite Halloc, Hinit, Hgdb. cbn [negb].
    assert (Hi : (if negb (cfg_int config i3c_port =? 0)
                  then env_i3c env else Success) = Success).
    { destruct (cfg_int config i3c_port =? 0) eqn:E; [reflexivity|].
      apply Hi3c. now apply Z.eqb_neq. }
    assert (Hns : filter is_step (events_of (free_run env w0)) = []).
    { rewrite Hrun. unfold events_of at 1. cbn [fst snd].
      rewrite !filter_app, enable_raw_mode_no_step, restore_events_no_step.
      reflexivity. }
    revert Hns Hrun.
    destruct (negb (cfg_int config i3c_port =? 0)) eqn:Eport;
      [rewrite Hi|];
      destruct (0 <? Z.of_nat (String.length (env_final_uart env)));
      cbv beta iota zeta;
      destruct (free_run env w0) as [[E W] fin];
      intros Hns Hrun; injection Hrun as _ HW Hfin; subst W fin;
      unfold events_of, world_of, value_of in *; cbn [fst snd] in *;
      rewrite disable_raw_mode_twice;
      cbv beta iota zeta; cbn [fst snd];
      (split; [now rewrite ?app_nil_r|]);
      (split; [cbn [app filter is_step]; rewrite !filter_app, Hns;
               reflexivity|]);
      (split; [apply disable_raw_mode_flag | split; reflexivity]).
Qed.

End Main.

Lemma sample_options_parse :
  parse_options "emulator" sample_options default_config = Next sample_config.
Proof. reflexivity. Qed.

Lemma sample_config_required (f : StrField) :
  In f required -> cfg_str sample_config f <> None.
Proof.
  intros [<-|[<-|[<-|[<-|[<-|[]]]]]]; discriminate.
Qed.

(** C1 on a command line with the ROM and firmware paths only. *)
Lemma missing_required_path_witness :
  let opts := [mk_opt 114 (Some "rom.bin"); mk_opt 102 (Some "runtime.bin")] in
  let r := main "emulator" opts sample_env (initial_world sample_tty) in
  In caliptra_rom_path required
  /\ supplied caliptra_rom_path opts = false
  /\ events_of r =
       Output Stderr (required_error caliptra_rom_path)
         :: map (Output Stdout) (usage_text "emulator")
  /\ value_of r = Exited 1
  /\ (forall call, ~ In (Engine call) (events_of r)).
Proof.
  intros opts r.
  assert (Hin : In caliptra_rom_path required) by (cbn; tauto).
  destruct (missing_required_path "emulator" opts sample_env
              (initial_world sample_tty) caliptra_rom_path Hin eq_refl)
    as (_ & Hengine & _ & _ & _).
  split; [exact Hin|]. split; [reflexivity|]. split; [reflexivity|].
  split; [reflexivity | exact Hengine].
Defined.

(** C1 as stated fails: with the help option, and no path supplied,
    [main] prints the usage text and returns 0. *)
Lemma help_without_paths_exits_0 :
  ~ missing_path_is_fatal "emulator" [mk_opt 104 None] sample_env
      (initial_world sample_tty).
Proof.
  intros Hclaim.
  assert (Hmissing : exists f, In f required
                               /\ supplied f [mk_opt 104 None] = false).
  { exists rom_path. split; [cbn; tauto | reflexivity]. }
  destruct (Hclaim Hmissing) as (Hstatus & _).
  vm_compute in Hstatus. discriminate Hstatus.
Qed.

(** C3 on the revisions 2.1.0, accepted, and 2.0, rejected. *)
Lemma hw_revision_parsing_witness :
  let opts := (sample_options ++ [mk_opt 139 (Some "2.0")])%list in
  three_integers "2.1.0" = true
  /\ sscanf_u_u_u "2.1.0" = (3, [2; 1; 0])
  /\ (List.length (split_dots "2.0") < 3)%nat
  /\ ~ revision_shape "2.0"
  /\ main "emulator" opts sample_env (initial_world sample_tty) =
       ([Output Stderr hw_revision_error], initial_world sample_tty, Exited 1).
Proof.
  intros opts.
  assert (Hdots : (List.length (split_dots "2.0") < 3)%nat)
    by (vm_compute; lia).
  destruct (hw_revision_parsing "emulator" "2.1.0" sample_options []
              sample_env (initial_world sample_tty) sample_config
              sample_options_parse) as (Haccept & _).
  destruct (Haccept eq_refl) as (a & b & c & _ & _ & _ & _ & Hscan & _).
  destruct (hw_revision_parsing "emulator" "2.0" sample_options []
              sample_env (initial_world sample_tty) sample_config
              sample_options_parse) as (_ & _ & _ & Hmain & Hfew).
  destruct (Hmain (Hfew Hdots)) as (Hrun & _).
  split; [reflexivity|]. split; [reflexivity|]. split; [exact Hdots|].
  split; [exact (Hfew Hdots) | exact Hrun].
Defined.

(** C3 as stated fails: text after the third integer is accepted. *)
Lemma hw_revision_with_suffix_is_accepted :
  ~ accepts_exactly_three_integers "2.0.0-rc1".
Proof.
  intros [Honly_if _]. specialize (Honly_if eq_refl). discriminate Honly_if.
Qed.

(** C5 on the two environments in which an allocation fails. *)
Lemma allocation_failures_witness :
  value_of (main "emulator" sample_options env_no_memory
              (initial_world sample_tty)) = Exited 1
  /\ value_of (main "emulator" sample_options env_no_uart_buffer
                 (initial_world sample_tty)) = Exited 0
  /\ filter is_step
       (events_of (main "emulator" sample_options env_no_uart_buffer
                     (initial_world sample_tty))) = [].
Proof.
  destruct (allocation_failures "emulator" sample_options env_no_memory
              (initial_world sample_tty) sample_config
              sample_options_parse sample_config_required)
    as (Hmemory & _).
  destruct (Hmemory eq_refl) as (_ & _ & Hstatus1 & _).
  destruct (allocation_failures "emulator" sample_options env_no_uart_buffer
              (initial_world sample_tty) sample_config
              sample_options_parse sample_config_required)
    as (_ & _ & Hbuffer).
  assert (Hi3c : cfg_int sample_config i3c_port <> 0 ->
                 env_i3c env_no_uart_buffer = Success) by reflexivity.
  destruct (Hbuffer eq_refl eq_refl eq_refl Hi3c eq_refl)
    as (_ & Hsteps & _ & Hstatus0 & _).
  split; [exact Hstatus1|]. split; [exact Hstatus0 | exact Hsteps].
Defined.

(** C5 as stated fails: after the UART buffer could not be allocated the
    process exits with status 0. *)
Lemma uart_buffer_failure_exits_0 :
  ~ allocation_failure_is_fatal "emulator" sample_options env_no_uart_buffer
      (initial_world sample_tty).
Proof.
  intros Hclaim.
  assert (Hstatus :
    value_of (process "emulator" sample_options env_no_uart_buffer
                (initial_world sample_tty)) = Exited 1).
  { apply Hclaim. left. exists uart_buffer_size.
    vm_compute. repeat (first [left; reflexivity | right]). }
  vm_compute in Hstatus. discriminate Hstatus.
Qed.

(** C9 on a debug session that fails with error 5. *)
Lemma gdb_failure_is_only_reported_witness :
  let r := main "emulator" sample_options env_gdb_failure
             (initial_world sample_tty) in
  env_gdb_mode env_gdb_failure = true
  /\ env_gdb_result env_gdb_failure = Failed 5
  /\ value_of r = Exited 0
  /\ terminal_raw_mode (world_of r) = false.
Proof.
  intros r.
  assert (Hi3c : cfg_int sample_config i3c_port <> 0 ->
                 env_i3c env_gdb_failure = Success) by reflexivity.
  destruct (gdb_failure_is_only_reported "emulator" sample_options
              env_gdb_failure (initial_world sample_tty) sample_config 5
              sample_options_parse sample_config_required
              eq_refl eq_refl Hi3c eq_refl eq_refl)
    as (_ & Hstatus & Hraw & _).
  split; [reflexivity|]. split; [reflexivity|].
  split; [exact Hstatus | exact Hraw].
Defined.

(** ** More on the TerminalController *)

Section RawMode.

Lemma mask_testbit (mask : Z) (bits : list Z) (i : Z) :
  0 <= mask < 2 ^ 16 ->
  (forall j, 0 <= j < 16 -> Z.testbit mask j = bit_in j bits) ->
  (forall j, In j bits -> 0 <= j < 16) ->
  0 <= i -> Z.testbit mask i = bit_in i bits.
Proof.
  intros Hmask Hlow Hbits Hi.
  destruct (Z.lt_ge_cases i 16) as [Hlt|Hge]; [apply Hlow; lia|].
  assert (Hlog : Z.log2 mask < i).
  { destruct (Z.eq_dec mask 0) as [->|Hnz]; [cbn; lia|].
    apply Z.lt_le_trans with 16; [|exact Hge].
    apply Z.log2_lt_pow2; lia. }
  rewrite (Z.bits_above_log2 mask i (proj1 Hmask) Hlog).
  symmetry. unfold bit_in. apply not_true_is_false. intros Hex.
    apply existsb_exists in Hex. destruct Hex as (j & Hj & Heq).
    apply Z.eqb_eq in Heq. subst j. specialize (Hbits i Hj). lia.
Qed.

Lemma below_16_cases (j : Z) (P : Z -> Prop) :
  0 <= j < 16 ->
  P 0 -> P 1 -> P 2 -> P 3 -> P 4 -> P 5 -> P 6 -> P 7 -> P 8 -> P 9 ->
  P 10 -> P 11 -> P 12 -> P 13 -> P 14 -> P 15 -> P j.
Proof.
  intros Hj. intros.
  assert (Hc : j = 0 \/ j = 1 \/ j = 2 \/ j = 3 \/ j = 4 \/ j = 5 \/ j = 6
               \/ j = 7 \/ j = 8 \/ j = 9 \/ j = 10 \/ j = 11 \/ j = 12
               \/ j = 13 \/ j = 14 \/ j = 15) by lia.
  repeat (destruct Hc as [->|Hc]; [assumption|]). now subst j.
Qed.

Lemma raw_lflag_mask_testbit (i : Z) :
  0 <= i -> Z.testbit raw_lflag_mask i = bit_in i raw_lflag_bits.
Proof.
  apply mask_testbit.
  - vm_compute. split; [discriminate | reflexivity].
  - intros j Hj. apply (below_16_cases j); [exact Hj|..]; reflexivity.
  - intros j Hj. cbn in Hj. lia.
Qed.

Lemma raw_iflag_mask_testbit (i : Z) :
  0 <= i -> Z.testbit raw_iflag_mask i = bit_in i raw_iflag_bits.
Proof.
  apply mask_testbit.
  - vm_compute. split; [discriminate | reflexivity].
  - intros j Hj. apply (below_16_cases j); [exact Hj|..]; reflexivity.
  - intros j Hj. cbn in Hj. lia.
Qed.

Lemma set_cc_length (cc : list Z) (i : nat) (v : Z) :
  List.length (set_cc cc i v) = List.length cc.
Proof.
  revert i. induction cc as [|x cc IH]; intros [|i]; cbn; auto.
Qed.

Lemma set_cc_nth (cc : list Z) (i j : nat) (v d : Z) :
  nth j (set_cc cc i v) d =
    if (Nat.eqb j i && Nat.ltb i (List.length cc))%bool then v else nth j cc d.
Proof.
  revert i j. induction cc as [|x cc IH]; intros i j.
  - cbn. rewrite andb_false_r. now destruct i.
  - destruct i as [|i], j as [|j]; cbn [set_cc nth]; try reflexivity.
    rewrite IH. reflexivity.
Qed.

(** X1.  The raw mode computed by [enable_raw_mode] differs from the
    saved mode in exactly this: in [c_lflag] the bits ISIG, ICANON, ECHO,
    ECHOE, ECHOK, ECHONL and IEXTEN are clear, in [c_iflag] the bits
    INLCR, ICRNL and IXON are clear, and the control characters VMIN and
    VTIME are 0.  Every other bit of the two, [c_oflag] (so output
    processing), [c_cflag] and every other control character are those
    of the saved mode. *)
Theorem make_raw_changes (t : termios) (i : Z) (j : nat) (Hi : 0 <= i) :
  Z.testbit (c_lflag (make_raw t)) i =
    Z.testbit (c_lflag t) i && negb (bit_in i raw_lflag_bits)
  /\ Z.testbit (c_iflag (make_raw t)) i =
      Z.testbit (c_iflag t) i && negb (bit_in i raw_iflag_bits)
  /\ c_oflag (make_raw t) = c_oflag t
  /\ c_cflag (make_raw t) = c_cflag t
  /\ List.length (c_cc (make_raw t)) = List.length (c_cc t)
  /\ nth j (c_cc (make_raw t)) 0 =
      if ((Nat.eqb j VMIN || Nat.eqb j VTIME)
          && Nat.ltb j (List.length (c_cc t)))%bool
      then 0 else nth j (c_cc t) 0.
Proof.
  unfold make_raw. cbn [c_lflag c_iflag c_oflag c_cflag c_cc].
  fold raw_lflag_mask. fold raw_iflag_mask.
  rewrite !Z.land_spec, !Z.lnot_spec by exact Hi.
  rewrite (raw_lflag_mask_testbit i Hi), (raw_iflag_mask_testbit i Hi).
  repeat split.
  - now rewrite !set_cc_length.
  - rewrite !set_cc_nth, set_cc_length.
    destruct (Nat.eqb_spec j VTIME) as [->|Hvt].
    + cbn [Nat.eqb VMIN VTIME orb andb].
      now destruct (Nat.ltb 5 (List.length (c_cc t))).
    + cbn [andb]. rewrite orb_false_r.
      destruct (Nat.eqb_spec j VMIN) as [->|Hvm]; reflexivity.
Qed.

(** X1 at the ECHO bit and the VMIN character of a cooked console. *)
Lemma make_raw_changes_witness :
  0 <= 3
  /\ Z.testbit (c_lflag sample_termios) 3 = true
  /\ Z.testbit (c_lflag (make_raw sample_termios)) 3 = false
  /\ nth 6 (c_cc sample_termios) 0 = 1
  /\ nth 6 (c_cc (make_raw sample_termios)) 0 = 0.
Proof.
  assert (Hi : 0 <= 3) by lia.
  destruct (make_raw_changes sample_termios 3 6 Hi) as (Hl & _ & _ & _ & _ & Hcc).
  split; [exact Hi|]. split; [reflexivity|].
  split; [rewrite Hl; reflexivity|].
  split; [reflexivity|]. rewrite Hcc. reflexivity.
Defined.

Lemma set_cc_same (cc : list Z) (i : nat) (v : Z) :
  set_cc (set_cc cc i v) i v = set_cc cc i v.
Proof.
  revert i. induction cc as [|x cc IH]; intros [|i]; cbn; auto.
  now rewrite IH.
Qed.

Lemma set_cc_swap (cc : list Z) (i j : nat) (u v : Z) :
  i <> j -> set_cc (set_cc cc i u) j v = set_cc (set_cc cc j v) i u.
Proof.
  revert i j. induction cc as [|x cc IH]; intros [|i] [|j] Hij; cbn; auto.
  - contradiction.
  - rewrite IH; auto.
Qed.

(** X2.  Making a raw mode raw changes nothing: the computation of
    [enable_raw_mode] is idempotent on terminal modes. *)
Theorem make_raw_idempotent (t : termios) : make_raw (make_raw t) = make_raw t.
Proof.
  unfold make_raw. cbn [c_lflag c_iflag c_oflag c_cflag c_cc].
  rewrite <- !Z.land_assoc, !Z.land_diag.
  f_equal.
  set (A := set_cc (c_cc t) VMIN 0).
  rewrite (set_cc_swap A VTIME VMIN 0 0) by discriminate.
  unfold A. now rewrite set_cc_same, set_cc_same.
Qed.

(** X3.  With raw mode not active, [enable_raw_mode] either switches the
    device to the raw mode of the mode it had, which it saves, or leaves
    the device as it was with the flag clear.  On a stdin that is not a
    terminal it makes the one [tcgetattr] and changes nothing at all;
    when the terminal refuses the new mode, the mode read is saved all
    the same. *)
Theorem enable_raw_mode_outcomes (w : World)
  (Hoff : terminal_raw_mode w = false) :
  let r := enable_raw_mode w in
  let w' := world_of r in
  (terminal_raw_mode w' = true ->
     restorable w = true
     /\ events_of r =
          [Tcgetattr true; Tcsetattr (make_raw (tty_attrs (tty w))) true]
     /\ tty_attrs (tty w') = make_raw (tty_attrs (tty w))
     /\ original_termios w' = tty_attrs (tty w))
  /\ (terminal_raw_mode w' = false -> restorable w = false /\ tty w' = tty w)
  /\ (tty_isatty (tty w) = false -> r = ([Tcgetattr false], w, tt))
  /\ (tty_isatty (tty w) = true -> tty_settable (tty w) = false ->
      r = ([Tcgetattr true; Tcsetattr (make_raw (tty_attrs (tty w))) false],
           set_original_termios (tty_attrs (tty w)) w, tt))
  /\ atexit_registered w' = atexit_registered w.
Proof.
  destruct w as [orig raw atx [isatty attrs settable]].
  cbn in Hoff. subst raw.
  unfold enable_raw_mode, tcgetattr, tcsetattr, bind, get, put, ret,
    events_of, world_of, restorable.
  destruct isatty, settable; cbn; repeat split; intros; try discriminate;
    reflexivity.
Qed.

(** X3 on a console in cooked mode and on a redirected stdin. *)
Lemma enable_raw_mode_outcomes_witness :
  terminal_raw_mode (initial_world sample_tty) = false
  /\ tty_attrs (tty (exec enable_raw_mode (initial_world sample_tty))) =
       make_raw sample_termios
  /\ enable_raw_mode (initial_world (mk_tty false zero_termios false)) =
       ([Tcgetattr false], initial_world (mk_tty false zero_termios false), tt).
Proof.
  destruct (enable_raw_mode_outcomes (initial_world sample_tty) eq_refl)
    as (Hon & _).
  destruct (Hon eq_refl) as (_ & _ & Hattrs & _).
  destruct (enable_raw_mode_outcomes
              (initial_world (mk_tty false zero_termios false)) eq_refl)
    as (_ & _ & Hnotty & _).
  split; [reflexivity|]. split; [exact Hattrs | exact (Hnotty eq_refl)].
Defined.

End RawMode.

(** ** More on the RunLoopDriver *)

Section RunLoop.

Lemma events_of_run {A : Type} (e : list Event) (w : World) (a : A) :
  events_of (e, w, a) = e.
Proof. reflexivity. Qed.

Lemma world_of_run {A : Type} (e : list Event) (w : World) (a : A) :
  world_of (e, w, a) = w.
Proof. reflexivity. Qed.

Lemma value_of_run {A : Type} (e : list Event) (w : World) (a : A) :
  value_of (e, w, a) = a.
Proof. reflexivity. Qed.

(** One pass of the loop, case by case. *)
Lemma loop_body_run (it : IterInput) (k : Z) (w : World) :
  loop_body it k w =
    if breaks it k then
      (poll_events it k ++ restore_events w ++ [Free uart_buffer], after_disable w,
       inl Finished)%list
    else
      match in_action it with
      | Continue =>
          if k =? INT_MAX then
            (poll_events it k ++ step_block it, w, inl Overflowed)%list
          else
            (poll_events it k ++ step_block it
               ++ (if (k + 1) mod 1000 =? 0 then [Usleep 100] else []),
             w, inr (k + 1))%list
      | a =>
          (poll_events it k ++ step_block it
             ++ [Output Stdout (stop_message a k)]
             ++ restore_events w ++ [Free uart_buffer],
           after_disable w, inl Finished)%list
      end.
Proof.
  unfold loop_body, poll_console, breaks, poll_events, polls, step_block,
    normalized, ETX, DEL, printf, fprintf.
  unfold bind, emit, ret.
  destruct (k mod 100 =? 0); cbn [andb].
  - destruct (in_read it) as [ch|].
    + destruct (code ch =? 3).
      * rewrite disable_raw_mode_run. reflexivity.
      * destruct (in_rx_ready it);
          destruct (0 <? Z.of_nat (String.length (in_uart it)));
          destruct (in_action it); cbv beta iota zeta;
          rewrite ?disable_raw_mode_run;
          try (destruct (k =? INT_MAX); [reflexivity|]);
          try (destruct ((k + 1) mod 1000 =? 0)); reflexivity.
    + destruct (0 <? Z.of_nat (String.length (in_uart it)));
        destruct (in_action it); cbv beta iota zeta;
        rewrite ?disable_raw_mode_run;
        try (destruct (k =? INT_MAX); [reflexivity|]);
        try (destruct ((k + 1) mod 1000 =? 0)); reflexivity.
  - destruct (0 <? Z.of_nat (String.length (in_uart it)));
      destruct (in_action it); cbv beta iota zeta;
      rewrite ?disable_raw_mode_run;
      try (destruct (k =? INT_MAX); [reflexivity|]);
      try (destruct ((k + 1) mod 1000 =? 0)); reflexivity.
Qed.

Lemma free_run_loop_cons (it : IterInput) (its : list IterInput) (k : Z)
  (w : World) :
  free_run_loop (it :: its) k w =
    if breaks it k then
      (poll_events it k ++ restore_events w ++ [Free uart_buffer], after_disable w,
       Finished)%list
    else
      match in_action it with
      | Continue =>
          if k =? INT_MAX then
            (poll_events it k ++ step_block it, w, Overflowed)%list
          else
            let r := free_run_loop its (k + 1) w in
            (poll_events it k ++ step_block it ++ yield_events (k + 1)
               ++ events_of r, world_of r, value_of r)%list
      | a =>
          (poll_events it k ++ step_block it
             ++ [Output Stdout (stop_message a k)]
             ++ restore_events w ++ [Free uart_buffer],
           after_disable w, Finished)%list
      end.
Proof.
  cbn [free_run_loop]. unfold bind. rewrite loop_body_run.
  unfold yield_events, ret.
  destruct (breaks it k); [now rewrite app_nil_r|].
  destruct (in_action it); try now rewrite app_nil_r.
  destruct (k =? INT_MAX); [now rewrite app_nil_r|].
  destruct (free_run_loop its (k + 1) w) as [[e2 w2] v2].
  unfold events_of, world_of, value_of. cbn [fst snd].
  now rewrite <- !app_assoc.
Qed.

(** Passes that all go on leave the loop running, in the same world. *)
Lemma all_go_on_run (its : list IterInput) (k : Z) (w : World) :
  all_go_on its k = true ->
  value_of (free_run_loop its k w) = Unfinished
  /\ world_of (free_run_loop its k w) = w.
Proof.
  revert k. induction its as [|it its IH]; intros k Hgo; [now split|].
  cbn [all_go_on] in Hgo. apply andb_true_iff in Hgo. destruct Hgo as [Hgo Hrest].
  apply andb_true_iff in Hgo. destruct Hgo as [Hit Hk].
  unfold goes_on in Hit. apply andb_true_iff in Hit. destruct Hit as [Hb Ha].
  rewrite free_run_loop_cons.
  destruct (breaks it k); [discriminate|].
  destruct (in_action it); try discriminate.
  destruct (k =? INT_MAX); [discriminate|].
  cbv zeta. unfold value_of at 1, world_of at 1. cbn [fst snd].
  exact (IH (k + 1) Hrest).
Qed.

(** A run that is still going on after some passes, continued. *)
Lemma free_run_loop_app (its more : list IterInput) (k : Z) (w : World) :
  value_of (free_run_loop its k w) = Unfinished ->
  world_of (free_run_loop its k w) = w
  /\ free_run_loop (its ++ more) k w =
       (events_of (free_run_loop its k w)
          ++ events_of (free_run_loop more (k + Z.of_nat (List.length its)) w),
        world_of (free_run_loop more (k + Z.of_nat (List.length its)) w),
        value_of (free_run_loop more (k + Z.of_nat (List.length its)) w))%list.
Proof.
  revert k. induction its as [|it its IH]; intros k.
  - cbn [app List.length Z.of_nat]. rewrite Z.add_0_r.
    intros _. split; [reflexivity|].
    now destruct (free_run_loop more k w) as [[e2 w2] v2].
  - cbn [app]. rewrite !free_run_loop_cons.
    destruct (breaks it k); [discriminate|].
    destruct (in_action it); try discriminate.
    destruct (k =? INT_MAX); [discriminate|].
    cbv zeta. rewrite !value_of_run, !world_of_run, !events_of_run.
    replace (k + Z.of_nat (List.length (it :: its)))
      with (k + 1 + Z.of_nat (List.length its))
      by (cbn [List.length]; lia).
    intros Hrun. destruct (IH (k + 1) Hrun) as [Hw Happ].
    split; [exact Hw|]. rewrite Happ.
    rewrite !value_of_run, !world_of_run, !events_of_run.
    now rewrite <- !app_assoc.
Qed.

(** X4.  The loop carries nothing from pass to pass but [step_count].
    While it is still running after some passes, it has not touched the
    process state, and a run over more passes is that run followed by
    the run over the rest, begun with [step_count] advanced by the
    number of passes.  Once the loop has ended, by Ctrl-C, by the action
    of a step or by the overflow of [step_count], nothing that comes
    after is looked at: no further read, step or drain. *)
Theorem free_run_loop_extension
  (its more : list IterInput) (k : Z) (w : World) :
  let r := free_run_loop its k w in
  (value_of r = Unfinished ->
     world_of r = w
     /\ free_run_loop (its ++ more) k w =
          let r' := free_run_loop more (k + Z.of_nat (List.length its)) w in
          (events_of r ++ events_of r', world_of r', value_of r')%list)
  /\ (value_of r <> Unfinished ->
      free_run_loop (its ++ more) k w = r).
Proof.
  cbv zeta. split; [apply free_run_loop_app|].
  revert k. induction its as [|it its IH]; intros k.
  - intros Hne. now contradiction Hne.
  - cbn [app]. rewrite !free_run_loop_cons.
    destruct (breaks it k); [reflexivity|].
    destruct (in_action it); try reflexivity.
    destruct (k =? INT_MAX); [reflexivity|].
    cbv zeta. rewrite !value_of_run.
    intros Hend. now rewrite (IH (k + 1) Hend).
Qed.

Lemma count_app (p : Event -> bool) (xs ys : list Event) :
  count p (xs ++ ys) = count p xs + count p ys.
Proof.
  unfold count. rewrite filter_app, length_app. lia.
Qed.

Lemma poll_events_counts (it : IterInput) (k : Z) :
  count is_read (poll_events it k) = (if polls k then 1 else 0)
  /\ count is_step (poll_events it k) = 0
  /\ count is_usleep (poll_events it k) = 0
  /\ filter is_step_or_drain (poll_events it k) = [].
Proof.
  unfold poll_events. destruct (polls k); [|now repeat split].
  destruct (in_read it) as [ch|]; [|now repeat split].
  destruct (code ch =? ETX); [now repeat split|].
  destruct (in_rx_ready it); now repeat split.
Qed.

Lemma step_block_counts (it : IterInput) :
  count is_read (step_block it) = 0
  /\ count is_step (step_block it) = 1
  /\ count is_usleep (step_block it) = 0
  /\ filter is_step_or_drain (step_block it) = step_block it.
Proof.
  unfold step_block.
  destruct (0 <? Z.of_nat (String.length (in_uart it))); now repeat split.
Qed.

Lemma yield_events_counts (k : Z) :
  count is_read (yield_events k) = 0
  /\ count is_step (yield_events k) = 0
  /\ count is_usleep (yield_events k) = (if k mod 1000 =? 0 then 1 else 0)
  /\ filter is_step_or_drain (yield_events k) = [].
Proof.
  unfold yield_events. destruct (k mod 1000 =? 0); now repeat split.
Qed.

Lemma restore_events_counts (w : World) :
  count is_read (restore_events w) = 0
  /\ count is_step (restore_events w) = 0
  /\ count is_usleep (restore_events w) = 0
  /\ filter is_step_or_drain (restore_events w) = [].
Proof.
  unfold restore_events. destruct (terminal_raw_mode w); now repeat split.
Qed.

Lemma polls_next (k : Z) :
  (k + 1 + 99) / 100 = (k + 99) / 100 + (if polls k then 1 else 0).
Proof.
  unfold polls. destruct (Z.eqb_spec (k mod 100) 0) as [E|E];
    Z.div_mod_to_equations; lia.
Qed.

Lemma yields_next (k : Z) :
  (k + 1) / 1000 = k / 1000 + (if (k + 1) mod 1000 =? 0 then 1 else 0).
Proof.
  destruct (Z.eqb_spec ((k + 1) mod 1000) 0) as [E|E];
    Z.div_mod_to_equations; lia.
Qed.

Lemma all_go_on_counts (its : list IterInput) (k : Z) (w : World) :
  all_go_on its k = true ->
  let evs := events_of (free_run_loop its k w) in
  let n := Z.of_nat (List.length its) in
  count is_step evs = n
  /\ count is_read evs = (k + n + 99) / 100 - (k + 99) / 100
  /\ count is_usleep evs = (k + n) / 1000 - k / 1000.
Proof.
  cbv zeta. revert k. induction its as [|it its IH]; intros k Hgo.
  - cbn [List.length Z.of_nat free_run_loop]. rewrite !Z.add_0_r, !Z.sub_diag.
    now repeat split.
  - cbn [all_go_on] in Hgo. apply andb_true_iff in Hgo.
    destruct Hgo as [Hgo Hrest].
    apply andb_true_iff in Hgo. destruct Hgo as [Hit Hk].
    unfold goes_on in Hit. apply andb_true_iff in Hit. destruct Hit as [Hb Ha].
    rewrite free_run_loop_cons.
    destruct (breaks it k); [discriminate|].
    destruct (in_action it); try discriminate.
    destruct (k =? INT_MAX); [discriminate|].
    cbv zeta. rewrite !events_of_run.
    destruct (IH (k + 1) Hrest) as (Hs & Hr & Hu).
    destruct (poll_events_counts it k) as (Pr & Ps & Pu & _).
    destruct (step_block_counts it) as (Sr & Ss & Su & _).
    destruct (yield_events_counts (k + 1)) as (Yr & Ys & Yu & _).
    rewrite !count_app, Hs, Hr, Hu, Pr, Ps, Pu, Sr, Ss, Su, Yr, Ys, Yu.
    replace (Z.of_nat (List.length (it :: its)))
      with (1 + Z.of_nat (List.length its)) by (cbn [List.length]; lia).
    replace (k + (1 + Z.of_nat (List.length its)))
      with (k + 1 + Z.of_nat (List.length its)) by lia.
    pose proof (polls_next k). pose proof (yields_next k).
    repeat split; lia.
Qed.

(** X5.  The throttles of the loop.  Over [n] passes from the start of
    [free_run], each of which goes on, the engine is stepped [n] times,
    the console is read once every 100 passes, [(n + 99) / 100] times in
    all beginning with the first pass, and the loop yields with
    [usleep(100)] after every 1000th step, [n / 1000] times. *)
Theorem free_run_throttles (its : list IterInput) (w : World)
  (Hgo : all_go_on its 0 = true) :
  let evs := events_of (free_run_loop its 0 w) in
  let n := Z.of_nat (List.length its) in
  count is_step evs = n
  /\ count is_read evs = (n + 99) / 100
  /\ count is_usleep evs = n / 1000
  /\ value_of (free_run_loop its 0 w) = Unfinished.
Proof.
  cbv zeta. destruct (all_go_on_counts its 0 w Hgo) as (Hs & Hr & Hu).
  cbv zeta in Hs, Hr, Hu. rewrite Z.add_0_l in Hr, Hu.
  change ((0 + 99) / 100) with 0 in Hr. change (0 / 1000) with 0 in Hu.
  rewrite Z.sub_0_r in Hr, Hu.
  repeat split; try assumption.
  apply (all_go_on_run its 0 w Hgo).
Qed.

(** X6.  Ctrl-C on the console ends the run at once.  When, after passes
    that all went on, the poll of a pass reads the byte 3, that pass
    makes no readiness query, forwards nothing and does not step the
    engine: the terminal is restored, the UART buffer is freed and
    [free_run_loop] returns, whatever the environment would have answered
    next. *)
Theorem ctrl_c_ends_the_run
  (pre post : list IterInput) (it : IterInput) (w : World)
  (Hgo : all_go_on pre 0 = true)
  (Hbreak : breaks it (Z.of_nat (List.length pre)) = true) :
  let r := free_run_loop (pre ++ it :: post) 0 w in
  r = (events_of (free_run_loop pre 0 w)
         ++ Read (in_read it) :: restore_events w ++ [Free uart_buffer],
       after_disable w, Finished)%list
  /\ count is_step (events_of r) = Z.of_nat (List.length pre)
  /\ forwarded (events_of r) = forwarded (events_of (free_run_loop pre 0 w))
  /\ terminal_raw_mode (world_of r) = false.
Proof.
  cbv zeta.
  destruct (all_go_on_run pre 0 w Hgo) as [Hrun Hw].
  destruct (free_run_loop_app pre (it :: post) 0 w Hrun) as [_ Happ].
  rewrite Happ. clear Happ.
  cbv zeta. rewrite Z.add_0_l, free_run_loop_cons, Hbreak.
  rewrite ?events_of_run, ?world_of_run, ?value_of_run.
  assert (Hpoll : poll_events it (Z.of_nat (List.length pre)) =
                  [Read (in_read it)]).
  { unfold breaks in Hbreak. apply andb_true_iff in Hbreak.
    destruct Hbreak as [Hp Hc]. unfold poll_events. rewrite Hp.
    destruct (in_read it) as [ch|]; [|discriminate]. now rewrite Hc. }
  rewrite Hpoll. cbn [app].
  destruct (all_go_on_counts pre 0 w Hgo) as (Hs & _).
  destruct (restore_events_counts w) as (_ & Rs & _).
  split; [reflexivity|]. split; [|split].
  - rewrite count_app, Hs.
    change (Read (in_read it) :: restore_events w ++ [Free uart_buffer])
      with ([Read (in_read it)] ++ restore_events w ++ [Free uart_buffer])%list.
    rewrite !count_app, Rs. cbn. lia.
  - rewrite forwarded_app.
    change (Read (in_read it) :: restore_events w ++ [Free uart_buffer])
      with ([Read (in_read it)] ++ restore_events w ++ [Free uart_buffer])%list.
    rewrite !forwarded_app. unfold restore_events.
    destruct (terminal_raw_mode w); cbn; now rewrite app_nil_r.
  - apply disable_raw_mode_flag.
Qed.

(** X7.  A step that answers anything but [Continue] ends the run.  After
    passes that all went on, such a step is drained like any other; then
    the message for its action is printed with the number of steps that
    answered [Continue] (the last step is not counted), the terminal is
    restored, the UART buffer is freed and [free_run_loop] returns,
    whatever the environment would have answered next. *)
Theorem last_step_ends_the_run
  (pre post : list IterInput) (it : IterInput) (w : World)
  (Hgo : all_go_on pre 0 = true)
  (Hpoll : breaks it (Z.of_nat (List.length pre)) = false)
  (Hlast : in_action it <> Continue) :
  let n := Z.of_nat (List.length pre) in
  let r := free_run_loop (pre ++ it :: post) 0 w in
  r = (events_of (free_run_loop pre 0 w)
         ++ poll_events it n ++ step_block it
         ++ [Output Stdout (stop_message (in_action it) n)]
         ++ restore_events w ++ [Free uart_buffer],
       after_disable w, Finished)%list
  /\ count is_step (events_of r) = n + 1
  /\ terminal_raw_mode (world_of r) = false.
Proof.
  cbv zeta.
  destruct (all_go_on_run pre 0 w Hgo) as [Hrun Hw].
  destruct (free_run_loop_app pre (it :: post) 0 w Hrun) as [_ Happ].
  rewrite Happ. clear Happ.
  cbv zeta. rewrite Z.add_0_l, free_run_loop_cons, Hpoll.
  destruct (all_go_on_counts pre 0 w Hgo) as (Hs & _).
  destruct (restore_events_counts w) as (_ & Rs & _).
  destruct (poll_events_counts it (Z.of_nat (List.length pre)))
    as (_ & Ps & _).
  destruct (step_block_counts it) as (_ & Ss & _).
  destruct (in_action it) eqn:Ha; [contradiction| | |];
    rewrite ?events_of_run, ?world_of_run, ?value_of_run;
    (split; [reflexivity|]);
    (split; [|apply disable_raw_mode_flag]);
    rewrite !count_app, Hs, Ps, Ss, Rs; cbn; lia.
Qed.





Lemma each_step_drained_app (xs ys : list Event) :
  each_step_drained xs = true ->
  each_step_drained (xs ++ ys) = each_step_drained ys.
Proof.
  induction xs as [|e xs IH]; [reflexivity|].
  destruct e as [| | | | | | | | | | | |c]; try exact IH.
  destruct c; try exact IH.
  destruct xs as [|e2 xs]; [discriminate|].
  destruct e2 as [| | | | | | | | | | | |c2]; try discriminate.
  destruct c2; try discriminate.
  cbn [app each_step_drained] in *. intros H.
  apply andb_true_iff in H. destruct H as [Hcap H].
  rewrite Hcap. cbn [andb]. exact (IH H).
Qed.

Lemma poll_events_drained (it : IterInput) (k : Z) :
  each_step_drained (poll_events it k) = true.
Proof.
  unfold poll_events. destruct (polls k); [|reflexivity].
  destruct (in_read it) as [ch|]; [|reflexivity].
  destruct (code ch =? ETX); [reflexivity|].
  now destruct (in_rx_ready it).
Qed.

Lemma step_block_drained (it : IterInput) :
  each_step_drained (step_block it) = true.
Proof.
  unfold step_block.
  now destruct (0 <? Z.of_nat (String.length (in_uart it))).
Qed.

Lemma restore_events_drained (w : World) :
  each_step_drained (restore_events w) = true.
Proof. unfold restore_events. now destruct (terminal_raw_mode w). Qed.

Lemma yield_events_drained (k : Z) :
  each_step_drained (yield_events k) = true.
Proof. unfold yield_events. now destruct (k mod 1000 =? 0). Qed.

(** X9.  Steps and drains alternate.  In every run the engine is stepped
    in every pass up to the one that ends the loop: not in a pass whose
    poll reads Ctrl-C, and for the last time in a pass whose step does
    not answer [Continue] or finds [step_count] at [INT_MAX].  Each step
    is followed at once, with no event in between, by one drain of the
    engine's UART output into the 1024-byte buffer; the bytes the drain
    delivers are printed on stderr up to the first NUL among them, and
    stderr is flushed, exactly when the drain delivers any.  While the
    loop is still running every pass has been stepped. *)
Theorem steps_and_drains (its : list IterInput) (k : Z) (w : World) :
  let r := free_run_loop its k w in
  let m := stepped its k in
  (m <= List.length its)%nat
  /\ count is_step (events_of r) = Z.of_nat m
  /\ filter is_step_or_drain (events_of r) = flat_map step_block (firstn m its)
  /\ each_step_drained (events_of r) = true
  /\ (value_of r = Unfinished -> m = List.length its).
Proof.
  cbv zeta. revert k. induction its as [|it its IH]; intros k.
  - now repeat split.
  - rewrite free_run_loop_cons. cbn [stepped].
    destruct (poll_events_counts it k) as (_ & Ps & _ & Pf).
    destruct (step_block_counts it) as (_ & Ss & _ & Sf).
    destruct (yield_events_counts (k + 1)) as (_ & Ys & _ & Yf).
    destruct (restore_events_counts w) as (_ & Rs & _ & Rf).
    pose proof (poll_events_drained it k) as Pd.
    pose proof (step_block_drained it) as Sd.
    pose proof (yield_events_drained (k + 1)) as Yd.
    pose proof (restore_events_drained w) as Rd.
    assert (Hone : forall tail v,
      filter is_step_or_drain tail = [] -> count is_step tail = 0 ->
      each_step_drained tail = true -> v <> Unfinished ->
      (1 <= List.length (it :: its))%nat
      /\ count is_step (poll_events it k ++ step_block it ++ tail) =
           Z.of_nat 1
      /\ filter is_step_or_drain (poll_events it k ++ step_block it ++ tail) =
           flat_map step_block (firstn 1 (it :: its))
      /\ each_step_drained (poll_events it k ++ step_block it ++ tail) = true
      /\ (v = Unfinished -> 1%nat = List.length (it :: its))).
    { intros tail v Hf Hc Hd Hv.
      rewrite !filter_app, !count_app, Pf, Sf, Ps, Ss, Hf, Hc.
      rewrite (each_step_drained_app _ _ Pd), (each_step_drained_app _ _ Sd).
      cbn [firstn flat_map app List.length]. rewrite !app_nil_r.
      split; [lia|]. split; [lia|]. split; [reflexivity|].
      split; [exact Hd|]. intros Hu. now contradiction Hv. }
    destruct (breaks it k).
    { rewrite !events_of_run, !value_of_run, !filter_app, !count_app, Pf, Rf,
        Ps, Rs.
      rewrite (each_step_drained_app _ _ Pd), (each_step_drained_app _ _ Rd).
      split; [cbn [List.length]; lia|]. split; [cbn; lia|].
      split; [reflexivity|]. split; [reflexivity|]. discriminate. }
    destruct (in_action it) eqn:Ha.
    + destruct (k =? INT_MAX).
      * rewrite !events_of_run, !value_of_run.
        specialize (Hone [] Overflowed eq_refl eq_refl eq_refl
                      ltac:(discriminate)).
        now rewrite !app_nil_r in Hone.
      * destruct (IH (k + 1)) as (Hm & Hc & Hf & Hd & Hu).
        cbv zeta.
        rewrite !events_of_run, !value_of_run, !filter_app, !count_app, Pf, Sf,
          Yf, Hf, Ps, Ss, Ys, Hc.
        rewrite (each_step_drained_app _ _ Pd), (each_step_drained_app _ _ Sd),
          (each_step_drained_app _ _ Yd).
        cbn [firstn flat_map app List.length].
        split; [lia|]. split; [lia|]. split; [reflexivity|].
        split; [exact Hd|]. intros Hrun. now rewrite (Hu Hrun).
    + rewrite !events_of_run, !value_of_run.
      apply (Hone _ Finished); try discriminate.
      * rewrite !filter_app, Rf. reflexivity.
      * rewrite !count_app, Rs. reflexivity.
      * cbn [app each_step_drained].
        now rewrite (each_step_drained_app _ _ Rd).
    + rewrite !events_of_run, !value_of_run.
      apply (Hone _ Finished); try discriminate.
      * rewrite !filter_app, Rf. reflexivity.
      * rewrite !count_app, Rs. reflexivity.
      * cbn [app each_step_drained].
        now rewrite (each_step_drained_app _ _ Rd).
    + rewrite !events_of_run, !value_of_run.
      apply (Hone _ Finished); try discriminate.
      * rewrite !filter_app, Rf. reflexivity.
      * rewrite !count_app, Rs. reflexivity.
      * cbn [app each_step_drained].
        now rewrite (each_step_drained_app _ _ Rd).
Qed.

End RunLoop.

(** ** More on the ConfigBuilder *)

Section Options.

Variable program_name : string.

Ltac each_case leaf :=
  repeat match goal with
         | |- context [match ?p with xH => _ | _ => _ end] =>
             is_var p; destruct p; try (progress cbn beta iota); try leaf
         end.

Ltac each_option o leaf :=
  destruct o as [c arg]; unfold handle_option, with_optarg;
  cbn [opt_c opt_arg];
  destruct c as [|p|p]; try leaf; each_case leaf.

Lemma assign_revision_mem (vals : list Z) (config : CEmulatorConfig) :
  cfg_mem (assign_revision vals config) = cfg_mem config.
Proof. destruct vals as [|a [|b [|c vals]]]; reflexivity. Qed.

Lemma assign_revision_other (vals : list Z) (config : CEmulatorConfig)
  (f : IntField) :
  flag_option f <> None \/ f = capture_uart_output ->
  cfg_int (assign_revision vals config) f = cfg_int config f.
Proof.
  intros Hf. destruct vals as [|a [|b [|c vals]]]; try reflexivity;
    destruct f; try reflexivity; destruct Hf as [Hf|Hf];
    solve [now contradiction Hf | discriminate Hf].
Qed.

(** An option that falls out of the [switch] sets a memory field exactly
    when it is an override of that field, to the number parsed from its
    argument. *)
Lemma handle_option_next_mem (o : GetoptResult)
  (config config' : CEmulatorConfig) (f : MemField) :
  handle_option program_name o config = Next config' ->
  if overrides f o
  then exists s, opt_arg o = Some s
                 /\ cfg_mem config' f = parse_hex_or_decimal s
  else cfg_mem config' f = cfg_mem config f.
Proof.
  unfold overrides.
  each_option o
    ltac:(solve [ intros H; try destruct arg as [s|];
                  try destruct (sscanf_u_u_u _) as [n vals];
                  try destruct (n =? 3);
                  first [ discriminate H
                        | injection H as <-;
                          rewrite ?assign_revision_mem;
                          destruct f; cbn;
                          first [ reflexivity
                                | eexists; split; reflexivity ] ] ]).
Qed.

(** The same for the integer fields set by an option of their own. *)
Lemma handle_option_next_int (o : GetoptResult)
  (config config' : CEmulatorConfig) :
  handle_option program_name o config = Next config' ->
  cfg_int config' trace_instr =
    (if opt_c o =? 116 then 1 else cfg_int config trace_instr)
  /\ cfg_int config' stdin_uart =
      (if opt_c o =? 128 then 0 else cfg_int config stdin_uart)
  /\ cfg_int config' manufacturing_mode =
      (if opt_c o =? 133 then 1 else cfg_int config manufacturing_mode)
  /\ cfg_int config' capture_uart_output = cfg_int config capture_uart_output
  /\ (if opt_c o =? 103
      then exists s, opt_arg o = Some s /\ cfg_int config' gdb_port = atoi s
      else cfg_int config' gdb_port = cfg_int config gdb_port)
  /\ (if opt_c o =? 132
      then exists s, opt_arg o = Some s /\ cfg_int config' i3c_port = atoi s
      else cfg_int config' i3c_port = cfg_int config i3c_port)
  /\ (opt_c o <> 139 ->
      cfg_int config' hw_revision_major = cfg_int config hw_revision_major
      /\ cfg_int config' hw_revision_minor = cfg_int config hw_revision_minor
      /\ cfg_int config' hw_revision_patch = cfg_int config hw_revision_patch).
Proof.
  each_option o
    ltac:(solve [ intros H; try destruct arg as [s|];
                  try destruct (sscanf_u_u_u _) as [n vals];
                  try destruct (n =? 3);
                  first [ discriminate H
                        | injection H as <-;
                          repeat split;
                          first [ reflexivity
                                | eexists; split; reflexivity
                                | apply assign_revision_other;
                                  first [left; discriminate | now right]
                                | intros Hne;
                                  first [ now contradiction Hne
                                        | repeat split; reflexivity ] ] ] ]).
Qed.

Lemma parse_options_str (opts : list GetoptResult)
  (config config' : CEmulatorConfig) (f : StrField) :
  parse_options program_name opts config = Next config' ->
  cfg_str config' f =
    match last_given (option_of f) opts with
    | Some arg => arg
    | None => cfg_str config f
    end.
Proof.
  revert config. induction opts as [|o opts IH]; intros config Hparse.
  - now injection Hparse as <-.
  - cbn [parse_options] in Hparse.
    destruct (handle_option program_name o config) as [c1|evs st] eqn:Ho;
      [|discriminate Hparse].
    rewrite (IH c1 Hparse). cbn [last_given].
    destruct (last_given (option_of f) opts); [reflexivity|].
    rewrite (handle_option_next_str program_name o config c1 f Ho).
    now destruct (opt_c o =? option_of f).
Qed.

Lemma parse_options_mem (opts : list GetoptResult)
  (config config' : CEmulatorConfig) (f : MemField) :
  parse_options program_name opts config = Next config' ->
  match last_override f opts with
  | Some arg =>
      exists s, arg = Some s /\ cfg_mem config' f = parse_hex_or_decimal s
  | None => cfg_mem config' f = cfg_mem config f
  end.
Proof.
  revert config. induction opts as [|o opts IH]; intros config Hparse.
  - now injection Hparse as <-.
  - cbn [parse_options] in Hparse.
    destruct (handle_option program_name o config) as [c1|evs st] eqn:Ho;
      [|discriminate Hparse].
    specialize (IH c1 Hparse). cbn [last_override].
    destruct (last_override f opts); [exact IH|].
    pose proof (handle_option_next_mem o config c1 f Ho) as Hstep.
    destruct (overrides f o).
    + destruct Hstep as (s & Harg & Hval). exists s. split; [exact Harg|].
      now rewrite IH.
    + now rewrite IH.
Qed.

Lemma no_option_for (f : MemField) (opts : list GetoptResult) :
  In f fields_without_option -> last_override f opts = None.
Proof.
  intros Hf. induction opts as [|o opts IH]; [reflexivity|].
  cbn [last_override]. rewrite IH.
  assert (Hno : overrides f o = false); [|now rewrite Hno].
  unfold overrides, override_option.
  destruct (opt_c o) as [|p|p]; try reflexivity.
  cbn in Hf.
  each_case ltac:(solve [ destruct Hf as [<-|[<-|[<-|[<-|[<-|[<-|[]]]]]]];
                          reflexivity ]).
Qed.

(** X10.  What the configuration holds after the option loop.  Each path
    is the argument of the last option that gives it, and null when no
    option does: an option given again replaces the earlier one.  Each
    memory override is what [parse_hex_or_decimal] returns for the
    argument of the last option that gives it, and -1 when no option
    does.  The six memory fields for which there is no option are always
    -1. *)
Theorem paths_and_overrides (opts : list GetoptResult)
  (config : CEmulatorConfig)
  (Hparse : parse_options program_name opts default_config = Next config) :
  (forall f,
     cfg_str config f =
       match last_given (option_of f) opts with
       | Some arg => arg
       | None => None
       end)
  /\ (forall f,
        match last_override f opts with
        | Some arg =>
            exists s, arg = Some s
                      /\ cfg_mem config f = parse_hex_or_decimal s
        | None => cfg_mem config f = -1
        end)
  /\ (forall f, In f fields_without_option -> cfg_mem config f = -1).
Proof.
  split; [|split].
  - intros f. apply (parse_options_str opts default_config config f Hparse).
  - intros f. apply (parse_options_mem opts default_config config f Hparse).
  - intros f Hf.
    pose proof (parse_options_mem opts default_config config f Hparse) as Hmem.
    now rewrite (no_option_for f opts Hf) in Hmem.
Qed.

Lemma parse_options_int (opts : list GetoptResult)
  (config config' : CEmulatorConfig) :
  parse_options program_name opts config = Next config' ->
  cfg_int config' trace_instr =
    (if occurs 116 opts then 1 else cfg_int config trace_instr)
  /\ cfg_int config' stdin_uart =
      (if occurs 128 opts then 0 else cfg_int config stdin_uart)
  /\ cfg_int config' manufacturing_mode =
      (if occurs 133 opts then 1 else cfg_int config manufacturing_mode)
  /\ cfg_int config' capture_uart_output = cfg_int config capture_uart_output
  /\ match last_given 103 opts with
     | Some arg => exists s, arg = Some s /\ cfg_int config' gdb_port = atoi s
     | None => cfg_int config' gdb_port = cfg_int config gdb_port
     end
  /\ match last_given 132 opts with
     | Some arg => exists s, arg = Some s /\ cfg_int config' i3c_port = atoi s
     | None => cfg_int config' i3c_port = cfg_int config i3c_port
     end
  /\ (occurs 139 opts = false ->
      cfg_int config' hw_revision_major = cfg_int config hw_revision_major
      /\ cfg_int config' hw_revision_minor = cfg_int config hw_revision_minor
      /\ cfg_int config' hw_revision_patch = cfg_int config hw_revision_patch).
Proof.
  revert config. induction opts as [|o opts IH]; intros config Hparse.
  - injection Hparse as <-. cbn. now repeat split.
  - cbn [parse_options] in Hparse.
    destruct (handle_option program_name o config) as [c1|evs st] eqn:Ho;
      [|discriminate Hparse].
    destruct (IH c1 Hparse) as (It & Is & Im & Ic & Ig & Ii & Ih).
    destruct (handle_option_next_int o config c1 Ho)
      as (Ht & Hs & Hm & Hc & Hg & Hi & Hh).
    unfold occurs in *. cbn [existsb last_given].
    rewrite It, Is, Im, Ic, Ht, Hs, Hm, Hc.
    split; [now destruct (opt_c o =? 116),
                        (existsb (fun o0 => opt_c o0 =? 116) opts)|].
    split; [now destruct (opt_c o =? 128),
                        (existsb (fun o0 => opt_c o0 =? 128) opts)|].
    split; [now destruct (opt_c o =? 133),
                        (existsb (fun o0 => opt_c o0 =? 133) opts)|].
    split; [reflexivity|].
    split; [|split].
    + destruct (last_given 103 opts); [exact Ig|].
      destruct (opt_c o =? 103).
      * destruct Hg as (s & Harg & Hval). exists s. split; [exact Harg|].
        now rewrite Ig.
      * now rewrite Ig.
    + destruct (last_given 132 opts); [exact Ii|].
      destruct (opt_c o =? 132).
      * destruct Hi as (s & Harg & Hval). exists s. split; [exact Harg|].
        now rewrite Ii.
      * now rewrite Ii.
    + intros Hno. apply orb_false_elim in Hno. destruct Hno as [Ho139 Hrest].
      apply Z.eqb_neq in Ho139.
      destruct (Ih Hrest) as (I1 & I2 & I3).
      destruct (Hh Ho139) as (H1 & H2 & H3).
      rewrite I1, I2, I3. now repeat split.
Qed.

(** X11.  The flags and numbers of the configuration after the option
    loop.  Instruction tracing and manufacturing mode are on exactly when
    their option occurs, stdin is relayed to the UART unless
    --no-stdin-uart occurs, the UART output is always captured, the two
    ports are [atoi] of the argument of the last option that gives them
    and 0 without one, and without --hw-revision the revision is
    2.0.0. *)
Theorem flags_and_numbers (opts : list GetoptResult)
  (config : CEmulatorConfig)
  (Hparse : parse_options program_name opts default_config = Next config) :
  cfg_int config trace_instr = (if occurs 116 opts then 1 else 0)
  /\ cfg_int config stdin_uart = (if occurs 128 opts then 0 else 1)
  /\ cfg_int config manufacturing_mode = (if occurs 133 opts then 1 else 0)
  /\ cfg_int config capture_uart_output = 1
  /\ match last_given 103 opts with
     | Some arg => exists s, arg = Some s /\ cfg_int config gdb_port = atoi s
     | None => cfg_int config gdb_port = 0
     end
  /\ match last_given 132 opts with
     | Some arg => exists s, arg = Some s /\ cfg_int config i3c_port = atoi s
     | None => cfg_int config i3c_port = 0
     end
  /\ (occurs 139 opts = false ->
      cfg_int config hw_revision_major = 2
      /\ cfg_int config hw_revision_minor = 0
      /\ cfg_int config hw_revision_patch = 0).
Proof.
  exact (parse_options_int opts default_config config Hparse).
Qed.

Lemma handle_unknown_option (o : GetoptResult) (config : CEmulatorConfig) :
  known_option (opt_c o) = false ->
  handle_option program_name o config = Stop [] Aborted.
Proof.
  unfold handle_option, known_option.
  destruct (opt_c o) as [|p|p]; try reflexivity.
  each_case ltac:(first [reflexivity | discriminate]).
Qed.

Lemma handle_option_handled (o : GetoptResult) (config : CEmulatorConfig) :
  handled o -> defined_step (handle_option program_name o config) = true.
Proof.
  unfold handled.
  each_option o
    ltac:(solve [ intros [Hq|[Hk Ha]];
                  [ first [ discriminate Hq | reflexivity ]
                  | first [ discriminate Hk
                          | reflexivity
                          | vm_compute in Ha; destruct Ha as [a ->];
                            try destruct (sscanf_u_u_u a) as [n vals];
                            try destruct (n =? 3); reflexivity ] ] ]).
Qed.

Lemma parse_options_handled (opts : list GetoptResult)
  (config : CEmulatorConfig) :
  Forall handled opts ->
  defined_step (parse_options program_name opts config) = true.
Proof.
  intros Hall. revert config.
  induction Hall as [|o opts Ho Hall IH]; intros config; [reflexivity|].
  cbn [parse_options].
  pose proof (handle_option_handled o config Ho) as Hstep.
  destruct (handle_option program_name o config) as [c1|evs st];
    [apply IH | exact Hstep].
Qed.

End Options.

(** ** More on main *)

Section Lifecycle.

Variable program_name : string.

(** The world a run of the loop leaves: the terminal is restored when the
    loop has ended by itself, and nothing is touched otherwise. *)
Lemma free_run_loop_world (its : list IterInput) (k : Z) (w : World) :
  world_of (free_run_loop its k w) =
    match value_of (free_run_loop its k w) with
    | Finished => after_disable w
    | _ => w
    end.
Proof.
  revert k. induction its as [|it its IH]; intros k; [reflexivity|].
  rewrite free_run_loop_cons.
  destruct (breaks it k); [reflexivity|].
  destruct (in_action it); try reflexivity.
  destruct (k =? INT_MAX); [reflexivity|].
  cbv zeta. rewrite world_of_run, value_of_run. apply IH.
Qed.

(** [free_run], case by case. *)
Lemma free_run_run (env : Env) (w : World) :
  free_run env w =
    let w1 := exec enable_raw_mode w in
    let entry :=
      ([Output Stdout ("Running emulator in normal mode..." ++ nl);
        Output Stdout ("Console input enabled - type characters to send to UART RX" ++ nl)]
       ++ events_of (enable_raw_mode w)
       ++ [Malloc uart_buffer_size (env_uart_malloc_ok env)])%list in
    if env_uart_malloc_ok env then
      let r := free_run_loop (env_iters env) 0 w1 in
      (entry
         ++ [Output Stdout ("Allocated UART buffer: " ++ dec uart_buffer_size
                              ++ " bytes" ++ nl)]
         ++ events_of r, world_of r, value_of r)%list
    else
      (entry ++ [Output Stderr ("Failed to allocate UART buffer" ++ nl)]
         ++ restore_events w1, after_disable w1, Finished)%list.
Proof.
  unfold free_run, printf, fprintf. unfold bind, emit, ret, exec.
  destruct (enable_raw_mode w) as [[ee we] []].
  rewrite !events_of_run, !world_of_run.
  destruct (env_uart_malloc_ok env); cbn [negb]; cbv beta iota zeta.
  - destruct (free_run_loop (env_iters env) 0 we) as [[e2 w2] v2].
    rewrite !events_of_run, !world_of_run, !value_of_run. cbn [app].
    now rewrite <- !app_assoc.
  - rewrite disable_raw_mode_run. cbn [app].
    now rewrite <- !app_assoc, ?app_nil_r.
Qed.

(** [run_engine], case by case. *)
Lemma run_engine_run (config : CEmulatorConfig) (env : Env) (w : World) :
  run_engine config env w =
    if env_alloc_ok env then
      match env_init env with
      | Failed e =>
          (allocation_events env
             ++ [Output Stdout (allocated_message env);
                 Engine (emulator_init config (Failed e));
                 Output Stderr ("Failed to initialize emulator: " ++ dec e ++ nl);
                 Free memory], w, Exited 1)%list
      | Success =>
          match i3c_outcome config env with
          | Failed e =>
              (allocation_events env
                 ++ [Output Stdout (allocated_message env);
                     Engine (emulator_init config Success);
                     Output Stdout ("Starting I3C controller..." ++ nl);
                     Engine (emulator_start_i3c_controller (Failed e));
                     Output Stderr ("Failed to start I3C controller: "
                                      ++ dec e ++ nl);
                     Engine emulator_destroy; Free memory], w, Exited 1)%list
          | Success =>
              let r := mode_run env w in
              match value_of r with
              | Finished =>
                  (allocation_events env ++ init_events config env
                     ++ events_of r ++ final_drain env
                     ++ restore_events (world_of r) ++ teardown_events,
                   after_disable (world_of r), Exited 0)%list
              | Unfinished =>
                  (allocation_events env ++ init_events config env
                     ++ events_of r, world_of r, Running)%list
              | Overflowed =>
                  (allocation_events env ++ init_events config env
                     ++ events_of r, world_of r, Undefined)%list
              end
          end
      end
    else
      (allocation_events env
         ++ [Output Stderr ("Failed to allocate memory: "
                              ++ env_strerror env ++ nl)], w, Exited 1)%list.
Proof.
  unfold run_engine, allocation_events, init_events, final_drain,
    teardown_events, allocated_message, i3c_outcome, i3c_requested, mode_run,
    gdb_events.
  unfold printf, fprintf. unfold bind, emit, ret.
  destruct (env_alloc_ok env); cbn [negb]; [|reflexivity].
  destruct (env_init env) as [|e]; [|reflexivity].
  destruct (negb (cfg_int config i3c_port =? 0)).
  - destruct (env_i3c env) as [|e]; [|reflexivity].
    destruct (env_gdb_mode env).
    + destruct (env_gdb_result env);
        destruct (0 <? Z.of_nat (String.length (env_final_uart env)));
        cbv beta iota zeta; rewrite disable_raw_mode_run;
        rewrite ?events_of_run, ?world_of_run, ?value_of_run;
        cbn [app]; now rewrite ?app_nil_r.
    + destruct (free_run env w) as [[E W] ran].
      rewrite ?events_of_run, ?world_of_run, ?value_of_run.
      destruct ran;
        destruct (0 <? Z.of_nat (String.length (env_final_uart env)));
        cbv beta iota zeta; rewrite ?disable_raw_mode_run;
        cbn [app]; rewrite <- ?app_assoc; cbn [app];
        now rewrite ?app_nil_r.
  - destruct (env_gdb_mode env).
    + destruct (env_gdb_result env);
        destruct (0 <? Z.of_nat (String.length (env_final_uart env)));
        cbv beta iota zeta; rewrite disable_raw_mode_run;
        rewrite ?events_of_run, ?world_of_run, ?value_of_run;
        cbn [app]; now rewrite ?app_nil_r.
    + destruct (free_run env w) as [[E W] ran].
      rewrite ?events_of_run, ?world_of_run, ?value_of_run.
      destruct ran;
        destruct (0 <? Z.of_nat (String.length (env_final_uart env)));
        cbv beta iota zeta; rewrite ?disable_raw_mode_run;
        cbn [app]; rewrite <- ?app_assoc; cbn [app];
        now rewrite ?app_nil_r.
Qed.

(** [main], case by case. *)
Lemma main_run (opts : list GetoptResult) (env : Env) (w : World) :
  main program_name opts env w =
    match parse_options program_name opts default_config with
    | Stop evs st => (evs, w, st)
    | Next config =>
        match first_missing config with
        | Some f =>
            (Output Stderr (required_error f)
               :: map (Output Stdout) (usage_text program_name), w, Exited 1)
        | None =>
            let r := run_engine config env (set_atexit_registered true w) in
            (handler_events ++ events_of r, world_of r, value_of r)%list
        end
    end.
Proof.
  unfold main, first_missing, required. cbn [find].
  destruct (parse_options program_name opts default_config) as [config|evs st].
  - destruct (is_null (cfg_str config rom_path)); [reflexivity|].
    destruct (is_null (cfg_str config firmware_path)); [reflexivity|].
    destruct (is_null (cfg_str config caliptra_rom_path)); [reflexivity|].
    destruct (is_null (cfg_str config caliptra_firmware_path)); [reflexivity|].
    destruct (is_null (cfg_str config soc_manifest_path)); [reflexivity|].
    unfold bind, emit, put, handler_events.
    now destruct (run_engine config env (set_atexit_registered true w))
      as [[e w'] st].
  - unfold emit_all, bind, ret. now rewrite app_nil_r.
Qed.

Lemma lifecycle_app (st : Life * bool) (xs ys : list Event) :
  lifecycle st (xs ++ ys) =
    match lifecycle st xs with
    | Some st' => lifecycle st' ys
    | None => None
    end.
Proof.
  revert st. induction xs as [|x xs IH]; intros st; [reflexivity|].
  cbn [app lifecycle].
  destruct x as [| | | | | | | | | | | |c]; try apply IH.
  destruct c, (snd st); try reflexivity;
    match goal with
    | |- context [life_after ?l ?c] => destruct (life_after l c); [apply IH | reflexivity]
    end.
Qed.

Lemma enable_raw_mode_events (w : World) :
  Forall (fun e => is_terminal_call e = true) (events_of (enable_raw_mode w)).
Proof.
  destruct w as [orig raw atx [isatty attrs settable]].
  unfold enable_raw_mode, tcgetattr, tcsetattr, bind, get, put, ret, events_of.
  destruct raw, isatty, settable; cbn; repeat constructor.
Qed.

Lemma restore_events_terminal (w : World) :
  Forall (fun e => is_terminal_call e = true) (restore_events w).
Proof.
  unfold restore_events. destruct (terminal_raw_mode w); repeat constructor.
Qed.

Lemma Forall_weaken (p q : Event -> bool) (evs : list Event) :
  (forall e, p e = true -> q e = true) ->
  Forall (fun e => p e = true) evs -> Forall (fun e => q e = true) evs.
Proof.
  intros Hpq Hall. eapply Forall_impl; [|exact Hall]. exact Hpq.
Qed.

Lemma terminal_is_run_event (e : Event) :
  is_terminal_call e = true -> is_run_event e = true.
Proof. now destruct e. Qed.

(** What the run loop emits. *)
Lemma free_run_loop_events (its : list IterInput) (k : Z) (w : World) :
  Forall (fun e => is_run_event e = true) (events_of (free_run_loop its k w)).
Proof.
  revert k. induction its as [|it its IH]; intros k; [constructor|].
  rewrite free_run_loop_cons.
  assert (Hpoll : Forall (fun e => is_run_event e = true) (poll_events it k)).
  { unfold poll_events. destruct (polls k); [|constructor].
    destruct (in_read it) as [ch|]; [|repeat constructor].
    destruct (code ch =? ETX); [repeat constructor|].
    destruct (in_rx_ready it); repeat constructor. }
  assert (Hstep : Forall (fun e => is_run_event e = true) (step_block it)).
  { unfold step_block.
    destruct (0 <? Z.of_nat (String.length (in_uart it))); repeat constructor. }
  assert (Hrest : Forall (fun e => is_run_event e = true) (restore_events w)).
  { apply (Forall_weaken _ _ _ terminal_is_run_event),
      restore_events_terminal. }
  assert (Hyield : Forall (fun e => is_run_event e = true)
                     (yield_events (k + 1))).
  { unfold yield_events. destruct ((k + 1) mod 1000 =? 0); repeat constructor. }
  destruct (breaks it k); [|destruct (in_action it);
                              [destruct (k =? INT_MAX)| | |]];
    cbv zeta; rewrite events_of_run;
    repeat first [ assumption | apply IH | apply Forall_app; split
                 | apply Forall_cons; [reflexivity|] | apply Forall_nil ].
Qed.

(** What the run loop allocates and frees: nothing and, when it ends by
    itself, the UART buffer. *)
Lemma free_run_loop_memory (its : list IterInput) (k : Z) (w : World) :
  count is_allocation (events_of (free_run_loop its k w)) = 0
  /\ count is_free (events_of (free_run_loop its k w)) =
      match value_of (free_run_loop its k w) with
      | Finished => 1
      | _ => 0
      end.
Proof.
  revert k. induction its as [|it its IH]; intros k; [now split|].
  rewrite free_run_loop_cons.
  assert (Hpoll : count is_allocation (poll_events it k) = 0
                  /\ count is_free (poll_events it k) = 0).
  { unfold poll_events. destruct (polls k); [|now split].
    destruct (in_read it) as [ch|]; [|now split].
    destruct (code ch =? ETX); [now split|].
    destruct (in_rx_ready it); now split. }
  assert (Hstep : count is_allocation (step_block it) = 0
                  /\ count is_free (step_block it) = 0).
  { unfold step_block.
    destruct (0 <? Z.of_nat (String.length (in_uart it))); now split. }
  assert (Hrest : count is_allocation (restore_events w) = 0
                  /\ count is_free (restore_events w) = 0).
  { unfold restore_events. destruct (terminal_raw_mode w); now split. }
  assert (Hyield : count is_allocation (yield_events (k + 1)) = 0
                   /\ count is_free (yield_events (k + 1)) = 0).
  { unfold yield_events. destruct ((k + 1) mod 1000 =? 0); now split. }
  destruct Hpoll as [Pa Pf], Hstep as [Sa Sf], Hrest as [Ra Rf],
    Hyield as [Ya Yf].
  destruct (breaks it k).
  { rewrite !events_of_run, !value_of_run, !count_app, Pa, Pf, Ra, Rf.
    now split. }
  destruct (in_action it).
  - destruct (k =? INT_MAX).
    + rewrite !events_of_run, !value_of_run, !count_app, Pa, Pf, Sa, Sf.
      now split.
    + cbv zeta. destruct (IH (k + 1)) as [Ia If].
      rewrite !events_of_run, !value_of_run, !count_app, Pa, Pf, Sa, Sf, Ya, Yf,
        Ia, If.
      now split.
  - rewrite !events_of_run, !value_of_run, !count_app, Pa, Pf, Sa, Sf, Ra, Rf.
    now split.
  - rewrite !events_of_run, !value_of_run, !count_app, Pa, Pf, Sa, Sf, Ra, Rf.
    now split.
  - rewrite !events_of_run, !value_of_run, !count_app, Pa, Pf, Sa, Sf, Ra, Rf.
    now split.
Qed.

Lemma count_none (p q : Event -> bool) (evs : list Event) :
  (forall e, q e = true -> p e = false) ->
  Forall (fun e => q e = true) evs -> count p evs = 0.
Proof.
  intros Hpq Hall. unfold count. induction Hall as [|e evs He Hall IH];
    [reflexivity|].
  cbn [filter]. now rewrite (Hpq e He).
Qed.

Lemma terminal_count_none (p : Event -> bool) (evs : list Event) :
  (forall t ok, p (Tcsetattr t ok) = false) ->
  (forall ok, p (Tcgetattr ok) = false) ->
  Forall (fun e => is_terminal_call e = true) evs -> count p evs = 0.
Proof.
  intros Hs Hg. apply count_none. intros e He.
  destruct e; try discriminate He; [apply Hg | apply Hs].
Qed.

(** What [free_run] emits, allocates and frees, and the world it
    leaves. *)
Lemma free_run_facts (env : Env) (w : World) :
  let r := free_run env w in
  Forall (fun e => is_run_event e = true) (events_of r)
  /\ count is_free (events_of r) <= count is_allocation (events_of r)
  /\ (value_of r = Finished ->
      count is_free (events_of r) = count is_allocation (events_of r)
      /\ world_of r = after_disable (exec enable_raw_mode w)).
Proof.
  cbv zeta. rewrite free_run_run. cbv zeta.
  pose proof (enable_raw_mode_events w) as Hen.
  pose proof (restore_events_terminal (exec enable_raw_mode w)) as Hre.
  assert (Hea : count is_allocation (events_of (enable_raw_mode w)) = 0)
    by (now apply terminal_count_none).
  assert (Hef : count is_free (events_of (enable_raw_mode w)) = 0)
    by (now apply terminal_count_none).
  assert (Hra : count is_allocation
                  (restore_events (exec enable_raw_mode w)) = 0)
    by (now apply terminal_count_none).
  assert (Hrf : count is_free (restore_events (exec enable_raw_mode w)) = 0)
    by (now apply terminal_count_none).
  apply (Forall_weaken _ _ _ terminal_is_run_event) in Hen, Hre.
  destruct (env_uart_malloc_ok env).
  - pose proof (free_run_loop_events (env_iters env) 0
                  (exec enable_raw_mode w)) as Hlo.
    destruct (free_run_loop_memory (env_iters env) 0
                (exec enable_raw_mode w)) as [La Lf].
    pose proof (free_run_loop_world (env_iters env) 0
                  (exec enable_raw_mode w)) as Lw.
    rewrite !events_of_run, !world_of_run, !value_of_run.
    rewrite !count_app, Hea, Hef, La, Lf.
    split; [|split].
    + repeat first [ assumption | apply Forall_app; split
                   | apply Forall_cons; [reflexivity|] | apply Forall_nil ].
    + destruct (value_of (free_run_loop _ _ _)); cbn; lia.
    + intros Hfin. rewrite Hfin in Lw. rewrite Hfin. split; [cbn; lia|exact Lw].
  - rewrite !events_of_run, !world_of_run, !value_of_run.
    rewrite !count_app, Hea, Hef, Hra, Hrf.
    split; [|split].
    + repeat first [ assumption | apply Forall_app; split
                   | apply Forall_cons; [reflexivity|] | apply Forall_nil ].
    + cbn; lia.
    + intros _. split; [cbn; lia | reflexivity].
Qed.

Lemma lifecycle_run_events (evs : list Event) (b : bool) :
  Forall (fun e => is_run_event e = true) evs ->
  lifecycle (Alive, b) evs = Some (Alive, b).
Proof.
  intros Hall. induction Hall as [|e evs He Hall IH]; [reflexivity|].
  destruct e as [| | | | | | | | | | | |c]; try discriminate He; try exact IH.
  destruct c; try discriminate He; destruct b; exact IH.
Qed.

Lemma lifecycle_outputs (evs : list Event) (st : Life * bool) :
  Forall (fun e => is_output e = true) evs -> lifecycle st evs = Some st.
Proof.
  intros Hall. induction Hall as [|e evs He Hall IH]; [reflexivity|].
  destruct e; try discriminate He. exact IH.
Qed.

Lemma run_event_counts (evs : list Event) :
  Forall (fun e => is_run_event e = true) evs ->
  count is_destroy evs = 0 /\ count is_init_success evs = 0
  /\ count is_i3c_start evs = 0 /\ count is_gdb_call evs = 0.
Proof.
  intros Hall.
  repeat split; (eapply count_none; [|exact Hall]); intros e He;
    destruct e as [| | | | | | | | | | | |c]; try reflexivity;
    destruct c; try reflexivity; discriminate He.
Qed.

Lemma output_counts (evs : list Event) (p : Event -> bool) :
  (forall f text, p (Output f text) = false) ->
  Forall (fun e => is_output e = true) evs -> count p evs = 0.
Proof.
  intros Hp. apply count_none. intros e He.
  destruct e; try discriminate He. apply Hp.
Qed.

(** The mode [main] runs in, by what it does to the engine, the memory,
    the terminal and the process state. *)
Lemma mode_run_facts (env : Env) (w : World) :
  let r := mode_run env w in
  (forall b, lifecycle (Alive, b) (events_of r) = Some (Alive, b))
  /\ count is_free (events_of r) <= count is_allocation (events_of r)
  /\ count is_destroy (events_of r) = 0
  /\ count is_init_success (events_of r) = 0
  /\ count is_i3c_start (events_of r) = 0
  /\ (value_of r = Finished ->
      count is_free (events_of r) = count is_allocation (events_of r)
      /\ world_of r =
           if env_gdb_mode env then w
           else after_disable (exec enable_raw_mode w))
  /\ (env_gdb_mode env = true -> r = (gdb_events env, w, Finished))
  /\ (env_gdb_mode env = false -> count is_gdb_call (events_of r) = 0).
Proof.
  cbv zeta. unfold mode_run. destruct (env_gdb_mode env).
  - rewrite !events_of_run, !world_of_run, !value_of_run.
    unfold gdb_events.
    repeat split; try discriminate; try reflexivity;
      try (intros b; now destruct b); cbn; lia.
  - destruct (free_run_facts env w) as (Hall & Hle & Hfin).
    destruct (run_event_counts _ Hall) as (Hd & Hi & Hc & Hg).
    repeat split; try assumption; try discriminate;
      try (intros b; now apply lifecycle_run_events);
      try (now apply Hfin); intros _; exact Hg.
Qed.

Ltac count_blocks :=
  rewrite ?events_of_run, ?world_of_run, ?value_of_run;
  unfold handler_events, allocation_events, init_events, final_drain,
    teardown_events, gdb_events;
  rewrite ?count_app.

Lemma lifecycle_terminal (evs : list Event) (st : Life * bool) :
  Forall (fun e => is_terminal_call e = true) evs -> lifecycle st evs = Some st.
Proof.
  intros Hall. induction Hall as [|e evs He Hall IH]; [reflexivity|].
  destruct e; try discriminate He; exact IH.
Qed.

(** X13.  The life of the engine.  In every run of [main] the calls into
    the engine come in the order the engine needs: size and alignment
    before there is an engine, [emulator_init] only on memory that
    [aligned_alloc] delivered, every other call only between a
    successful [emulator_init] and [emulator_destroy], and nothing after
    [emulator_destroy] or after a failed [emulator_init].  When [main]
    returns, no engine is left alive: an engine that was initialized
    has been destroyed, exactly once. *)
Theorem engine_lifecycle (opts : list GetoptResult) (env : Env) (w : World) :
  let r := main program_name opts env w in
  exists st,
    lifecycle (Unborn, false) (events_of r) = Some st
    /\ count is_init_success (events_of r) <= 1
    /\ count is_destroy (events_of r) <= count is_init_success (events_of r)
    /\ (forall status, value_of r = Exited status ->
          fst st <> Alive
          /\ count is_destroy (events_of r) =
               count is_init_success (events_of r)).
Proof.
  cbv zeta. rewrite main_run.
  assert (Hquiet : forall evs,
    Forall (fun e => is_output e = true) evs ->
    exists st,
      lifecycle (Unborn, false) evs = Some st
      /\ count is_init_success evs <= 1
      /\ count is_destroy evs <= count is_init_success evs
      /\ (fst st <> Alive
          /\ count is_destroy evs = count is_init_success evs)).
  { intros evs Hout. exists (Unborn, false).
    rewrite (lifecycle_outputs _ _ Hout).
    rewrite (output_counts _ is_destroy (fun _ _ => eq_refl) Hout).
    rewrite (output_counts _ is_init_success (fun _ _ => eq_refl) Hout).
    repeat split; try lia. discriminate. }
  destruct (parse_options program_name opts default_config)
    as [config|evs st] eqn:Hparse.
  - destruct (first_missing config) as [f|].
    + rewrite !events_of_run.
      destruct (Hquiet _ (missing_only_output program_name f))
        as (st & H1 & H2 & H3 & H4).
      exists st. repeat split; try assumption; apply H4.
    + cbv zeta. rewrite run_engine_run. cbv zeta.
      set (w0 := set_atexit_registered true w).
      destruct (mode_run_facts env w0) as (Hlife & _ & Hd & Hi & _).
      destruct (mode_run env w0) as [[E W] ran].
      rewrite !events_of_run, !value_of_run, !world_of_run in *.
      pose proof (restore_events_terminal W) as HR.
      pose proof (lifecycle_terminal _ (Gone, true) HR) as Rg.
      pose proof (lifecycle_terminal _ (Alive, true) HR) as Ra.
      assert (Rd : count is_destroy (restore_events W) = 0)
        by (now apply terminal_count_none).
      assert (Ri : count is_init_success (restore_events W) = 0)
        by (now apply terminal_count_none).
      destruct (env_alloc_ok env) eqn:Halloc;
        [destruct (env_init env) as [|e];
         [destruct (i3c_outcome config env) as [|e];
          [destruct ran|]|]|];
        cbv beta iota;
        rewrite ?events_of_run, ?world_of_run, ?value_of_run;
        unfold handler_events, allocation_events, init_events, final_drain,
          teardown_events;
        rewrite ?Halloc;
        destruct (negb (cfg_int config i3c_port =? 0));
        destruct (0 <? Z.of_nat (String.length (env_final_uart env)));
        eexists;
        (split;
         [ repeat first [ progress cbn [lifecycle life_after fst snd orb app]
                        | rewrite lifecycle_app
                        | rewrite Hlife | rewrite Ra | rewrite Rg ];
           reflexivity
         | rewrite ?count_app, ?Hd, ?Hi, ?Rd, ?Ri;
           cbn [count filter List.length app is_destroy is_init_success
                Z.of_nat Pos.of_succ_nat Pos.succ fst];
           repeat split; try lia; try discriminate;
           intros status Hst; try discriminate Hst;
           (split; [discriminate | lia]) ]).
  - rewrite !events_of_run.
    destruct (Hquiet _ (parse_options_stop program_name opts _ evs st Hparse))
      as (st' & H1 & H2 & H3 & H4).
    exists st'. repeat split; try assumption; apply H4.
Qed.

(** Raw mode switched on and off again leaves the device as it was. *)
Lemma raw_round_trip (w : World) :
  terminal_raw_mode w = false ->
  let w' := after_disable (exec enable_raw_mode w) in
  terminal_raw_mode w' = false /\ tty w' = tty w.
Proof.
  destruct w as [orig raw atx [isatty attrs settable]].
  cbn [terminal_raw_mode]. intros ->.
  unfold after_disable, exec, enable_raw_mode, tcgetattr, tcsetattr, bind,
    get, put, ret, world_of, restored, restorable.
  destruct isatty, settable; cbn; split; reflexivity.
Qed.

Lemma after_disable_off (w : World) :
  terminal_raw_mode w = false -> after_disable w = w.
Proof. intros Hoff. unfold after_disable. now rewrite Hoff. Qed.

Lemma c_exit_off (status : Z) (w : World) :
  terminal_raw_mode w = false ->
  c_exit status w = ([ProcessExit status], w, Exited status).
Proof.
  intros Hoff. unfold c_exit, cleanup_on_exit, bind, get, emit, ret.
  destruct (atexit_registered w); [|reflexivity].
  now rewrite (disable_raw_mode_off w Hoff).
Qed.

(** The world in which [main] returns. *)
Lemma main_world (opts : list GetoptResult) (env : Env) (w : World)
  (status : Z) :
  terminal_raw_mode w = false ->
  value_of (main program_name opts env w) = Exited status ->
  terminal_raw_mode (world_of (main program_name opts env w)) = false
  /\ tty (world_of (main program_name opts env w)) = tty w.
Proof.
  intros Hoff. rewrite main_run.
  destruct (parse_options program_name opts default_config)
    as [config|evs st].
  - destruct (first_missing config) as [f|]; [now split|].
    cbv zeta. rewrite run_engine_run. cbv zeta.
    set (w0 := set_atexit_registered true w).
    assert (Hoff0 : terminal_raw_mode w0 = false) by exact Hoff.
    assert (Htty0 : tty w0 = tty w) by reflexivity.
    destruct (mode_run_facts env w0) as (_ & _ & _ & _ & _ & Hfin & _).
    destruct (mode_run env w0) as [[E W] ran].
    rewrite !events_of_run, !value_of_run, !world_of_run in *.
    destruct (env_alloc_ok env);
      [destruct (env_init env) as [|e];
       [destruct (i3c_outcome config env) as [|e]; [destruct ran|]|]|];
      cbv beta iota; rewrite ?world_of_run, ?value_of_run;
      intros Hst; try discriminate Hst; try (now split).
    destruct (Hfin eq_refl) as (_ & ->).
    destruct (env_gdb_mode env).
    + rewrite (after_disable_off w0 Hoff0). now split.
    + destruct (raw_round_trip w0 Hoff0) as (Hflag & Htty).
      rewrite (after_disable_off _ Hflag). split; [exact Hflag|].
      now rewrite Htty.
  - now split.
Qed.

Lemma restore_events_count (p : Event -> bool) (w : World) :
  (forall t ok, p (Tcsetattr t ok) = false) ->
  count p (restore_events w) = 0.
Proof.
  intros Hp. unfold restore_events.
  destruct (terminal_raw_mode w); [|reflexivity].
  unfold count. cbn [filter]. now rewrite Hp.
Qed.

(** The events of [main] when the option loop falls through and no
    required path is missing, by the answers of the environment. *)
Lemma main_engine_events (opts : list GetoptResult) (env : Env) (w : World)
  (config : CEmulatorConfig) :
  parse_options program_name opts default_config = Next config ->
  first_missing config = None ->
  let w0 := set_atexit_registered true w in
  events_of (main program_name opts env w) =
    (handler_events ++ allocation_events env ++
     if env_alloc_ok env then
       match env_init env with
       | Failed e =>
           [Output Stdout (allocated_message env);
            Engine (emulator_init config (Failed e));
            Output Stderr ("Failed to initialize emulator: " ++ dec e ++ nl);
            Free memory]
       | Success =>
           match i3c_outcome config env with
           | Failed e =>
               [Output Stdout (allocated_message env);
                Engine (emulator_init config Success);
                Output Stdout ("Starting I3C controller..." ++ nl);
                Engine (emulator_start_i3c_controller (Failed e));
                Output Stderr ("Failed to start I3C controller: "
                                 ++ dec e ++ nl);
                Engine emulator_destroy; Free memory]
           | Success =>
               init_events config env ++ events_of (mode_run env w0) ++
               match value_of (mode_run env w0) with
               | Finished =>
                   final_drain env
                     ++ restore_events (world_of (mode_run env w0))
                     ++ teardown_events
               | _ => []
               end
           end
       end
     else [Output Stderr ("Failed to allocate memory: "
                            ++ env_strerror env ++ nl)])%list.
Proof.
  intros Hparse Hmiss. cbv zeta. rewrite main_run, Hparse, Hmiss.
  cbv zeta. rewrite run_engine_run. cbv zeta.
  destruct (env_alloc_ok env); [|reflexivity].
  destruct (env_init env) as [|e]; [|reflexivity].
  destruct (i3c_outcome config env) as [|e]; [|reflexivity].
  destruct (mode_run env (set_atexit_registered true w)) as [[E W] ran].
  rewrite !events_of_run, !value_of_run, !world_of_run.
  destruct ran; rewrite !events_of_run, ?app_nil_r; reflexivity.
Qed.

(** When the option loop does not fall through or a required path is
    missing, [main] only prints. *)
Lemma main_early_events (opts : list GetoptResult) (env : Env) (w : World) :
  (forall config,
     parse_options program_name opts default_config = Next config ->
     first_missing config <> None) ->
  Forall (fun e => is_output e = true)
    (events_of (main program_name opts env w)).
Proof.
  intros Hearly. rewrite main_run.
  destruct (parse_options program_name opts default_config)
    as [config|evs st] eqn:Hparse.
  - specialize (Hearly config eq_refl).
    destruct (first_missing config) as [f|]; [|now contradiction Hearly].
    rewrite events_of_run. apply (missing_only_output program_name f).
  - rewrite events_of_run.
    exact (parse_options_stop program_name opts _ evs st Hparse).
Qed.

(** The two ways [main] goes. *)
Lemma main_cases (opts : list GetoptResult) :
  (exists config,
     parse_options program_name opts default_config = Next config
     /\ first_missing config = None)
  \/ (forall config,
        parse_options program_name opts default_config = Next config ->
        first_missing config <> None).
Proof.
  destruct (parse_options program_name opts default_config)
    as [config|evs st].
  - destruct (first_missing config) as [f|] eqn:Hmiss.
    + right. intros c [= <-]. now rewrite Hmiss.
    + left. now exists config.
  - right. intros c Hc. discriminate Hc.
Qed.

Lemma heap_run_app (h : Heap) (xs ys : list Event) :
  heap_run h (xs ++ ys) =
    match heap_run h xs with
    | Some h' => heap_run h' ys
    | None => None
    end.
Proof.
  revert h. induction xs as [|e xs IH]; intros h; [reflexivity|].
  cbn [app heap_run]. destruct (heap_after h e); [apply IH | reflexivity].
Qed.

Lemma heap_run_neutral (h : Heap) (evs : list Event) :
  Forall (fun e => heap_neutral e = true) evs -> heap_run h evs = Some h.
Proof.
  intros Hall. induction Hall as [|e evs He Hall IH]; [reflexivity|].
  cbn [heap_run]. unfold heap_after. unfold heap_neutral in He.
  destruct e; try discriminate He;
    try (destruct (allocates _); [discriminate He | exact IH]).
Qed.

Lemma terminal_heap_neutral (evs : list Event) :
  Forall (fun e => is_terminal_call e = true) evs ->
  Forall (fun e => heap_neutral e = true) evs.
Proof.
  apply Forall_impl. intros e He. now destruct e.
Qed.

Lemma output_heap_neutral (evs : list Event) :
  Forall (fun e => is_output e = true) evs ->
  Forall (fun e => heap_neutral e = true) evs.
Proof.
  apply Forall_impl. intros e He. now destruct e.
Qed.

Lemma poll_events_neutral (it : IterInput) (k : Z) :
  Forall (fun e => heap_neutral e = true) (poll_events it k).
Proof.
  unfold poll_events. destruct (polls k); [|constructor].
  destruct (in_read it) as [ch|]; [|repeat constructor].
  destruct (code ch =? ETX); [repeat constructor|].
  destruct (in_rx_ready it); repeat constructor.
Qed.

Lemma step_block_neutral (it : IterInput) :
  Forall (fun e => heap_neutral e = true) (step_block it).
Proof.
  unfold step_block.
  destruct (0 <? Z.of_nat (String.length (in_uart it))); repeat constructor.
Qed.

Lemma yield_events_neutral (k : Z) :
  Forall (fun e => heap_neutral e = true) (yield_events k).
Proof.
  unfold yield_events. destruct (k mod 1000 =? 0); repeat constructor.
Qed.

Lemma restore_events_neutral (w : World) :
  Forall (fun e => heap_neutral e = true) (restore_events w).
Proof. apply terminal_heap_neutral, restore_events_terminal. Qed.

Lemma heap_run_skip (h : Heap) (xs ys : list Event) :
  Forall (fun e => heap_neutral e = true) xs ->
  heap_run h (xs ++ ys) = heap_run h ys.
Proof.
  intros Hall. now rewrite heap_run_app, (heap_run_neutral h xs Hall).
Qed.

(** The run loop frees the UART buffer when it ends, once, and nothing
    else. *)
Lemma free_run_loop_heap (its : list IterInput) (k : Z) (w : World)
  (m : BlockState) :
  heap_run (m, Live) (events_of (free_run_loop its k w)) =
    Some (m, match value_of (free_run_loop its k w) with
             | Finished => Freed
             | _ => Live
             end).
Proof.
  revert k. induction its as [|it its IH]; intros k; [reflexivity|].
  rewrite free_run_loop_cons.
  destruct (breaks it k).
  { rewrite events_of_run, value_of_run.
    rewrite (heap_run_skip _ _ _ (poll_events_neutral it k)).
    rewrite (heap_run_skip _ _ _ (restore_events_neutral w)).
    reflexivity. }
  destruct (in_action it).
  - destruct (k =? INT_MAX).
    + rewrite events_of_run, value_of_run.
      rewrite (heap_run_skip _ _ _ (poll_events_neutral it k)).
      now rewrite (heap_run_neutral _ _ (step_block_neutral it)).
    + cbv zeta. rewrite events_of_run, value_of_run.
      rewrite (heap_run_skip _ _ _ (poll_events_neutral it k)).
      rewrite (heap_run_skip _ _ _ (step_block_neutral it)).
      rewrite (heap_run_skip _ _ _ (yield_events_neutral (k + 1))).
      apply IH.
  - rewrite events_of_run, value_of_run.
    rewrite (heap_run_skip _ _ _ (poll_events_neutral it k)).
    rewrite (heap_run_skip _ _ _ (step_block_neutral it)).
    cbn [app heap_run heap_after allocates].
    now rewrite (heap_run_skip _ _ _ (restore_events_neutral w)).
  - rewrite events_of_run, value_of_run.
    rewrite (heap_run_skip _ _ _ (poll_events_neutral it k)).
    rewrite (heap_run_skip _ _ _ (step_block_neutral it)).
    cbn [app heap_run heap_after allocates].
    now rewrite (heap_run_skip _ _ _ (restore_events_neutral w)).
  - rewrite events_of_run, value_of_run.
    rewrite (heap_run_skip _ _ _ (poll_events_neutral it k)).
    rewrite (heap_run_skip _ _ _ (step_block_neutral it)).
    cbn [app heap_run heap_after allocates].
    now rewrite (heap_run_skip _ _ _ (restore_events_neutral w)).
Qed.

(** The blocks after the mode [main] runs in. *)
Lemma mode_run_heap (env : Env) (w : World) :
  exists b,
    heap_run (Live, Unallocated) (events_of (mode_run env w)) = Some (Live, b)
    /\ (value_of (mode_run env w) = Finished -> b <> Live).
Proof.
  unfold mode_run. destruct (env_gdb_mode env).
  - exists Unallocated. rewrite events_of_run, value_of_run.
    split; [|discriminate].
    apply heap_run_neutral. unfold gdb_events. repeat constructor.
  - rewrite free_run_run. cbv zeta.
    pose proof (heap_run_neutral (Live, Unallocated) _
                  (terminal_heap_neutral _ (enable_raw_mode_events w))) as He.
    destruct (env_uart_malloc_ok env).
    + pose proof (free_run_loop_heap (env_iters env) 0
                    (exec enable_raw_mode w) Live) as Hloop.
      eexists. rewrite events_of_run, value_of_run.
      cbn [app]. cbn [heap_run heap_after allocates].
      rewrite !heap_run_app, He. cbn [heap_run heap_after allocates block snd
        set_block fst].
      rewrite Hloop. split; [reflexivity|].
      now intros ->.
    + exists Unallocated. rewrite events_of_run, value_of_run.
      split; [|discriminate].
      cbn [app]. cbn [heap_run heap_after allocates].
      rewrite !heap_run_app, He. cbn [heap_run heap_after allocates].
      apply heap_run_neutral, restore_events_neutral.
Qed.

(** X12.  No leak, no double free, no free of what was not allocated.
    In every run of [main], event by event: [memory] and [uart_buffer]
    each receive a block at most once, and [free] is called on a pointer
    only while the block it received is live, so never before the
    allocation, never after a failed allocation and never twice.  When
    [main] returns, no block is live: each block that was allocated has
    been freed, exactly once. *)
Theorem blocks_are_freed_once (opts : list GetoptResult) (env : Env)
  (w : World) :
  let r := main program_name opts env w in
  exists h,
    heap_run (Unallocated, Unallocated) (events_of r) = Some h
    /\ (forall status, value_of r = Exited status ->
          block h memory <> Live /\ block h uart_buffer <> Live).
Proof.
  cbv zeta.
  destruct (main_cases opts) as [(config & Hparse & Hmiss)|Hearly].
  - rewrite (main_engine_events opts env w config Hparse Hmiss).
    cbv zeta. rewrite main_run, Hparse, Hmiss. cbv zeta.
    rewrite run_engine_run. cbv zeta.
    set (w0 := set_atexit_registered true w).
    destruct (mode_run_heap env w0) as (b & Hmode & Hb).
    pose proof (heap_run_neutral (Live, b) _
                  (restore_events_neutral (world_of (mode_run env w0)))) as Hr.
    destruct (mode_run env w0) as [[E W] ran].
    rewrite ?events_of_run, ?value_of_run, ?world_of_run in *.
    unfold handler_events, allocation_events, init_events, final_drain,
      teardown_events.
    destruct (env_alloc_ok env);
      [destruct (env_init env) as [|e];
       [destruct (i3c_outcome config env) as [|e]; [destruct ran|]|]|];
      rewrite ?value_of_run;
      destruct (negb (cfg_int config i3c_port =? 0));
      destruct (0 <? Z.of_nat (String.length (env_final_uart env)));
      cbn [app heap_run heap_after allocates block set_block fst snd];
      rewrite ?heap_run_app, ?Hmode;
      cbn [app heap_run heap_after allocates block set_block fst snd];
      rewrite ?heap_run_app, ?Hr;
      cbn [app heap_run heap_after allocates block set_block fst snd];
      eexists; (split; [reflexivity|]);
      intros status Hst; try discriminate Hst;
      cbn [block fst snd]; split; try discriminate; now apply Hb.
  - pose proof (main_early_events opts env w Hearly) as Hout.
    exists (Unallocated, Unallocated).
    split; [now apply heap_run_neutral, output_heap_neutral|].
    intros status _. split; discriminate.
Qed.

Lemma filter_none (p : Event -> bool) (evs : list Event) :
  Forall (fun e => p e = false) evs -> filter p evs = [].
Proof.
  intros Hall. induction Hall as [|e evs He Hall IH]; [reflexivity|].
  cbn [filter]. now rewrite He.
Qed.

Lemma filter_all (p : Event -> bool) (evs : list Event) :
  Forall (fun e => p e = true) evs -> filter p evs = evs.
Proof.
  intros Hall. induction Hall as [|e evs He Hall IH]; [reflexivity|].
  cbn [filter]. now rewrite He, IH.
Qed.

Lemma poll_events_no_terminal (it : IterInput) (k : Z) :
  filter is_terminal_call (poll_events it k) = [].
Proof.
  unfold poll_events. destruct (polls k); [|reflexivity].
  destruct (in_read it) as [ch|]; [|reflexivity].
  destruct (code ch =? ETX); [reflexivity|].
  destruct (in_rx_ready it); reflexivity.
Qed.

Lemma step_block_no_terminal (it : IterInput) :
  filter is_terminal_call (step_block it) = [].
Proof.
  unfold step_block.
  destruct (0 <? Z.of_nat (String.length (in_uart it))); reflexivity.
Qed.

Lemma yield_events_no_terminal (k : Z) :
  filter is_terminal_call (yield_events k) = [].
Proof.
  unfold yield_events. destruct (k mod 1000 =? 0); reflexivity.
Qed.

(** The run loop touches the terminal only to set it back, when it
    ends. *)
Lemma free_run_loop_terminal (its : list IterInput) (k : Z) (w : World) :
  filter is_terminal_call (events_of (free_run_loop its k w)) =
    match value_of (free_run_loop its k w) with
    | Finished => restore_events w
    | _ => []
    end.
Proof.
  revert k. induction its as [|it its IH]; intros k; [reflexivity|].
  rewrite free_run_loop_cons.
  pose proof (filter_all _ _ (restore_events_terminal w)) as Hr.
  destruct (breaks it k).
  { rewrite events_of_run, value_of_run, !filter_app.
    rewrite poll_events_no_terminal, Hr. cbn [filter is_terminal_call app].
    now rewrite app_nil_r. }
  destruct (in_action it).
  - destruct (k =? INT_MAX).
    + rewrite events_of_run, value_of_run, !filter_app.
      now rewrite poll_events_no_terminal, step_block_no_terminal.
    + cbv zeta. rewrite events_of_run, value_of_run, !filter_app.
      rewrite poll_events_no_terminal, step_block_no_terminal,
        yield_events_no_terminal. apply IH.
  - rewrite events_of_run, value_of_run, !filter_app.
    rewrite poll_events_no_terminal, step_block_no_terminal, Hr.
    cbn [filter is_terminal_call app]. now rewrite app_nil_r.
  - rewrite events_of_run, value_of_run, !filter_app.
    rewrite poll_events_no_terminal, step_block_no_terminal, Hr.
    cbn [filter is_terminal_call app]. now rewrite app_nil_r.
  - rewrite events_of_run, value_of_run, !filter_app.
    rewrite poll_events_no_terminal, step_block_no_terminal, Hr.
    cbn [filter is_terminal_call app]. now rewrite app_nil_r.
Qed.

(** Raw mode entered and left on a device that was not in raw mode. *)
Lemma raw_session_events (w : World) :
  terminal_raw_mode w = false ->
  (events_of (enable_raw_mode w)
     ++ restore_events (exec enable_raw_mode w))%list = raw_session (tty w).
Proof.
  intros Hoff. destruct w as [orig raw atx [tt_ attrs settable]].
  cbn in Hoff. subst raw.
  unfold raw_session, restore_events, exec, enable_raw_mode, bind, get, put,
    ret, tcgetattr, tcsetattr, restorable.
  cbn. destruct tt_; cbn; [|reflexivity].
  destruct settable; cbn; reflexivity.
Qed.

(** The terminal calls of the mode [main] runs in, when it comes back. *)
Lemma mode_run_terminal (env : Env) (w : World) :
  terminal_raw_mode w = false ->
  value_of (mode_run env w) = Finished ->
  filter is_terminal_call (events_of (mode_run env w)) =
    if env_gdb_mode env then [] else raw_session (tty w).
Proof.
  intros Hoff. unfold mode_run. destruct (env_gdb_mode env); [reflexivity|].
  rewrite free_run_run. cbv zeta.
  pose proof (filter_all _ _ (enable_raw_mode_events w)) as He.
  pose proof (filter_all _ _
                (restore_events_terminal (exec enable_raw_mode w))) as Hr.
  destruct (env_uart_malloc_ok env).
  - rewrite events_of_run, value_of_run. intros Hfin.
    rewrite !filter_app, He, free_run_loop_terminal, Hfin.
    cbn [filter is_terminal_call app]. rewrite ?app_nil_r.
    exact (raw_session_events w Hoff).
  - rewrite events_of_run. intros _.
    rewrite !filter_app, He, Hr. cbn [filter is_terminal_call app].
    rewrite ?app_nil_r. exact (raw_session_events w Hoff).
Qed.

(** The terminal calls of a run of [main] that returns. *)
Lemma main_terminal (opts : list GetoptResult) (env : Env) (w : World)
  (status : Z) :
  terminal_raw_mode w = false ->
  value_of (main program_name opts env w) = Exited status ->
  filter is_terminal_call (events_of (main program_name opts env w)) = []
  \/ filter is_terminal_call (events_of (main program_name opts env w)) =
       raw_session (tty w).
Proof.
  intros Hoff.
  destruct (main_cases opts) as [(config & Hparse & Hmiss)|Hearly].
  - rewrite (main_engine_events opts env w config Hparse Hmiss).
    cbv zeta. rewrite main_run, Hparse, Hmiss. cbv zeta.
    rewrite run_engine_run. cbv zeta.
    set (w0 := set_atexit_registered true w).
    assert (Hoff0 : terminal_raw_mode w0 = false) by exact Hoff.
    pose proof (mode_run_terminal env w0 Hoff0) as Hmode.
    destruct (mode_run_facts env w0) as (_ & _ & _ & _ & _ & Hfin & _).
    change (tty w0) with (tty w) in Hmode.
    destruct (mode_run env w0) as [[E W] ran].
    rewrite ?events_of_run, ?value_of_run, ?world_of_run in *.
    unfold handler_events, allocation_events, init_events, final_drain,
      teardown_events.
    destruct (env_alloc_ok env);
      [destruct (env_init env) as [|e];
       [destruct (i3c_outcome config env) as [|e]; [destruct ran|]|]|];
      rewrite ?value_of_run; intros Hst; try discriminate Hst;
      try (left; reflexivity).
    destruct (Hfin eq_refl) as (_ & HW).
    assert (HoffW : terminal_raw_mode W = false).
    { rewrite HW. destruct (env_gdb_mode env); [exact Hoff0|].
      now destruct (raw_round_trip w0 Hoff0). }
    unfold restore_events. rewrite HoffW.
    destruct (negb (cfg_int config i3c_port =? 0));
      destruct (0 <? Z.of_nat (String.length (env_final_uart env)));
      cbn [app filter is_terminal_call];
      rewrite !filter_app, (Hmode eq_refl);
      cbn [app filter is_terminal_call]; rewrite app_nil_r;
      (destruct (env_gdb_mode env); [now left | now right]).
  - intros _. left. apply filter_none.
    eapply Forall_impl; [|exact (main_early_events opts env w Hearly)].
    intros e He. now destruct e.
Qed.

(** X14.  The terminal at the end of the process, on a device that
    answers every [tcsetattr] of the run alike: stdin is a terminal that
    accepts a change of mode, or a terminal that refuses it, or no
    terminal.  When the process starts with raw mode off and [main]
    returns, the terminal calls of the process are none at all, or one
    failed [tcgetattr], or a [tcgetattr] and a refused [tcsetattr] of the
    raw mode, or a [tcgetattr], the [tcsetattr] of the raw mode and one
    [tcsetattr] of the attributes that were read; at the end of the
    process raw mode is off and the device has the attributes it had at
    the start.  The handler registered with [atexit] then finds nothing
    to do: the events of the process are the events of [main] and the end
    of the process.  A device that accepts the raw mode and afterwards
    refuses the attributes it had is not among these devices; what
    [disable_raw_mode] does there is the subject of C10. *)
Theorem terminal_left_as_found (opts : list GetoptResult) (env : Env)
  (w : World) (status : Z)
  (Hoff : terminal_raw_mode w = false)
  (Hret : value_of (main program_name opts env w) = Exited status) :
  let r := process program_name opts env w in
  terminal_raw_mode (world_of r) = false
  /\ tty (world_of r) = tty w
  /\ events_of r =
       (events_of (main program_name opts env w) ++ [ProcessExit status])%list
  /\ (filter is_terminal_call (events_of r) = []
      \/ filter is_terminal_call (events_of r) = raw_session (tty w)).
Proof.
  cbv zeta.
  destruct (main_world opts env w status Hoff Hret)
    as (Hflag & Htty).
  pose proof (main_terminal opts env w status Hoff Hret) as Hcalls.
  unfold process, bind.
  destruct (main program_name opts env w) as [[E W] st].
  rewrite value_of_run in Hret. subst st.
  rewrite world_of_run in Hflag, Htty. rewrite events_of_run in Hcalls.
  rewrite events_of_run.
  rewrite (c_exit_off status W Hflag).
  rewrite world_of_run, events_of_run.
  split; [exact Hflag|]. split; [exact Htty|]. split; [reflexivity|].
  rewrite filter_app. cbn [filter is_terminal_call]. now rewrite app_nil_r.
Qed.

Ltac count_events :=
  cbn [count filter List.length app is_step is_read is_usleep is_allocation
       is_free is_gdb_call is_terminal_call is_i3c_start is_destroy
       is_init_success Z.of_nat Pos.of_succ_nat Pos.succ].

Lemma gdb_mode_events (opts : list GetoptResult) (env : Env) (w : World) :
  env_gdb_mode env = true ->
  let evs := events_of (main program_name opts env w) in
  count is_step evs = 0 /\ count is_read evs = 0
  /\ count is_usleep evs = 0
  /\ count is_allocation evs <= 1
  /\ count is_gdb_call evs <= 2
  /\ (terminal_raw_mode w = false -> count is_terminal_call evs = 0).
Proof.
  intros Hmode. cbv zeta.
  destruct (main_cases opts) as [(config & Hparse & Hmiss)|Hearly].
  - rewrite (main_engine_events opts env w config Hparse Hmiss). cbv zeta.
    set (w0 := set_atexit_registered true w).
    destruct (mode_run_facts env w0) as (_ & _ & _ & _ & _ & _ & Hg & _).
    rewrite (Hg Hmode).
    rewrite !events_of_run, !value_of_run, !world_of_run.
    pose proof (restore_events_count is_step w0 (fun _ _ => eq_refl)) as H1.
    pose proof (restore_events_count is_read w0 (fun _ _ => eq_refl)) as H2.
    pose proof (restore_events_count is_usleep w0 (fun _ _ => eq_refl)) as H3.
    pose proof (restore_events_count is_allocation w0 (fun _ _ => eq_refl))
      as H4.
    pose proof (restore_events_count is_gdb_call w0 (fun _ _ => eq_refl))
      as H5.
    assert (Ht : terminal_raw_mode w = false ->
                 count is_terminal_call (restore_events w0) = 0).
    { intros Hoff. unfold restore_events.
      change (terminal_raw_mode w0) with (terminal_raw_mode w).
      now rewrite Hoff. }
    destruct (env_alloc_ok env) eqn:Halloc;
      [destruct (env_init env) as [|e];
       [destruct (i3c_outcome config env) as [|e]|]|];
      count_blocks; rewrite ?Halloc, ?H1, ?H2, ?H3, ?H4, ?H5;
      destruct (negb (cfg_int config i3c_port =? 0));
      destruct (0 <? Z.of_nat (String.length (env_final_uart env)));
      count_events; repeat split; try lia;
      intros Hoff; rewrite ?(Ht Hoff); lia.
  - pose proof (main_early_events opts env w Hearly) as Hout.
    rewrite !(output_counts _ _ (fun _ _ => eq_refl) Hout).
    repeat split; lia.
Qed.

Lemma run_mode_events (opts : list GetoptResult) (env : Env) (w : World) :
  env_gdb_mode env = false ->
  count is_gdb_call (events_of (main program_name opts env w)) = 0.
Proof.
  intros Hmode.
  destruct (main_cases opts) as [(config & Hparse & Hmiss)|Hearly].
  - rewrite (main_engine_events opts env w config Hparse Hmiss). cbv zeta.
    set (w0 := set_atexit_registered true w).
    destruct (mode_run_facts env w0) as (_ & _ & _ & _ & _ & _ & _ & Hn).
    specialize (Hn Hmode).
    destruct (mode_run env w0) as [[E W] ran].
    rewrite !events_of_run, !value_of_run, !world_of_run in *.
    pose proof (restore_events_count is_gdb_call W (fun _ _ => eq_refl))
      as H5.
    destruct (env_alloc_ok env) eqn:Halloc;
      [destruct (env_init env) as [|e];
       [destruct (i3c_outcome config env) as [|e]; [destruct ran|]|]|];
      count_blocks; rewrite ?Halloc, ?Hn, ?H5;
      destruct (negb (cfg_int config i3c_port =? 0));
      destruct (0 <? Z.of_nat (String.length (env_final_uart env)));
      count_events; lia.
  - pose proof (main_early_events opts env w Hearly) as Hout.
    now rewrite !(output_counts _ _ (fun _ _ => eq_refl) Hout).
Qed.

(** X15.  The two modes exclude each other.  Whatever the command line,
    a run of [main] in which the engine reports debug mode has no step
    of the engine, no read of the console, no sleep, no UART buffer and,
    with raw mode off at the start, no call on the terminal; a run in
    which the engine does not report debug mode makes no call for the
    debug server. *)
Theorem modes_exclude_each_other (opts : list GetoptResult) (env : Env)
  (w : World) :
  let evs := events_of (main program_name opts env w) in
  (env_gdb_mode env = true ->
     count is_step evs = 0 /\ count is_read evs = 0
     /\ count is_usleep evs = 0
     /\ count is_allocation evs <= 1
     /\ (terminal_raw_mode w = false -> count is_terminal_call evs = 0))
  /\ (env_gdb_mode env = false -> count is_gdb_call evs = 0).
Proof.
  cbv zeta. split.
  - intros Hmode.
    destruct (gdb_mode_events opts env w Hmode)
      as (H1 & H2 & H3 & H4 & _ & H6).
    now repeat split.
  - apply run_mode_events.
Qed.

(** The I3C controller in a run of [main]. *)
Lemma i3c_start_count (opts : list GetoptResult) (env : Env) (w : World)
  (config : CEmulatorConfig) :
  parse_options program_name opts default_config = Next config ->
  let evs := events_of (main program_name opts env w) in
  count is_i3c_start evs <= 1
  /\ (i3c_requested config = false -> count is_i3c_start evs = 0)
  /\ (first_missing config = None -> env_alloc_ok env = true ->
      env_init env = Success -> i3c_requested config = true ->
      count is_i3c_start evs = 1).
Proof.
  intros Hparse. cbv zeta.
  destruct (first_missing config) as [f|] eqn:Hmiss.
  - assert (Hearly : forall c,
      parse_options program_name opts default_config = Next c ->
      first_missing c <> None).
    { intros c Hc. rewrite Hparse in Hc. injection Hc as <-.
      now rewrite Hmiss. }
    pose proof (main_early_events opts env w Hearly) as Hout.
    rewrite !(output_counts _ _ (fun _ _ => eq_refl) Hout).
    repeat split; try lia. discriminate.
  - rewrite (main_engine_events opts env w config Hparse Hmiss). cbv zeta.
    set (w0 := set_atexit_registered true w).
    destruct (mode_run_facts env w0) as (_ & _ & _ & _ & Hc & _).
    destruct (mode_run env w0) as [[E W] ran].
    rewrite !events_of_run, !value_of_run, !world_of_run in *.
    pose proof (restore_events_count is_i3c_start W (fun _ _ => eq_refl))
      as H5.
    unfold i3c_outcome, i3c_requested, init_events.
    destruct (env_alloc_ok env) eqn:Halloc;
      [destruct (env_init env) as [|e];
       [destruct (negb (cfg_int config i3c_port =? 0));
        [destruct (env_i3c env) as [|e]|]; destruct ran|]|];
      count_blocks; rewrite ?Halloc, ?Hc, ?H5;
      destruct (0 <? Z.of_nat (String.length (env_final_uart env)));
      count_events; repeat split; try lia; intros;
      first [lia | congruence].
Qed.


(** [atoi] on what a port option is given. *)
Lemma atoi_numeral (ds rest : string) :
  numeral 10 ds = true -> next_is_digit 10 rest = false ->
  positional 10 ds <= INT_MAX ->
  atoi (ds ++ rest) = positional 10 ds.
Proof.
  intros Hds Hrest Hmax. destruct ds as [|c ds]; [discriminate|].
  cbn [numeral] in Hds. pose proof Hds as Hall.
  pose proof (positional_nonneg 10 _ ltac:(lia) Hall) as Hpos.
  cbn [all_digits] in Hds. apply andb_true_iff in Hds. destruct Hds as [Hc _].
  unfold atoi, strtol. cbn [append skip_space].
  rewrite (digit_not_space 10 c Hc), (digit_not_sign 10 c _ Hc).
  cbv beta iota zeta. rewrite skip_0x_decimal.
  change (String c (ds ++ rest)) with (String c ds ++ rest).
  rewrite (take_digits_numeral 10 _ rest 0 0 Hall Hrest).
  rewrite Z.mul_0_l, Z.add_0_l.
  unfold INT_MAX in Hmax. unfold LONG_MAX, to_int.
  destruct (Z.leb_spec (positional 10 (String c ds)) (2 ^ 63 - 1)); [|lia].
  rewrite Z.mod_small by lia.
  destruct (Z.ltb_spec (positional 10 (String c ds)) (2 ^ 31)); lia.
Qed.

Lemma atoi_no_digit (c : ascii) (rest : string) :
  is_digit_in 10 c = false -> isspace c = false ->
  c <> "+"%char -> c <> "-"%char ->
  atoi (String c rest) = 0.
Proof.
  intros Hc Hspace Hplus Hminus.
  unfold atoi, strtol. cbn [skip_space]. rewrite Hspace.
  assert (Hsign : take_sign (String c rest) = (false, String c rest)).
  { unfold take_sign.
    destruct c as [[] [] [] [] [] [] [] []]; try reflexivity; congruence. }
  rewrite Hsign. cbv beta iota zeta. rewrite skip_0x_decimal.
  cbn [take_digits]. unfold is_digit_in in Hc.
  destruct (digit_in 10 c); [discriminate Hc|]. reflexivity.
Qed.

(** X16.  The I3C controller follows the port.  In a run of [main] the
    I3C controller is started at most once.  It is not started when no
    --i3c-port is given, nor when the argument of the last --i3c-port
    does not begin with a digit, a sign or white space: the port is then
    0 and nothing is reported.  When that argument begins with a decimal
    numeral between 1 and 65535, the port is the number it denotes,
    whatever follows the numeral, and the controller is started exactly
    once as soon as the engine has been initialized. *)
Theorem i3c_follows_the_port (opts : list GetoptResult) (env : Env)
  (w : World) (config : CEmulatorConfig)
  (Hparse : parse_options program_name opts default_config = Next config) :
  let evs := events_of (main program_name opts env w) in
  count is_i3c_start evs <= 1
  /\ (last_given 132 opts = None -> count is_i3c_start evs = 0)
  /\ (forall c rest,
        last_given 132 opts = Some (Some (String c rest)) ->
        is_digit_in 10 c = false -> isspace c = false ->
        c <> "+"%char -> c <> "-"%char ->
        cfg_int config i3c_port = 0 /\ count is_i3c_start evs = 0)
  /\ (forall ds rest,
        last_given 132 opts = Some (Some (ds ++ rest)) ->
        numeral 10 ds = true -> next_is_digit 10 rest = false ->
        0 < positional 10 ds <= 65535 ->
        cfg_int config i3c_port = positional 10 ds
        /\ (first_missing config = None -> env_alloc_ok env = true ->
            env_init env = Success -> count is_i3c_start evs = 1)).
Proof.
  cbv zeta.
  destruct (i3c_start_count opts env w config Hparse) as (Hle & Hno & Hyes).
  destruct (parse_options_int program_name opts default_config config Hparse)
    as (_ & _ & _ & _ & _ & Hport & _).
  split; [exact Hle|]. split; [|split].
  - intros Hlast. rewrite Hlast in Hport. apply Hno.
    unfold i3c_requested. now rewrite Hport.
  - intros c rest Hlast Hc Hspace Hplus Hminus.
    rewrite Hlast in Hport. destruct Hport as (s & [= <-] & Hport).
    rewrite (atoi_no_digit c rest Hc Hspace Hplus Hminus) in Hport.
    split; [exact Hport|]. apply Hno. unfold i3c_requested. now rewrite Hport.
  - intros ds rest Hlast Hds Hrest Hrange.
    rewrite Hlast in Hport. destruct Hport as (s & [= <-] & Hport).
    rewrite (atoi_numeral ds rest Hds Hrest
               ltac:(unfold INT_MAX; lia)) in Hport.
    split; [exact Hport|]. intros Hmiss Halloc Hinit.
    apply (Hyes Hmiss Halloc Hinit). unfold i3c_requested. rewrite Hport.
    destruct (Z.eqb_spec (positional 10 ds) 0); [lia | reflexivity].
Qed.

(** X17.  Failures of the initialization.  When [emulator_init] fails,
    [main] reports the code on stderr, frees the memory without calling
    [emulator_destroy] and returns 1.  When the start of the I3C
    controller fails, [main] reports the code, destroys the engine, frees
    the memory and returns 1.  In both cases the engine is never asked
    for its mode, no step runs and the terminal is not touched. *)
Theorem initialization_failures (opts : list GetoptResult) (env : Env)
  (w : World) (config : CEmulatorConfig)
  (Hparse : parse_options program_name opts default_config = Next config)
  (Hmiss : first_missing config = None)
  (Halloc : env_alloc_ok env = true) :
  let r := main program_name opts env w in
  (forall e, env_init env = Failed e ->
     events_of r =
       (handler_events ++ allocation_events env
        ++ [Output Stdout (allocated_message env);
            Engine (emulator_init config (Failed e));
            Output Stderr ("Failed to initialize emulator: " ++ dec e ++ nl);
            Free memory])%list
     /\ value_of r = Exited 1
     /\ world_of r = set_atexit_registered true w)
  /\ (forall e, env_init env = Success -> cfg_int config i3c_port <> 0 ->
        env_i3c env = Failed e ->
        events_of r =
          (handler_events ++ allocation_events env
           ++ [Output Stdout (allocated_message env);
               Engine (emulator_init config Success);
               Output Stdout ("Starting I3C controller..." ++ nl);
               Engine (emulator_start_i3c_controller (Failed e));
               Output Stderr ("Failed to start I3C controller: "
                                ++ dec e ++ nl);
               Engine emulator_destroy; Free memory])%list
        /\ value_of r = Exited 1
        /\ world_of r = set_atexit_registered true w).
Proof.
  cbv zeta. rewrite main_run, Hparse, Hmiss. cbv zeta.
  rewrite run_engine_run, Halloc. split.
  - intros e Hinit. rewrite Hinit.
    rewrite !events_of_run, !value_of_run, !world_of_run. now repeat split.
  - intros e Hinit Hport Hi3c. rewrite Hinit.
    unfold i3c_outcome, i3c_requested.
    destruct (Z.eqb_spec (cfg_int config i3c_port) 0) as [E|_];
      [contradiction|].
    cbn [negb]. rewrite Hi3c.
    rewrite !events_of_run, !value_of_run, !world_of_run. now repeat split.
Qed.

(** X18.  The options that end [main].  After options that the loop has
    gone through, --help prints the usage and returns 0, --version prints
    the version and returns 0, the value '?' of a rejected option
    returns 1 without a word, and a value for which the [switch] has no
    case aborts.  Nothing else happens: what follows on the command line
    is not looked at, a required path that is missing is not reported,
    no handler is installed and the engine is not called. *)
Theorem options_that_end_main (pre post : list GetoptResult)
  (o : GetoptResult) (config : CEmulatorConfig) (env : Env) (w : World)
  (Hpre : parse_options program_name pre default_config = Next config) :
  let r := main program_name (pre ++ o :: post) env w in
  (opt_c o = 104 ->
     r = (map (Output Stdout) (usage_text program_name), w, Exited 0))
  /\ (opt_c o = 86 -> r = ([Output Stdout version_text], w, Exited 0))
  /\ (opt_c o = 63 -> r = ([], w, Exited 1))
  /\ (known_option (opt_c o) = false -> r = ([], w, Aborted)).
Proof.
  cbv zeta. rewrite main_run.
  rewrite (parse_options_app program_name pre (o :: post) default_config).
  rewrite Hpre. cbn [parse_options].
  repeat split.
  - intros Hc. unfold handle_option. now rewrite Hc.
  - intros Hc. unfold handle_option. now rewrite Hc.
  - intros Hc. unfold handle_option. now rewrite Hc.
  - intros Hc. now rewrite (handle_unknown_option program_name o config Hc).
Qed.

End Lifecycle.

(** ** The option parser of the Windows build *)

Section WindowsGetopt.

Lemma get_none (s : string) (k : nat) :
  String.get k s = None <-> (String.length s <= k)%nat.
Proof.
  revert k. induction s as [|a s IH]; intros k.
  - cbn. split; [lia | reflexivity].
  - destruct k as [|k]; cbn [String.get String.length].
    + split; [discriminate | lia].
    + rewrite IH. lia.
Qed.

Lemma get_some (s : string) (k : nat) (c : ascii) :
  String.get k s = Some c -> (k < String.length s)%nat.
Proof.
  intros Hget. destruct (Nat.lt_ge_cases k (String.length s)) as [H|H];
    [exact H|].
  apply get_none in H. congruence.
Qed.

(** The character after one that is not the terminator can be read. *)
Lemma char_at_next (s : string) (k : nat) (c : ascii) :
  String.get k s = Some c ->
  exists next, char_at s (S k) = Some next
    /\ (Ascii.eqb next NUL = false -> String.get (S k) s = Some next).
Proof.
  intros Hget. apply get_some in Hget. unfold char_at.
  destruct (String.get (S k) s) as [n|] eqn:Hn.
  - exists n. now split.
  - apply get_none in Hn. exists NUL.
    replace (S k) with (String.length s) by lia.
    rewrite Nat.eqb_refl. split; [reflexivity | discriminate].
Qed.

Lemma strchr_bound (s : string) (c : ascii) (cp : nat) :
  Ascii.eqb c NUL = false -> strchr s c = Some cp ->
  (cp < String.length s)%nat.
Proof.
  intros Hc. revert cp. induction s as [|a s IH]; intros cp; cbn [strchr].
  - now rewrite Hc.
  - destruct (Ascii.eqb a c); [intros [= <-]; cbn; lia|].
    destruct (strchr s c) as [k|]; [|discriminate].
    intros [= <-]. specialize (IH k eq_refl). cbn. lia.
Qed.

Lemma char_at_bound (s : string) (k : nat) :
  (k <= String.length s)%nat -> exists c, char_at s k = Some c.
Proof.
  intros Hk. unfold char_at. destruct (String.get k s) as [c|] eqn:Hget.
  - now exists c.
  - apply get_none in Hget. replace k with (String.length s) by lia.
    rewrite Nat.eqb_refl. now exists NUL.
Qed.

Lemma remaining_at (argv : list string) (i : nat) (arg : string) :
  nth_error argv i = Some arg ->
  remaining argv i = (S (String.length arg) + remaining argv (S i))%nat.
Proof.
  revert i. induction argv as [|a argv IH]; intros i.
  - destruct i; discriminate.
  - destruct i as [|i]; cbn [nth_error remaining].
    + now intros [= ->].
    + intros Hi. exact (IH i Hi).
Qed.

Lemma remaining_mono (argv : list string) (i : nat) :
  (remaining argv (S i) <= remaining argv i)%nat.
Proof.
  revert i. induction argv as [|a argv IH]; intros i; [cbn; lia|].
  destruct i as [|i]; cbn [remaining]; [lia | apply IH].
Qed.

Lemma nth_error_length (argv : list string) (i : nat) (arg : string) :
  nth_error argv i = Some arg -> (i < List.length argv)%nat.
Proof. intros H. apply nth_error_Some. congruence. Qed.

Lemma code_nonneg (c : ascii) : 0 <= code c.
Proof. unfold code. lia. Qed.

(** What one call for a short option does to the place of the parser. *)
Definition advances (argv : list string) (g g' : Getopt) : Prop :=
  well_placed argv g' = true
  /\ (to_read argv g' < to_read argv g)%nat
  /\ (optind g <= optind g')%nat
  /\ (optind g' <= List.length argv)%nat.

Lemma short_option_step (argv : list string) (optstring : string)
  (g : Getopt) (arg : string) (c : ascii) :
  nth_error argv (optind g) = Some arg ->
  String.get (sp g) arg = Some c -> Ascii.eqb c NUL = false ->
  exists evs g' r,
    short_option argv optstring g = Some (evs, g', r)
    /\ advances argv g g' /\ r <> -1.
Proof.
  intros Harg Hget Hc.
  pose proof (get_some _ _ _ Hget) as Hsp.
  pose proof (remaining_at _ _ _ Harg) as Hrem.
  pose proof (remaining_mono argv (S (optind g))) as Hmono.
  pose proof (nth_error_length _ _ _ Harg) as Hlen.
  destruct (char_at_next _ _ _ Hget) as (next & Hnext & Hin).
  unfold short_option. rewrite Harg.
  unfold char_at at 1. rewrite Hget, Hnext.
  cbv zeta. cbn [optind sp set_optopt].
  assert (Hend : forall g1,
    optind g1 = S (optind g) -> sp g1 = 1%nat -> advances argv g g1).
  { intros g1 Hi Hs. unfold advances, well_placed, to_read.
    rewrite Hi, Hs, Hrem. cbn [Nat.eqb orb]. repeat split; lia. }
  assert (Hskip : forall g1,
    optind g1 = S (S (optind g)) -> sp g1 = 1%nat ->
    (S (optind g) < List.length argv)%nat -> advances argv g g1).
  { intros g1 Hi Hs Hl. unfold advances, well_placed, to_read.
    rewrite Hi, Hs, Hrem. cbn [Nat.eqb orb]. repeat split; lia. }
  assert (Hon : forall g1,
    optind g1 = optind g -> sp g1 = S (sp g) ->
    Ascii.eqb next NUL = false -> advances argv g g1).
  { intros g1 Hi Hs Hn. unfold advances, well_placed, to_read.
    rewrite Hi, Hs, Harg, (Hin Hn), Hn, Hrem. cbn [negb].
    rewrite orb_true_r.
    pose proof (get_some _ _ _ (Hin Hn)). repeat split; lia. }
  pose proof (code_nonneg c) as Hcode.
  destruct (if Ascii.eqb c ":" then None else strchr optstring c)
    as [cp|] eqn:Hcp.
  - assert (Hbound : (cp < String.length optstring)%nat).
    { destruct (Ascii.eqb c ":"); [discriminate Hcp|].
      exact (strchr_bound _ _ _ Hc Hcp). }
    destruct (char_at_bound optstring (S cp) Hbound) as (colon & ->).
    destruct (Ascii.eqb colon ":").
    + destruct (Ascii.eqb next NUL) eqn:Hn; cbn [negb].
      * destruct (Nat.leb_spec (List.length argv) (S (optind g))) as [Hl|Hl].
        -- eexists _, _, _. split; [reflexivity|].
           split; [now apply Hend | unfold QUESTION; lia].
        -- destruct (nth_error argv (S (optind g))) as [a|] eqn:Ha.
           ++ eexists _, _, _. split; [reflexivity|].
              split; [now apply Hskip | lia].
           ++ apply nth_error_None in Ha. lia.
      * eexists _, _, _. split; [reflexivity|].
        split; [now apply Hend | lia].
    + destruct (Ascii.eqb next NUL) eqn:Hn.
      * eexists _, _, _. split; [reflexivity|].
        split; [now apply Hend | lia].
      * eexists _, _, _. split; [reflexivity|].
        split; [now apply Hon | lia].
  - destruct (Ascii.eqb next NUL) eqn:Hn.
    + eexists _, _, _. split; [reflexivity|].
      split; [now apply Hend | unfold QUESTION; lia].
    + eexists _, _, _. split; [reflexivity|].
      split; [now apply Hon | unfold QUESTION; lia].
Qed.


Lemma no_option_false (argv : list string) (g : Getopt) :
  no_option argv g = false ->
  exists c rest,
    nth_error argv (optind g) = Some (String "-" (String c rest))
    /\ Ascii.eqb c NUL = false.
Proof.
  unfold no_option. destruct (nth_error argv (optind g)) as [arg|];
    [|discriminate].
  destruct arg as [|a arg]; [discriminate|].
  destruct a as [[] [] [] [] [] [] [] []]; try discriminate.
  destruct arg as [|c rest]; [discriminate|].
  intros Hc. now exists c, rest.
Qed.

(** The comparison in the loop over the table is equality with the name
    given. *)
Lemma strncmp_name (a n rest : string) :
  strncmp_eq a (n ++ rest) (String.length n)
  && (String.length a =? String.length n)%nat = String.eqb a n.
Proof.
  revert a. induction n as [|y n IH]; intros a.
  - cbn. now destruct a.
  - destruct a as [|x a]; [reflexivity|].
    cbn [append String.length strncmp_eq String.eqb Nat.eqb].
    rewrite <- andb_assoc, IH. now destruct (Ascii.eqb x y).
Qed.

Lemma find_long_named (longopts : list long_option) (n rest : string)
  (i : Z) :
  option_map snd (find_long longopts (n ++ rest) (String.length n) i) =
  entry_named n longopts.
Proof.
  unfold entry_named. revert i.
  induction longopts as [|o longopts IH]; intros i; [reflexivity|].
  cbn [find_long find]. rewrite strncmp_name.
  destruct (String.eqb (name o) n); [reflexivity | apply IH].
Qed.

Lemma strchr_equals (n v : string) :
  has_char "=" n = false ->
  strchr (n ++ String "=" v) "=" = Some (String.length n).
Proof.
  induction n as [|a n IH]; intros Hn; [reflexivity|].
  cbn [has_char] in Hn. apply orb_false_iff in Hn. destruct Hn as [Ha Hn].
  cbn [append strchr String.length]. rewrite Ha, (IH Hn). reflexivity.
Qed.

Lemma strchr_none (n : string) :
  has_char "=" n = false -> strchr n "=" = None.
Proof.
  induction n as [|a n IH]; intros Hn; [reflexivity|].
  cbn [has_char] in Hn. apply orb_false_iff in Hn. destruct Hn as [Ha Hn].
  cbn [strchr]. now rewrite Ha, (IH Hn).
Qed.

Lemma string_from_app (n rest : string) :
  string_from (String.length n) (n ++ rest) = rest.
Proof. induction n as [|a n IH]; [now destruct rest | exact IH]. Qed.

Lemma string_from_next (n v : string) (c : ascii) :
  string_from (S (String.length n)) (n ++ String c v) = v.
Proof. induction n as [|a n IH]; [reflexivity | exact IH]. Qed.

Lemma string_from_dashes (s : string) :
  string_from 2 (String "-" (String "-" s)) = s.
Proof. reflexivity. Qed.

Lemma string_take_app (n rest : string) :
  string_take (String.length n) (n ++ rest) = n.
Proof.
  induction n as [|a n IH]; [now destruct rest|].
  cbn [String.length append string_take]. now rewrite IH.
Qed.

Lemma strchr_split (s : string) (c : ascii) (k : nat) :
  Ascii.eqb c NUL = false -> strchr s c = Some k ->
  s = string_take k s ++ String c (string_from (S k) s)
  /\ String.length (string_take k s) = k.
Proof.
  intros Hc. revert k. induction s as [|a s IH]; intros k; cbn [strchr].
  - now rewrite Hc.
  - destruct (Ascii.eqb_spec a c) as [->|Hne].
    + intros [= <-]. now split.
    + destruct (strchr s c) as [j|]; [|discriminate].
      intros [= <-]. destruct (IH j eq_refl) as (Hs & Hlen).
      change (string_from (S (S j)) (String a s)) with (string_from (S j) s).
      cbn [string_take append String.length].
      split; [now rewrite <- Hs | now rewrite Hlen].
Qed.

Lemma long_option_call_step (argv : list string)
  (longopts : list long_option) (g : Getopt) (rest : string) :
  nth_error argv (optind g) = Some (String "-" (String "-" rest)) ->
  sp g = 1%nat ->
  exists evs g' r,
    long_option_call argv longopts (String "-" (String "-" rest)) g =
      Some (evs, g', r)
    /\ well_placed argv g' = true
    /\ (optind g <= optind g' <= List.length argv)%nat
    /\ if refused_flag_argument argv longopts g
       then r = QUESTION /\ optind g' = optind g /\ sp g' = sp g
       else (to_read argv g' < to_read argv g)%nat.
Proof.
  intros Harg Hsp.
  pose proof (remaining_at _ _ _ Harg) as Hrem.
  pose proof (remaining_mono argv (S (optind g))) as Hmono.
  pose proof (nth_error_length _ _ _ Harg) as Hlen.
  cbn [String.length] in Hrem.
  assert (Hend : forall g1,
    optind g1 = S (optind g) -> sp g1 = 1%nat ->
    well_placed argv g1 = true
    /\ (optind g <= optind g1 <= List.length argv)%nat
    /\ (to_read argv g1 < to_read argv g)%nat).
  { intros g1 Hi Hs. unfold well_placed, to_read.
    rewrite Hi, Hs, Hsp, Hrem. cbn [Nat.eqb orb]. repeat split; lia. }
  assert (Hskip : forall g1,
    optind g1 = S (S (optind g)) -> sp g1 = 1%nat ->
    (S (optind g) < List.length argv)%nat ->
    well_placed argv g1 = true
    /\ (optind g <= optind g1 <= List.length argv)%nat
    /\ (to_read argv g1 < to_read argv g)%nat).
  { intros g1 Hi Hs Hl. unfold well_placed, to_read.
    rewrite Hi, Hs, Hsp, Hrem. cbn [Nat.eqb orb]. repeat split; lia. }
  unfold long_option_call, refused_flag_argument. cbv zeta.
  rewrite string_from_dashes, Harg, Hsp. cbn [Nat.eqb andb].
  destruct (strchr rest "=") as [k|] eqn:Hk.
  - destruct (strchr_split rest "=" k eq_refl Hk) as (Hrest & Hlen_k).
    pose proof (find_long_named longopts (string_take k rest)
                  (String "=" (string_from (S k) rest)) 0) as Hfind.
    rewrite <- Hrest, Hlen_k in Hfind.
    destruct (find_long longopts rest k 0) as [[i o]|];
      cbn [option_map snd] in Hfind; rewrite <- Hfind.
    + cbn [optind sp set_option_index].
      destruct (has_arg o =? required_argument); cbn [negb].
      * eexists _, _, _. split; [reflexivity|].
        destruct (Hend (set_optind (S (optind g))
                         (set_optarg (Some (string_from (S k) rest))
                            (set_option_index i g))) eq_refl Hsp)
          as (H1 & H2 & H3).
        now repeat split.
      * eexists _, _, _. split; [reflexivity|].
        unfold well_placed. cbn [sp set_option_index optind]. rewrite Hsp.
        cbn [Nat.eqb orb]. repeat split; lia.
    + eexists _, _, _. split; [reflexivity|].
      destruct (Hend (set_optind (S (optind g)) g) eq_refl Hsp)
        as (H1 & H2 & H3).
      now repeat split.
  - destruct (find_long longopts rest (String.length rest) 0) as [[i o]|].
    + cbn [optind sp set_option_index].
      destruct (has_arg o =? required_argument).
      * destruct (Nat.leb_spec (List.length argv) (S (optind g))) as [Hl|Hl].
        -- eexists _, _, _. split; [reflexivity|].
           destruct (Hend (set_optind (S (optind g)) (set_option_index i g))
                       eq_refl Hsp) as (H1 & H2 & H3).
           now repeat split.
        -- destruct (nth_error argv (S (optind g))) as [a|] eqn:Ha.
           ++ eexists _, _, _. split; [reflexivity|].
              destruct (Hskip (set_optind (S (S (optind g)))
                                 (set_optarg (Some a) (set_option_index i g)))
                          eq_refl Hsp Hl) as (H1 & H2 & H3).
              now repeat split.
           ++ apply nth_error_None in Ha. lia.
      * eexists _, _, _. split; [reflexivity|].
        destruct (Hend (set_optind (S (optind g))
                         (set_optarg None (set_option_index i g)))
                    eq_refl Hsp) as (H1 & H2 & H3).
        now repeat split.
    + eexists _, _, _. split; [reflexivity|].
      destruct (Hend (set_optind (S (optind g)) g) eq_refl Hsp)
        as (H1 & H2 & H3).
      now repeat split.
Qed.

(** An argument that does not begin with two dashes gives no long
    option. *)
Lemma refused_not_long (argv : list string) (longopts : list long_option)
  (g : Getopt) (c : ascii) (rest : string) :
  nth_error argv (optind g) = Some (String "-" (String c rest)) ->
  c <> "-"%char -> refused_flag_argument argv longopts g = false.
Proof.
  intros Harg Hc. unfold refused_flag_argument. rewrite Harg.
  destruct (sp g =? 1)%nat; [|reflexivity]. cbn [andb].
  destruct c as [[] [] [] [] [] [] [] []]; try reflexivity.
  now contradiction Hc.
Qed.

(** A call for a short option inside an argument, and at its start. *)
Lemma short_inside (argv : list string) (optstring : string)
  (g g0 : Getopt) :
  well_placed argv g = true ->
  optind g0 = optind g -> sp g0 = sp g -> (sp g =? 1)%nat = false ->
  exists evs g' c,
    short_option argv optstring g0 = Some (evs, g', c)
    /\ well_placed argv g' = true
    /\ (optind g <= optind g' <= Nat.max (optind g) (List.length argv))%nat
    /\ (to_read argv g' < to_read argv g)%nat.
Proof.
  intros Hplaced Hi Hs Hne. unfold well_placed in Hplaced.
  rewrite Hne in Hplaced. cbn [orb] in Hplaced.
  destruct (nth_error argv (optind g)) as [arg|] eqn:Harg; [|discriminate].
  destruct (String.get (sp g) arg) as [c|] eqn:Hget; [|discriminate].
  apply negb_true_iff in Hplaced.
  rewrite <- Hi in Harg. rewrite <- Hs in Hget.
  destruct (short_option_step argv optstring g0 arg c Harg Hget Hplaced)
    as (evs & g' & r & Hrun & (H1 & H2 & H3 & H4) & _).
  exists evs, g', r. unfold to_read in *. rewrite Hi, Hs in *.
  repeat split; try assumption; lia.
Qed.

Lemma short_first (argv : list string) (optstring : string)
  (g g0 : Getopt) (c : ascii) (rest : string) :
  optind g0 = optind g -> sp g0 = sp g -> sp g = 1%nat ->
  nth_error argv (optind g) = Some (String "-" (String c rest)) ->
  Ascii.eqb c NUL = false ->
  exists evs g' r,
    short_option argv optstring g0 = Some (evs, g', r)
    /\ well_placed argv g' = true
    /\ (optind g <= optind g' <= Nat.max (optind g) (List.length argv))%nat
    /\ (to_read argv g' < to_read argv g)%nat.
Proof.
  intros Hi Hs Hone Harg Hc.
  rewrite <- Hi in Harg.
  assert (Hget : String.get (sp g0) (String "-" (String c rest)) = Some c)
    by (now rewrite Hs, Hone).
  destruct (short_option_step argv optstring g0 _ c Harg Hget Hc)
    as (evs & g' & r & Hrun & (H1 & H2 & H3 & H4) & _).
  exists evs, g', r. unfold to_read in *. rewrite Hi, Hs in *.
  repeat split; try assumption; lia.
Qed.

(** One call of [getopt_long], from a place where the parser may be. *)
Lemma getopt_long_steps (argv : list string) (optstring : string)
  (longopts : list long_option) (g : Getopt) :
  well_placed argv g = true ->
  exists evs g' c,
    getopt_long argv optstring longopts g = Some (evs, g', c)
    /\ well_placed argv g' = true
    /\ (optind g <= optind g' <= Nat.max (optind g) (List.length argv))%nat
    /\ progress argv longopts g g' c.
Proof.
  intros Hplaced.
  unfold getopt_long, progress, at_end. cbv zeta. cbn [sp set_option_index].
  set (g0 := set_option_index (-1) g).
  change (no_option argv g) with (no_option argv g0).
  change (refused_flag_argument argv longopts g)
    with (refused_flag_argument argv longopts g0).
  destruct (sp g =? 1)%nat eqn:Hsp; cbn [andb].
  - apply Nat.eqb_eq in Hsp.
    destruct (no_option argv g0) eqn:Hno.
    + exists [], g0, (-1). repeat split; try assumption;
        cbn [optind g0 set_option_index]; lia.
    + destruct (no_option_false argv g0 Hno) as (c & rest & Harg & Hc).
      rewrite Harg.
      destruct (String.eqb_spec (String "-" (String c rest)) "--")
        as [Heq|Hne].
      * injection Heq as -> ->.
        assert (Hnot : refused_flag_argument argv longopts g0 = false).
        { unfold refused_flag_argument. rewrite Harg.
          now destruct (sp g0 =? 1)%nat. }
        rewrite Hnot.
        eexists _, _, _. split; [reflexivity|].
        pose proof (nth_error_length _ _ _ Harg) as Hl.
        pose proof (remaining_at _ _ _ Harg) as Hrem.
        cbn [optind g0 set_option_index String.length] in Hl, Hrem.
        unfold well_placed, to_read.
        cbn [sp optind set_optind g0 set_option_index].
        rewrite Hsp, Hrem.
        cbn [Nat.eqb orb]. repeat split; lia.
      * destruct (Ascii.eqb_spec c "-") as [->|Hdash].
        -- destruct (long_option_call_step argv longopts g0 rest Harg Hsp)
             as (evs & g' & r & Hrun & H1 & H2 & H3).
           exists evs, g', r. split; [exact Hrun|].
           split; [exact H1|].
           split; [cbn [optind g0 set_option_index] in H2; lia|].
           exact H3.
        -- destruct (short_first argv optstring g g0 c rest eq_refl eq_refl
                       Hsp Harg Hc)
             as (evs & g' & r & Hrun & H1 & H2 & H3).
           exists evs, g', r.
           assert (Hcall :
             match String "-" (String c rest) with
             | String "-" (String "-" _) =>
                 long_option_call argv longopts
                   (String "-" (String c rest)) g0
             | _ => short_option argv optstring g0
             end = short_option argv optstring g0).
           { destruct c as [[] [] [] [] [] [] [] []]; try reflexivity.
             now contradiction Hdash. }
           rewrite Hcall, (refused_not_long argv longopts g0 c rest Harg Hdash).
           now repeat split.
  - assert (Hnot : refused_flag_argument argv longopts g0 = false).
    { unfold refused_flag_argument. change (sp g0) with (sp g).
      now rewrite Hsp. }
    rewrite Hnot.
    destruct (short_inside argv optstring g g0 Hplaced eq_refl eq_refl Hsp)
      as (evs & g' & r & Hrun & H1 & H2 & H3).
    exists evs, g', r. now repeat split.
Qed.


(** X19.  The parsers of the Windows build stay inside their arguments
    and advance.  From a place at the start of an argument, or inside
    one before its terminator, a call of [getopt] or of [getopt_long]
    reads no character behind a terminator and no argument behind the
    last; it leaves the parser at such a place again, with [optind]
    not below its old value and not above [argc] unless it was.  At the
    end of the options the call returns -1 and stays where it is.
    [getopt_long] also stays where it is, returning '?', on a long
    option without an argument that is given one with an equals sign.
    Every other call consumes at least one character: so does a
    rejected option, a missing argument and the argument "--". *)
Theorem parsers_advance (argv : list string) (optstring : string)
  (longopts : list long_option) (g : Getopt)
  (Hplaced : well_placed argv g = true) :
  (exists evs g' c,
     getopt argv optstring g = Some (evs, g', c)
     /\ well_placed argv g' = true
     /\ (optind g <= optind g' <= Nat.max (optind g) (List.length argv))%nat
     /\ if at_end argv g then c = -1 /\ g' = g
        else (to_read argv g' < to_read argv g)%nat)
  /\ (exists evs g' c,
        getopt_long argv optstring longopts g = Some (evs, g', c)
        /\ well_placed argv g' = true
        /\ (optind g <= optind g'
            <= Nat.max (optind g) (List.length argv))%nat
        /\ progress argv longopts g g' c).
Proof.
  split; [|exact (getopt_long_steps argv optstring longopts g Hplaced)].
  unfold getopt, at_end. destruct (sp g =? 1)%nat eqn:Hsp; cbn [andb].
  - apply Nat.eqb_eq in Hsp.
    destruct (no_option argv g) eqn:Hno.
    + exists [], g, (-1). repeat split; try assumption; lia.
    + destruct (no_option_false argv g Hno) as (c & rest & Harg & Hc).
      rewrite Harg.
      destruct (String.eqb_spec (String "-" (String c rest)) "--")
        as [Heq|Hne].
      * eexists _, _, _. split; [reflexivity|].
        pose proof (nth_error_length _ _ _ Harg).
        pose proof (remaining_at _ _ _ Harg) as Hrem.
        rewrite Heq in Hrem. cbn [String.length] in Hrem.
        unfold well_placed, to_read. cbn [sp optind set_optind].
        rewrite Hsp, Hrem.
        cbn [Nat.eqb orb]. repeat split; lia.
      * destruct (short_first argv optstring g g c rest eq_refl eq_refl
                    Hsp Harg Hc)
          as (evs & g' & r & Hrun & H1 & H2 & H3).
        exists evs, g', r. now repeat split.
  - destruct (short_inside argv optstring g g Hplaced eq_refl eq_refl Hsp)
      as (evs & g' & r & Hrun & H1 & H2 & H3).
    exists evs, g', r. now repeat split.
Qed.


(** X20.  Long options on Windows.  A long option is found by its whole
    name only, the first entry of the table with that name: what is not
    the name of an entry is rejected with a message, also when it
    abbreviates one.  For an option with an argument, --name=value and
    --name value give the same value and the same [optarg]; --name as
    the last argument is rejected.  An option without an argument that
    is given one with an equals sign is rejected, and [optind] stays on
    it. *)
Theorem long_options_by_name (argv : list string) (optstring : string)
  (longopts : list long_option) (g : Getopt) (n : string)
  (Hsp : sp g = 1%nat) (Hn : has_char "=" n = false) :
  (forall v,
     nth_error argv (optind g) = Some ("--" ++ n ++ "=" ++ v) ->
     outcome (getopt_long argv optstring longopts g) =
       match entry_named n longopts with
       | None =>
           Some ([Output Stderr ("unrecognized option '--" ++ n ++ "'" ++ nl)],
                 QUESTION, optarg g, S (optind g))
       | Some o =>
           if has_arg o =? required_argument
           then Some ([], val o, Some v, S (optind g))
           else Some ([Output Stderr
                         ("option '--" ++ name o
                            ++ "' doesn't allow an argument" ++ nl)],
                      QUESTION, optarg g, optind g)
       end)
  /\ (n <> "" ->
      nth_error argv (optind g) = Some ("--" ++ n) ->
      outcome (getopt_long argv optstring longopts g) =
        match entry_named n longopts with
        | None =>
            Some ([Output Stderr
                     ("unrecognized option '--" ++ n ++ "'" ++ nl)],
                  QUESTION, optarg g, S (optind g))
        | Some o =>
            if has_arg o =? required_argument
            then
              match nth_error argv (S (optind g)) with
              | Some v => Some ([], val o, Some v, S (S (optind g)))
              | None =>
                  Some ([Output Stderr
                           ("option '--" ++ name o
                              ++ "' requires an argument" ++ nl)],
                        QUESTION, optarg g, S (optind g))
              end
            else Some ([], val o, None, S (optind g))
        end).
Proof.
  split.
  - intros v Harg. unfold getopt_long, no_option. cbv zeta.
    cbn [sp optind set_option_index]. rewrite Hsp, Harg. cbn [Nat.eqb].
    cbn [append Ascii.eqb Bool.eqb NUL Ascii.zero String.eqb].
    destruct (String.eqb_spec (n ++ String "=" v) "") as [E|_];
      [destruct n; discriminate E|].
    unfold long_option_call. cbv zeta. rewrite !string_from_dashes.
    rewrite (strchr_equals n v Hn).
    pose proof (find_long_named longopts n (String "=" v) 0) as Hfind.
    destruct (find_long longopts (n ++ String "=" v) (String.length n) 0)
      as [[i o]|]; cbn [option_map snd] in Hfind; rewrite <- Hfind.
    + destruct (has_arg o =? required_argument); cbn [outcome]; [|reflexivity].
      cbn [optarg optind set_optind set_optarg set_option_index].
      now rewrite string_from_next.
    + cbn [outcome optarg optind set_optind set_option_index].
      now rewrite string_take_app.
  - intros Hne Harg. unfold getopt_long, no_option. cbv zeta.
    cbn [sp optind set_option_index]. rewrite Hsp, Harg. cbn [Nat.eqb].
    cbn [append Ascii.eqb Bool.eqb NUL Ascii.zero String.eqb].
    destruct (String.eqb_spec n "") as [E|_]; [contradiction|].
    unfold long_option_call. cbv zeta. rewrite !string_from_dashes.
    rewrite (strchr_none n Hn).
    pose proof (find_long_named longopts n "" 0) as Hfind.
    rewrite append_nil_r in Hfind.
    destruct (find_long longopts n (String.length n) 0)
      as [[i o]|]; cbn [option_map snd] in Hfind; rewrite <- Hfind.
    + destruct (has_arg o =? required_argument); cbn [outcome];
        [|reflexivity].
      cbn [optind set_option_index].
      destruct (Nat.leb_spec (List.length argv) (S (optind g))) as [Hl|Hl].
      * apply nth_error_None in Hl. now rewrite Hl.
      * destruct (nth_error argv (S (optind g))) as [a|] eqn:Ha;
          [reflexivity|].
        apply nth_error_None in Ha. lia.
    + cbn [outcome optarg optind set_optind set_option_index].
      pose proof (string_take_app n "") as Htake.
      rewrite append_nil_r in Htake. now rewrite Htake.
Qed.


Lemma option_loop_step (calls : nat) (argv : list string) (g : Getopt) :
  option_loop (S calls) argv g =
    match getopt_long argv main_optstring long_options g with
    | None => None
    | Some (_, g', c) =>
        if c =? -1 then Some []
        else if (c =? QUESTION) || (c =? 104) || (c =? 86)
        then Some [mk_opt c (optarg g')]
        else
          match option_loop calls argv g' with
          | Some opts => Some (mk_opt c (optarg g') :: opts)
          | None => None
          end
    end.
Proof. reflexivity. Qed.

Lemma option_loop_from (argv : list string) (calls : nat) (g : Getopt) :
  well_placed argv g = true -> (to_read argv g < calls)%nat ->
  exists opts, option_loop calls argv g = Some opts.
Proof.
  revert g. induction calls as [|calls IH]; intros g Hplaced Hfuel; [lia|].
  destruct (getopt_long_steps argv main_optstring long_options g Hplaced)
    as (evs & g' & c & Hrun & Hplaced' & _ & Hless).
  rewrite option_loop_step, Hrun.
  destruct (Z.eqb_spec c (-1)) as [_|Hc]; [now exists []|].
  destruct (Z.eqb_spec c QUESTION) as [_|Hq]; cbn [orb]; [now eexists|].
  destruct ((c =? 104) || (c =? 86)); [now eexists|].
  unfold progress in Hless.
  destruct (at_end argv g); [now destruct Hless|].
  destruct (refused_flag_argument argv long_options g);
    [now destruct Hless|].
  destruct (IH g' Hplaced' ltac:(lia)) as (opts & ->).
  now eexists.
Qed.

Lemma option_loop_more (argv : list string) (calls : nat) (g : Getopt)
  (opts : list GetoptResult) :
  option_loop calls argv g = Some opts ->
  option_loop (S calls) argv g = Some opts.
Proof.
  revert g opts. induction calls as [|calls IH]; intros g opts;
    [discriminate|].
  rewrite (option_loop_step (S calls)), (option_loop_step calls).
  destruct (getopt_long argv main_optstring long_options g)
    as [[[evs g'] c]|]; [|discriminate].
  destruct (c =? -1); [trivial|].
  destruct ((c =? QUESTION) || (c =? 104) || (c =? 86)); [trivial|].
  destruct (option_loop calls argv g') as [rest|] eqn:Hrest; [|discriminate].
  now rewrite (IH g' rest Hrest).
Qed.

(** X21.  The option loop of [main] ends on Windows.  For every command
    line the calls of [getopt_long] that the loop makes are defined, and
    the loop ends: no more calls are made than the command line has
    characters and terminators after the program name, and one more. *)
Theorem option_loop_ends (argv : list string) :
  exists opts, forall calls,
    (remaining argv 1 < calls)%nat ->
    option_loop calls argv initial_getopt = Some opts.
Proof.
  destruct (option_loop_from argv (S (remaining argv 1)) initial_getopt
              eq_refl)
    as (opts & Hopts);
    [unfold to_read; cbn [optind sp initial_getopt]; lia|].
  exists opts. intros calls Hcalls.
  replace calls with ((calls - S (remaining argv 1))
                      + S (remaining argv 1))%nat by lia.
  induction (calls - S (remaining argv 1))%nat as [|k IH]; [exact Hopts|].
  cbn [Nat.add]. now apply option_loop_more.
Qed.

(** The table and the option string of [main]. *)
Lemma main_long_values (o : long_option) :
  In o long_options ->
  known_option (val o) = true
  /\ (has_arg o =? required_argument) =
       negb (existsb (Z.eqb (val o)) flag_values).
Proof.
  assert (Hall : forallb (fun o =>
            known_option (val o)
            && Bool.eqb (has_arg o =? required_argument)
                 (negb (existsb (Z.eqb (val o)) flag_values)))
            long_options = true) by reflexivity.
  rewrite forallb_forall in Hall. intros Hin.
  specialize (Hall o Hin). apply andb_true_iff in Hall.
  destruct Hall as [Hk Hf]. split; [exact Hk|]. now apply Bool.eqb_prop.
Qed.

Lemma find_long_in (longopts : list long_option) (long_name : string)
  (k : nat) (i j : Z) (o : long_option) :
  find_long longopts long_name k i = Some (j, o) -> In o longopts.
Proof.
  revert i. induction longopts as [|o1 longopts IH]; intros i; [discriminate|].
  cbn [find_long].
  destruct (strncmp_eq (name o1) long_name k
            && (String.length (name o1) =? k)%nat).
  - intros [= _ <-]. now left.
  - intros Hfind. right. exact (IH _ Hfind).
Qed.

Lemma main_short_values (c colon : ascii) (cp : nat) :
  Ascii.eqb c NUL = false ->
  (if Ascii.eqb c ":" then None else strchr main_optstring c) = Some cp ->
  char_at main_optstring (S cp) = Some colon ->
  known_option (code c) = true
  /\ Ascii.eqb colon ":" = negb (existsb (Z.eqb (code c)) flag_values).
Proof.
  destruct c as [[] [] [] [] [] [] [] []]; vm_compute;
    intros Hc Hcp; try discriminate Hc; try discriminate Hcp;
    injection Hcp as <-; intros [= <-]; split; reflexivity.
Qed.

Lemma short_option_values (argv : list string) (g : Getopt) (arg : string)
  (ch : ascii) (evs : list Event) (g' : Getopt) (c : Z) :
  nth_error argv (optind g) = Some arg ->
  String.get (sp g) arg = Some ch -> Ascii.eqb ch NUL = false ->
  short_option argv main_optstring g = Some (evs, g', c) ->
  handled (mk_opt c (optarg g')).
Proof.
  intros Harg Hget Hc. unfold short_option, handled. rewrite Harg.
  unfold char_at at 1. rewrite Hget.
  destruct (char_at arg (S (sp g))) as [next|]; [|discriminate].
  cbv zeta. cbn [optind sp set_optopt opt_c opt_arg].
  destruct (if Ascii.eqb ch ":" then None else strchr main_optstring ch)
    as [cp|] eqn:Hcp.
  - destruct (char_at main_optstring (S cp)) as [colon|] eqn:Hcolon;
      [|discriminate].
    destruct (main_short_values ch colon cp Hc Hcp Hcolon) as (Hk & Hflag).
    destruct (Ascii.eqb colon ":"); cbn [negb] in Hflag.
    + apply eq_sym, negb_true_iff in Hflag.
      destruct (negb (Ascii.eqb next NUL)).
      * intros [= <- <- <-]. right. split; [exact Hk|].
        rewrite Hflag. now eexists.
      * destruct (List.length argv <=? S (optind g))%nat.
        -- intros [= <- <- <-]. now left.
        -- destruct (nth_error argv (S (optind g))) as [a|]; [|discriminate].
           intros [= <- <- <-]. right. split; [exact Hk|].
           rewrite Hflag. now eexists.
    + apply eq_sym, negb_false_iff in Hflag.
      intros [= <- <- <-]. right. split; [exact Hk|]. now rewrite Hflag.
  - intros [= <- <- <-]. now left.
Qed.

Lemma long_option_values (argv : list string) (g : Getopt) (arg : string)
  (evs : list Event) (g' : Getopt) (c : Z) :
  long_option_call argv long_options arg g = Some (evs, g', c) ->
  handled (mk_opt c (optarg g')).
Proof.
  unfold long_option_call, handled. cbv zeta.
  cbn [opt_c opt_arg].
  destruct (find_long long_options _ _ 0) as [[i o]|] eqn:Hfind.
  - destruct (main_long_values o (find_long_in _ _ _ _ _ _ Hfind))
      as (Hk & Hflag).
    cbn [optind set_option_index].
    destruct (has_arg o =? required_argument); cbn [negb] in Hflag.
    + apply eq_sym, negb_true_iff in Hflag.
      destruct (strchr _ "=") as [k|].
      * intros [= <- <- <-]. right. split; [exact Hk|].
        rewrite Hflag. now eexists.
      * destruct (List.length argv <=? S (optind g))%nat.
        -- intros [= <- <- <-]. now left.
        -- destruct (nth_error argv (S (optind g))) as [a|]; [|discriminate].
           intros [= <- <- <-]. right. split; [exact Hk|].
           rewrite Hflag. now eexists.
    + apply eq_sym, negb_false_iff in Hflag.
      destruct (strchr _ "=") as [k|].
      * intros [= <- <- <-]. now left.
      * intros [= <- <- <-]. right. split; [exact Hk|]. now rewrite Hflag.
  - intros [= <- <- <-]. now left.
Qed.

Lemma getopt_long_values (argv : list string) (g : Getopt)
  (evs : list Event) (g' : Getopt) (c : Z) :
  well_placed argv g = true ->
  getopt_long argv main_optstring long_options g = Some (evs, g', c) ->
  c = -1 \/ handled (mk_opt c (optarg g')).
Proof.
  intros Hplaced. unfold getopt_long. cbv zeta. cbn [sp set_option_index].
  set (g0 := set_option_index (-1) g).
  destruct (sp g =? 1)%nat eqn:Hsp.
  - apply Nat.eqb_eq in Hsp.
    destruct (no_option argv g0) eqn:Hno; [intros [= <- <- <-]; now left|].
    destruct (no_option_false argv g0 Hno) as (ch & rest & Harg & Hc).
    rewrite Harg.
    destruct (String.eqb (String "-" (String ch rest)) "--");
      [intros [= <- <- <-]; now left|].
    destruct (Ascii.eqb_spec ch "-") as [->|Hdash].
    + intros Hrun. right. exact (long_option_values _ _ _ _ _ _ Hrun).
    + assert (Hcall :
        match String "-" (String ch rest) with
        | String "-" (String "-" _) =>
            long_option_call argv long_options
              (String "-" (String ch rest)) g0
        | _ => short_option argv main_optstring g0
        end = short_option argv main_optstring g0).
      { destruct ch as [[] [] [] [] [] [] [] []]; try reflexivity.
        now contradiction Hdash. }
      rewrite Hcall. intros Hrun. right.
      refine (short_option_values argv g0 _ ch _ _ _ Harg _ Hc Hrun).
      change (sp g0) with (sp g). now rewrite Hsp.
  - unfold well_placed in Hplaced. rewrite Hsp in Hplaced.
    cbn [orb] in Hplaced.
    destruct (nth_error argv (optind g)) as [arg|] eqn:Harg; [|discriminate].
    destruct (String.get (sp g) arg) as [ch|] eqn:Hget; [|discriminate].
    apply negb_true_iff in Hplaced.
    intros Hrun. right.
    exact (short_option_values argv g0 arg ch _ _ _ Harg Hget Hplaced Hrun).
Qed.

Lemma option_loop_values (argv : list string) (calls : nat) (g : Getopt)
  (opts : list GetoptResult) :
  well_placed argv g = true ->
  option_loop calls argv g = Some opts -> Forall handled opts.
Proof.
  revert g opts. induction calls as [|calls IH]; intros g opts Hplaced;
    [discriminate|].
  rewrite option_loop_step.
  destruct (getopt_long_steps argv main_optstring long_options g Hplaced)
    as (evs & g' & c & Hrun & Hplaced' & _).
  rewrite Hrun.
  pose proof (getopt_long_values argv g evs g' c Hplaced Hrun) as Hval.
  destruct (Z.eqb_spec c (-1)) as [_|Hc]; [intros [= <-]; constructor|].
  destruct Hval as [Hm|Hval]; [contradiction|].
  destruct ((c =? QUESTION) || (c =? 104) || (c =? 86)).
  - intros [= <-]. constructor; [exact Hval | constructor].
  - destruct (option_loop calls argv g') as [rest|] eqn:Hrest; [|discriminate].
    intros [= <-]. constructor; [exact Hval | exact (IH g' rest Hplaced' Hrest)].
Qed.

Variable program_name : string.

(** X22.  On Windows the option loop of [main] is defined.  Every value
    that [getopt_long] hands to the [switch] of [main] is '?' or a value
    the [switch] has a case for, and [optarg] is null exactly for the
    options without an argument.  So the loop never aborts and never
    hands a null pointer to [atoi], [sscanf] or [strtoul]: it either
    goes through all options or returns from [main]. *)
Theorem windows_options_are_defined (argv : list string) (calls : nat)
  (opts : list GetoptResult)
  (Hloop : option_loop calls argv initial_getopt = Some opts) :
  Forall handled opts
  /\ defined_step (parse_options program_name opts default_config) = true.
Proof.
  pose proof (option_loop_values argv calls initial_getopt opts eq_refl Hloop)
    as Hall.
  split; [exact Hall|].
  exact (parse_options_handled program_name opts default_config Hall).
Qed.

End WindowsGetopt.

(** ** The option table of main *)

Section OptionTable.

Variable program_name : string.

Lemma existsb_tl {A : Type} (f : A -> bool) (l : list A) :
  existsb f (tl l) = true -> existsb f l = true.
Proof.
  destruct l as [|a l]; [trivial|]. cbn [tl existsb]. intros ->.
  apply orb_true_r.
Qed.

(** X23.  The option table, the option string, the [switch] and the
    usage agree.  The names of the table are distinct, and so are its
    values.  For every entry, the [switch] of [main] has a case for the
    value, which is neither -1 nor '?'; the entry has an argument
    exactly when its value is not one of the five flags; the usage has
    a line for it, with the short option if there is one, the long name,
    and a placeholder exactly when there is an argument; and its short
    option stands in the option string, with a colon exactly when there
    is an argument.  Every option of the option string has an entry. *)
Theorem option_table_is_consistent :
  NoDup (map name long_options)
  /\ NoDup (map val long_options)
  /\ (forall o, In o long_options ->
        known_option (val o) = true
        /\ val o <> -1 /\ val o <> QUESTION
        /\ (has_arg o =? required_argument) =
             negb (existsb (Z.eqb (val o)) flag_values)
        /\ existsb (mentions (usage_entry o)) (usage_text program_name) = true
        /\ in_optstring o = true)
  /\ (forall c, In c (chars main_optstring) -> c <> ":"%char ->
        exists o, In o long_options /\ short_of o = Some c).
Proof.
  split; [|split; [|split]].
  - cbn [map long_options name].
    repeat (constructor;
            [cbn [In]; intros Hin;
             repeat (destruct Hin as [Hin|Hin]; [discriminate Hin|]);
             exact Hin|]).
    constructor.
  - cbn [map long_options val].
    repeat (constructor;
            [cbn [In]; intros Hin;
             repeat (destruct Hin as [Hin|Hin]; [discriminate Hin|]);
             exact Hin|]).
    constructor.
  - assert (Hall : forallb (fun o =>
              known_option (val o)
              && negb (val o =? -1) && negb (val o =? QUESTION)
              && Bool.eqb (has_arg o =? required_argument)
                   (negb (existsb (Z.eqb (val o)) flag_values))
              && existsb (mentions (usage_entry o))
                   (tl (usage_text program_name))
              && in_optstring o) long_options = true)
      by (vm_compute; reflexivity).
    rewrite forallb_forall in Hall. intros o Hin. specialize (Hall o Hin).
    repeat (apply andb_true_iff in Hall; destruct Hall as [Hall ?]).
    repeat split; try assumption.
    + intros Heq. rewrite Heq in *. discriminate.
    + intros Heq. rewrite Heq in *. discriminate.
    + now apply Bool.eqb_prop.
    + now apply existsb_tl.
  - intros c Hin Hcolon. cbn in Hin.
    assert (Hfind : forall v,
      existsb (fun o => val o =? v) long_options = true ->
      exists o, In o long_options /\ val o = v).
    { intros v Hv. apply existsb_exists in Hv.
      destruct Hv as (o & Ho & Hv). exists o. split; [exact Ho | lia]. }
    repeat (destruct Hin as [<-|Hin];
            [first [ now contradiction Hcolon
                   | match goal with
                     | |- exists o, _ /\ short_of o = Some ?ch =>
                         destruct (Hfind (code ch) eq_refl) as (o & Ho & Hv);
                         exists o; split; [exact Ho|];
                         unfold short_of; rewrite Hv; reflexivity
                     end ]|]).
    contradiction.
Qed.

End OptionTable.

(** ** The properties above at concrete inputs *)

(** X5 over 2000 passes with nothing to read. *)
Lemma free_run_throttles_witness :
  let its := repeat (mk_iter None false Continue "") 2000 in
  let evs := events_of (free_run_loop its 0 (initial_world sample_tty)) in
  all_go_on its 0 = true
  /\ count is_step evs = 2000
  /\ count is_read evs = 20
  /\ count is_usleep evs = 2.
Proof.
  cbv zeta.
  assert (Hgo : all_go_on (repeat (mk_iter None false Continue "") 2000) 0
                = true) by (vm_compute; reflexivity).
  destruct (free_run_throttles _ (initial_world sample_tty) Hgo)
    as (H1 & H2 & H3 & _).
  split; [exact Hgo|]. split; [exact H1|]. split; [exact H2 | exact H3].
Defined.

(** X6 with Ctrl-C at the second poll, in raw mode. *)
Lemma ctrl_c_ends_the_run_witness :
  let pre := repeat (mk_iter None false Continue "") 100 in
  let it := mk_iter (Some (ascii_of_nat 3)) true Continue "" in
  let post := [mk_iter (Some "a"%char) true ExitSuccess ""] in
  let r := free_run_loop (pre ++ it :: post) 0 sample_raw_world in
  all_go_on pre 0 = true
  /\ breaks it (Z.of_nat (List.length pre)) = true
  /\ count is_step (events_of r) = 100
  /\ terminal_raw_mode (world_of r) = false.
Proof.
  cbv zeta.
  assert (Hgo : all_go_on (repeat (mk_iter None false Continue "") 100) 0
                = true) by (vm_compute; reflexivity).
  assert (Hbreak :
    breaks (mk_iter (Some (ascii_of_nat 3)) true Continue "")
      (Z.of_nat (List.length (repeat (mk_iter None false Continue "") 100)))
    = true) by (vm_compute; reflexivity).
  destruct (ctrl_c_ends_the_run _ [mk_iter (Some "a"%char) true ExitSuccess ""]
              _ sample_raw_world Hgo Hbreak) as (_ & Hs & _ & Ht).
  split; [exact Hgo|]. split; [exact Hbreak|]. split; [exact Hs | exact Ht].
Defined.

(** X7 with a failure at the third step. *)
Lemma last_step_ends_the_run_witness :
  let pre := repeat (mk_iter None false Continue "") 2 in
  let it := mk_iter None false ExitFailure "panic" in
  let r := free_run_loop (pre ++ it :: pre) 0 sample_raw_world in
  all_go_on pre 0 = true
  /\ breaks it 2 = false
  /\ in_action it <> Continue
  /\ count is_step (events_of r) = 3
  /\ terminal_raw_mode (world_of r) = false.
Proof.
  cbv zeta.
  assert (Hgo : all_go_on (repeat (mk_iter None false Continue "") 2) 0
                = true) by (vm_compute; reflexivity).
  assert (Hpoll : breaks (mk_iter None false ExitFailure "panic")
                    (Z.of_nat (List.length
                       (repeat (mk_iter None false Continue "") 2))) = false)
    by (vm_compute; reflexivity).
  assert (Hlast : in_action (mk_iter None false ExitFailure "panic")
                  <> Continue) by discriminate.
  destruct (last_step_ends_the_run _
              (repeat (mk_iter None false Continue "") 2) _ sample_raw_world
              Hgo Hpoll Hlast) as (_ & Hs & Ht).
  split; [exact Hgo|]. split; [exact Hpoll|]. split; [exact Hlast|].
  split; [exact Hs | exact Ht].
Defined.


(** X10 with the ROM path and the ROM offset given twice. *)
Lemma paths_and_overrides_witness :
  let opts := (sample_options
               ++ [mk_opt 140 (Some "0x1000"); mk_opt 114 (Some "other.bin");
                   mk_opt 140 (Some "8192")])%list in
  let config :=
    match parse_options "emulator" opts default_config with
    | Next c => c
    | Stop _ _ => default_config
    end in
  parse_options "emulator" opts default_config = Next config
  /\ cfg_str config rom_path = Some "other.bin"
  /\ cfg_str config otp_path = None
  /\ cfg_mem config dma_size = -1.
Proof.
  cbv zeta.
  set (opts := (sample_options
                ++ [mk_opt 140 (Some "0x1000"); mk_opt 114 (Some "other.bin");
                    mk_opt 140 (Some "8192")])%list).
  set (config := match parse_options "emulator" opts default_config with
                 | Next c => c
                 | Stop _ _ => default_config
                 end).
  assert (Hparse : parse_options "emulator" opts default_config = Next config)
    by reflexivity.
  destruct (paths_and_overrides "emulator" opts config Hparse)
    as (Hstr & _ & Hnone).
  split; [exact Hparse|].
  split; [exact (Hstr rom_path)|].
  split; [exact (Hstr otp_path)|].
  apply Hnone. cbn. tauto.
Defined.

(** X11 with tracing and an I3C port. *)
Lemma flags_and_numbers_witness :
  let opts := (sample_options
               ++ [mk_opt 116 None; mk_opt 132 (Some "65534")])%list in
  let config :=
    match parse_options "emulator" opts default_config with
    | Next c => c
    | Stop _ _ => default_config
    end in
  parse_options "emulator" opts default_config = Next config
  /\ cfg_int config trace_instr = 1
  /\ cfg_int config stdin_uart = 1
  /\ cfg_int config gdb_port = 0.
Proof.
  cbv zeta.
  set (opts := (sample_options
                ++ [mk_opt 116 None; mk_opt 132 (Some "65534")])%list).
  set (config := match parse_options "emulator" opts default_config with
                 | Next c => c
                 | Stop _ _ => default_config
                 end).
  assert (Hparse : parse_options "emulator" opts default_config = Next config)
    by reflexivity.
  destruct (flags_and_numbers "emulator" opts config Hparse)
    as (Ht & Hs & _ & _ & Hg & _).
  split; [exact Hparse|]. split; [exact Ht|]. split; [exact Hs | exact Hg].
Defined.

(** X14 on a console, with an engine that finishes at its first step. *)
Lemma terminal_left_as_found_witness :
  let w := initial_world sample_tty in
  let r := process "emulator" sample_options sample_env w in
  terminal_raw_mode w = false
  /\ value_of (main "emulator" sample_options sample_env w) = Exited 0
  /\ terminal_raw_mode (world_of r) = false
  /\ tty (world_of r) = sample_tty
  /\ filter is_terminal_call (events_of r) =
       [Tcgetattr true; Tcsetattr (make_raw sample_termios) true;
        Tcsetattr sample_termios true].
Proof.
  cbv zeta.
  assert (Hoff : terminal_raw_mode (initial_world sample_tty) = false)
    by reflexivity.
  assert (Hret : value_of (main "emulator" sample_options sample_env
                             (initial_world sample_tty)) = Exited 0)
    by (vm_compute; reflexivity).
  destruct (terminal_left_as_found "emulator" sample_options sample_env
              (initial_world sample_tty) 0 Hoff Hret)
    as (Hflag & Htty & _ & _).
  split; [exact Hoff|]. split; [exact Hret|].
  split; [exact Hflag|]. split; [exact Htty|].
  vm_compute; reflexivity.
Defined.

(** X16 with --i3c-port 65534. *)
Lemma i3c_follows_the_port_witness :
  let opts := (sample_options ++ [mk_opt 132 (Some "65534")])%list in
  let config :=
    match parse_options "emulator" opts default_config with
    | Next c => c
    | Stop _ _ => default_config
    end in
  let evs := events_of (main "emulator" opts sample_env
                          (initial_world sample_tty)) in
  parse_options "emulator" opts default_config = Next config
  /\ cfg_int config i3c_port = 65534
  /\ count is_i3c_start evs = 1.
Proof.
  cbv zeta.
  set (opts := (sample_options ++ [mk_opt 132 (Some "65534")])%list).
  set (config := match parse_options "emulator" opts default_config with
                 | Next c => c
                 | Stop _ _ => default_config
                 end).
  assert (Hparse : parse_options "emulator" opts default_config = Next config)
    by reflexivity.
  destruct (i3c_follows_the_port "emulator" opts sample_env
              (initial_world sample_tty) config Hparse) as (_ & _ & _ & Hnum).
  assert (Hrange : 0 < positional 10 "65534" <= 65535)
    by (vm_compute; split; [reflexivity | discriminate]).
  destruct (Hnum "65534" "" eq_refl eq_refl eq_refl Hrange) as (Hport & Hstart).
  split; [exact Hparse|]. split; [exact Hport|].
  exact (Hstart eq_refl eq_refl eq_refl).
Defined.

(** X17 with an engine that refuses to be initialized. *)
Lemma initialization_failures_witness :
  let env := mk_env 4096 16 true "Cannot allocate memory" (Failed 7) Success
               false 0 Success true [] "" in
  let r := main "emulator" sample_options env (initial_world sample_tty) in
  parse_options "emulator" sample_options default_config = Next sample_config
  /\ first_missing sample_config = None
  /\ env_alloc_ok env = true
  /\ value_of r = Exited 1
  /\ world_of r = set_atexit_registered true (initial_world sample_tty).
Proof.
  cbv zeta.
  assert (Hparse : parse_options "emulator" sample_options default_config
                   = Next sample_config) by reflexivity.
  assert (Hmiss : first_missing sample_config = None) by reflexivity.
  destruct (initialization_failures "emulator" sample_options
              (mk_env 4096 16 true "Cannot allocate memory" (Failed 7) Success
                 false 0 Success true [] "")
              (initial_world sample_tty) sample_config Hparse Hmiss eq_refl)
    as (Hinit & _).
  destruct (Hinit 7 eq_refl) as (_ & Hst & Hw).
  split; [exact Hparse|]. split; [exact Hmiss|]. split; [reflexivity|].
  split; [exact Hst | exact Hw].
Defined.

(** X18 with --help after the ROM path. *)
Lemma options_that_end_main_witness :
  let pre := [mk_opt 114 (Some "rom.bin")] in
  let w := initial_world sample_tty in
  parse_options "emulator" pre default_config
    = Next (set_str rom_path (Some "rom.bin") default_config)
  /\ main "emulator" (pre ++ mk_opt 104 None :: sample_options) sample_env w
     = (map (Output Stdout) (usage_text "emulator"), w, Exited 0).
Proof.
  cbv zeta.
  assert (Hpre : parse_options "emulator" [mk_opt 114 (Some "rom.bin")]
                   default_config
                 = Next (set_str rom_path (Some "rom.bin") default_config))
    by reflexivity.
  destruct (options_that_end_main "emulator" [mk_opt 114 (Some "rom.bin")]
              sample_options (mk_opt 104 None) _ sample_env
              (initial_world sample_tty) Hpre) as (Hhelp & _).
  split; [exact Hpre | exact (Hhelp eq_refl)].
Defined.

(** X19 at the start of a command line, and on a flag that is given an
    argument. *)
Lemma parsers_advance_witness :
  let argv := ["emulator"; "-tr"; "rom.bin"; "--trace-instr=1"] in
  let g := mk_getopt (Some "rom.bin") 3 "r" 1 (-1) in
  well_placed argv initial_getopt = true
  /\ well_placed argv g = true
  /\ (exists evs g' c,
        getopt_long argv main_optstring long_options initial_getopt
          = Some (evs, g', c)
        /\ well_placed argv g' = true
        /\ (optind initial_getopt <= optind g'
            <= Nat.max (optind initial_getopt) (List.length argv))%nat
        /\ (to_read argv g' < to_read argv initial_getopt)%nat)
  /\ (exists evs g' c,
        getopt_long argv main_optstring long_options g = Some (evs, g', c)
        /\ well_placed argv g' = true
        /\ (optind g <= optind g' <= Nat.max (optind g) (List.length argv))%nat
        /\ c = QUESTION /\ optind g' = optind g /\ sp g' = sp g).
Proof.
  cbv zeta.
  assert (Hstart : well_placed ["emulator"; "-tr"; "rom.bin"; "--trace-instr=1"]
                     initial_getopt = true) by reflexivity.
  assert (Hflag : well_placed ["emulator"; "-tr"; "rom.bin"; "--trace-instr=1"]
                    (mk_getopt (Some "rom.bin") 3 "r" 1 (-1)) = true)
    by reflexivity.
  split; [exact Hstart|]. split; [exact Hflag|]. split.
  - exact (proj2 (parsers_advance _ main_optstring long_options _ Hstart)).
  - exact (proj2 (parsers_advance _ main_optstring long_options _ Hflag)).
Defined.

(** X20 with --rom=rom.bin. *)
Lemma long_options_by_name_witness :
  let argv := ["emulator"; "--rom=rom.bin"] in
  sp initial_getopt = 1%nat
  /\ has_char "=" "rom" = false
  /\ outcome (getopt_long argv main_optstring long_options initial_getopt)
     = Some ([], 114, Some "rom.bin", 2%nat).
Proof.
  cbv zeta.
  assert (Hsp : sp initial_getopt = 1%nat) by reflexivity.
  assert (Hn : has_char "=" "rom" = false) by reflexivity.
  destruct (long_options_by_name ["emulator"; "--rom=rom.bin"] main_optstring
              long_options initial_getopt "rom" Hsp Hn) as (Heq & _).
  split; [exact Hsp|]. split; [exact Hn|].
  exact (Heq "rom.bin" eq_refl).
Defined.

(** X22 on a command line with long and short options. *)
Lemma windows_options_are_defined_witness :
  let argv := ["emulator"; "--rom=rom.bin"; "-f"; "fw.bin"; "--trace-instr";
               "-g1234"] in
  let opts := [mk_opt 114 (Some "rom.bin"); mk_opt 102 (Some "fw.bin");
               mk_opt 116 None; mk_opt 103 (Some "1234")] in
  option_loop 10 argv initial_getopt = Some opts
  /\ defined_step (parse_options "emulator" opts default_config) = true.
Proof.
  cbv zeta.
  assert (Hloop :
    option_loop 10
      ["emulator"; "--rom=rom.bin"; "-f"; "fw.bin"; "--trace-instr"; "-g1234"]
      initial_getopt
    = Some [mk_opt 114 (Some "rom.bin"); mk_opt 102 (Some "fw.bin");
            mk_opt 116 None; mk_opt 103 (Some "1234")])
    by (vm_compute; reflexivity).
  destruct (windows_options_are_defined "emulator" _ 10 _ Hloop)
    as (_ & Hstep).
  split; [exact Hloop | exact Hstep].
Defined.
